(** * Dynamite: partition reconciliation, validation and topology matching

    A shallow embedding of the Houdini tool [dynamite.py] and of its helper
    [topo_match.py].  The Houdini scene (nodes, parameters, multiparms) is an
    explicit state; Python exceptions are an outcome of every stateful step;
    node paths and the persisted prim-group list are strings, as in the
    source. *)

From Stdlib Require Import Ascii.
From Stdlib Require QArith_base.
From stdpp Require Import gmap strings list sorting.

(** ** Python string and list primitives *)

Module Py.

(** [s.split(c)] for a one-character separator: every occurrence of the
    separator cuts, so the empty string yields one empty field. *)
Fixpoint split (c : ascii) (s : string) : list string :=
  match s with
  | EmptyString => [EmptyString]
  | String a s' =>
      if decide (a = c) then EmptyString :: split c s'
      else match split c s' with
           | h :: t => String a h :: t
           | [] => [String a EmptyString]
           end
  end.

(** [sep.join(l)] *)
Definition join (sep : string) (l : list string) : string :=
  String.concat sep l.

(** [p in s] on strings: substring test. *)
Fixpoint is_infix (p s : string) : bool :=
  String.prefix p s ||
  match s with
  | EmptyString => false
  | String _ s' => is_infix p s'
  end.

(** [s.startswith(p)] *)
Definition startswith (p s : string) : bool := String.prefix p s.

(** [s[n:]] *)
Fixpoint drop (n : nat) (s : string) : string :=
  match n, s with
  | O, _ => s
  | S n', String _ s' => drop n' s'
  | S _, EmptyString => EmptyString
  end.

(** [sorted(l)] on byte strings: ascending in the lexicographic order of
    the character codes. *)
Definition sorted (l : list string) : list string :=
  merge_sort String.le l.

(** [l.remove(x)]: drops the first occurrence (the callers test
    membership first, so the raising case is never reached). *)
Fixpoint remove (x : string) (l : list string) : list string :=
  match l with
  | [] => []
  | y :: l' => if decide (x = y) then l' else y :: remove x l'
  end.

(** [sorted(list(set(a) - set(b)))]: the distinct members of [a] that are
    not in [b], ascending. *)
Definition sorted_difference (a b : list string) : list string :=
  sorted (remove_dups (list_difference a b)).

(** A character that is not the separator. *)
Fixpoint free_of (c : ascii) (s : string) : bool :=
  match s with
  | EmptyString => true
  | String a s' => bool_decide (a ≠ c) && free_of c s'
  end.

End Py.

(** ** Geometry as the tool sees it

    The mesh operators are opaque to the tool; what it reads from a geometry
    is the tuple of its primitive groups, of which it only uses the names. *)

Definition geometry := list string.

(** [geo.primGroups()] yields groups with pairwise distinct names. *)
Definition well_formed_geometry (geo : geometry) : Prop := NoDup geo.

Definition get_prim_group_names (geo : geometry) (sort : bool) : list string :=
  if sort then Py.sorted geo else geo.

(** ** Partition-set validation *)

Definition error_no_match : string :=
  "ERROR: Primitive groups of retopo and reference files don't match.".
Definition error_no_groups : string :=
  "ERROR: No primitive groups in both: retopo and reference files.".

(** The result and the messages shown through [hou.ui.displayMessage]. *)
Definition primitive_groups_match (geo1 geo2 : geometry) : bool * list string :=
  if negb (length geo1 =? length geo2)%nat then (false, [error_no_match])
  else if ((length geo1 =? 0)%nat && negb (length geo2 =? 0)%nat)
          || (negb (length geo1 =? 0)%nat && (length geo2 =? 0)%nat)
       then (false, [error_no_match])
  else if (length geo1 =? 0)%nat && (length geo2 =? 0)%nat
       then (false, [error_no_groups])
  else if decide (Py.sorted geo1 = Py.sorted geo2) then (true, [])
  else (false, [error_no_match]).

(** ** The control node

    The tool keeps its state in parameters of one control node.  Each known
    partition has a folder of per-group parameters on its Edit tab. *)

Record vector3 := Vector3 { vx : QArith_base.Q; vy : QArith_base.Q; vz : QArith_base.Q }.

Definition zero : QArith_base.Q := QArith_base.Qmake 0 1.
Definition origin : vector3 := Vector3 zero zero zero.

(** The values a user sets for one partition ([<name>_iterations],
    [<name>_translate], [<name>_peak_dist] and the three display toggles). *)
Record group_parms := GroupParms {
  gp_iterations : Z;
  gp_translate : vector3;
  gp_peak_dist : QArith_base.Q;
  gp_retopo_display : bool;
  gp_reference_display : bool;
  gp_cage_display : bool
}.

(** The folder [<name>_folder]: the values, whether the reference and cage
    toggles have received their callbacks, and the list of partition names
    written into the callbacks of the show and isolate buttons. *)
Record group_folder := GroupFolder {
  gf_parms : group_parms;
  gf_reference_callback : bool;
  gf_cage_callback : bool;
  gf_button_names : list string
}.

Record control_parms := ControlParms {
  network_location : string;
  retopo_source_path : string;
  reference_source_path : string;
  cage_material : string;
  reference_material : string;
  prim_groups : string;
  folders : gmap string group_folder;
  network_exists : bool
}.

Definition set_prim_groups (v : string) (c : control_parms) : control_parms :=
  {| network_location := network_location c;
     retopo_source_path := retopo_source_path c;
     reference_source_path := reference_source_path c;
     cage_material := cage_material c;
     reference_material := reference_material c;
     prim_groups := v;
     folders := folders c;
     network_exists := network_exists c |}.

Definition set_folders (v : gmap string group_folder) (c : control_parms) : control_parms :=
  {| network_location := network_location c;
     retopo_source_path := retopo_source_path c;
     reference_source_path := reference_source_path c;
     cage_material := cage_material c;
     reference_material := reference_material c;
     prim_groups := prim_groups c;
     folders := v;
     network_exists := network_exists c |}.

Definition set_materials_parms (cage reference : string) (c : control_parms) : control_parms :=
  {| network_location := network_location c;
     retopo_source_path := retopo_source_path c;
     reference_source_path := reference_source_path c;
     cage_material := cage;
     reference_material := reference;
     prim_groups := prim_groups c;
     folders := folders c;
     network_exists := network_exists c |}.

Definition set_network_exists (v : bool) (c : control_parms) : control_parms :=
  {| network_location := network_location c;
     retopo_source_path := retopo_source_path c;
     reference_source_path := reference_source_path c;
     cage_material := cage_material c;
     reference_material := reference_material c;
     prim_groups := prim_groups c;
     folders := folders c;
     network_exists := v |}.

(** *** The current prim-group list

    The list is persisted in the string parameter [prim_groups].  The source
    tests [eval() is ''], which on CPython holds exactly for the empty
    string (the empty string object is shared). *)

Definition get_current_prim_groups (control_node : control_parms) : option (list string) :=
  if decide (prim_groups control_node = "") then None
  else Some (Py.split " " (prim_groups control_node)).

Definition set_current_prim_groups (control_node : control_parms)
    (prim_group_names : list string) : control_parms :=
  set_prim_groups (Py.join " " (Py.sorted prim_group_names)) control_node.

Definition add_to_current_prim_groups (control_node : control_parms)
    (prim_group_name : string) : control_parms :=
  let prim_groups_list := default [] (get_current_prim_groups control_node) in
  let prim_groups_list :=
    if decide (prim_group_name ∈ prim_groups_list) then prim_groups_list
    else prim_groups_list ++ [prim_group_name] in
  set_prim_groups (Py.join " " (Py.sorted prim_groups_list)) control_node.

Definition remove_from_current_prim_groups (control_node : control_parms)
    (prim_group_name : string) : control_parms :=
  match get_current_prim_groups control_node with
  | None => control_node
  | Some prim_groups_list =>
      if decide (prim_group_name ∈ prim_groups_list)
      then set_current_prim_groups control_node (Py.remove prim_group_name prim_groups_list)
      else control_node
  end.

(** The list as the tool reads it back, [None] read as the empty list. *)
Definition current_names (c : control_parms) : list string :=
  default [] (get_current_prim_groups c).

(** A partition name is not empty and holds no space (Houdini group names
    are identifiers). *)
Definition valid_name (n : string) : Prop := n ≠ "" ∧ Py.free_of " " n = true.

(** The persisted form of the list: the sorted names joined by one space. *)
Definition serialized (pg : string) : Prop :=
  ∃ names, Forall valid_name names ∧ pg = Py.join " " (Py.sorted names).

(** ** SOP networks and meshes

    A network is built by [createNode] and wired by [setInput]; the model
    keeps the nodes as an enumeration of the Python variables that hold them
    and the [setInput] calls in source order. *)

Inductive feed (N : Type) : Type :=
| FromNode (n : N)
| IndirectInput (i : nat).
Arguments FromNode {N} n.
Arguments IndirectInput {N} i.

(** One [target.setInput(index, source)] call. *)
Definition wiring (N : Type) : Type := list (N * nat * feed N).

(** The source connected to input [i] of [n]: the last call made for that
    input wins. *)
Fixpoint input_of {N} `{EqDecision N} (w : wiring N) (n : N) (i : nat) : option (feed N) :=
  match w with
  | [] => None
  | (n', i', src) :: w' =>
      match input_of w' n i with
      | Some later => Some later
      | None => if decide (n' = n ∧ i' = i) then Some src else None
      end
  end.

(** A mesh: point positions by point number, the names of the remaining
    attributes per class, the primitives as lists of point numbers, and the
    names of its groups.  The values of attributes other than [P] are the
    business of the mesh operators and are not represented. *)
Record mesh := Mesh {
  points : list vector3;
  point_attribs : list string;
  vertex_attribs : list string;
  prim_attribs : list string;
  detail_attribs : list string;
  prims : list (list nat);
  groups : list string
}.

(** Houdini attribute patterns as the tool uses them: space-separated
    tokens, [*] for everything, a name for itself, [^name] to exclude. *)
Definition pattern_matches (pattern name : string) : bool :=
  let tokens := Py.split " " pattern in
  existsb (λ t, bool_decide (t = "*") || bool_decide (t = name)) tokens
  && negb (existsb (λ t, bool_decide (t = "^" +:+ name)) tokens).

Definition delete_matching (pattern : string) (names : list string) : list string :=
  filter (λ n, pattern_matches pattern n = false) names.

(** VEX, as far as the snippet of [topo_match.py] goes. *)
Inductive vex_expr :=
| PointAttrib (input : nat) (attrib : string) (flag : string).

Inductive vex_stmt :=
| DeclareInt (var : string)
| AssignAttrib (attrib : string) (e : vex_expr).

(** [pointattrib(input, "P", ptnum, success)]: the value of [P] at that
    point number and 1, or the zero vector and 0 where the input has no such
    point. *)
Definition pointattrib_P (geo : mesh) (ptnum : nat) : vector3 * bool :=
  match points geo !! ptnum with
  | Some p => (p, true)
  | None => (origin, false)
  end.

(** One statement run for point [ptnum]: the position of the point and the
    integer variables bound so far. *)
Definition run_stmt (inputs : list mesh) (ptnum : nat)
    (st : vector3 * list (string * bool)) (stmt : vex_stmt)
    : vector3 * list (string * bool) :=
  match stmt with
  | DeclareInt v => (st.1, (v, false) :: st.2)
  | AssignAttrib a (PointAttrib i b flag) =>
      match inputs !! i with
      | Some geo =>
          let r := pointattrib_P geo ptnum in
          if decide (a = "P" ∧ b = "P") then (r.1, (flag, r.2) :: st.2)
          else (st.1, (flag, r.2) :: st.2)
      | None => (st.1, (flag, false) :: st.2)
      end
  end.

(** An attribute wrangle of class 2 runs its snippet once per point of its
    first input and writes the bound [@P] back. *)
Definition run_point_wrangle (snippet : list vex_stmt) (inputs : list mesh) : option mesh :=
  geo ← inputs !! 0%nat;
  Some {| points := imap (λ ptnum p, (foldl (run_stmt inputs ptnum) (p, []) snippet).1)
                         (points geo);
          point_attribs := point_attribs geo;
          vertex_attribs := vertex_attribs geo;
          prim_attribs := prim_attribs geo;
          detail_attribs := detail_attribs geo;
          prims := prims geo;
          groups := groups geo |}.

Inductive sop_type :=
| AttribWrangle (class : nat) (snippet : list vex_stmt)
| AttribDelete (ptdel vtxdel primdel dtldel : string)
| GroupDelete (group1 : string)
| GroupTransfer (primgroups pointgroups edgegroups : string)
| Normal (cuspangle : Z)
| Null.

Definition add_name (n : string) (l : list string) : list string :=
  if decide (n ∈ l) then l else l ++ [n].

(** What each operator of the subnetwork does to the represented part of a
    mesh, given the meshes on its inputs. *)
Definition cook_sop (ty : sop_type) (inputs : list mesh) : option mesh :=
  match ty with
  | AttribWrangle class snippet =>
      if decide (class = 2%nat) then run_point_wrangle snippet inputs else None
  | AttribDelete ptdel vtxdel primdel dtldel =>
      geo ← inputs !! 0%nat;
      Some {| points := points geo;
              point_attribs := delete_matching ptdel (point_attribs geo);
              vertex_attribs := delete_matching vtxdel (vertex_attribs geo);
              prim_attribs := delete_matching primdel (prim_attribs geo);
              detail_attribs := delete_matching dtldel (detail_attribs geo);
              prims := prims geo;
              groups := groups geo |}
  | GroupDelete group1 =>
      geo ← inputs !! 0%nat;
      Some {| points := points geo;
              point_attribs := point_attribs geo;
              vertex_attribs := vertex_attribs geo;
              prim_attribs := prim_attribs geo;
              detail_attribs := detail_attribs geo;
              prims := prims geo;
              groups := delete_matching group1 (groups geo) |}
  | GroupTransfer primgroups _ _ =>
      geo ← inputs !! 0%nat;
      source ← inputs !! 1%nat;
      Some {| points := points geo;
              point_attribs := point_attribs geo;
              vertex_attribs := vertex_attribs geo;
              prim_attribs := prim_attribs geo;
              detail_attribs := detail_attribs geo;
              prims := prims geo;
              groups := foldl (λ acc g, add_name g acc) (groups geo)
                          (filter (λ g, pattern_matches primgroups g = true) (groups source)) |}
  | Normal _ =>
      geo ← inputs !! 0%nat;
      Some {| points := points geo;
              point_attribs := point_attribs geo;
              vertex_attribs := add_name "N" (vertex_attribs geo);
              prim_attribs := prim_attribs geo;
              detail_attribs := detail_attribs geo;
              prims := prims geo;
              groups := groups geo |}
  | Null => inputs !! 0%nat
  end.

(** Cooking a node of a network whose indirect inputs carry [inputs]: cook
    what is wired to its inputs 0 and 1, then the node itself.  [fuel]
    bounds the depth of the chain. *)
Fixpoint cook {N} `{EqDecision N} (fuel : nat) (types : N → sop_type) (w : wiring N)
    (inputs : list mesh) (src : feed N) : option mesh :=
  match fuel with
  | O => None
  | S fuel' =>
      match src with
      | IndirectInput i => inputs !! i
      | FromNode n =>
          let from i := input_of w n i ≫= cook fuel' types w inputs in
          match from 0%nat, from 1%nat with
          | Some a, Some b => cook_sop (types n) [a; b]
          | Some a, None => cook_sop (types n) [a]
          | None, _ => None
          end
      end
  end.

(** *** topo_match.py *)

Module topo_match.

Inductive node :=
| point_wrangle | attribdelete | delete_groups | group_transfer | normals | out.

#[global] Instance node_eq_dec : EqDecision node.
Proof. solve_decision. Defined.

(** [int success; @P = pointattrib(1, "P", @ptnum, success);] *)
Definition snippet : list vex_stmt :=
  [DeclareInt "success"; AssignAttrib "P" (PointAttrib 1 "P" "success")].

Definition node_type (n : node) : sop_type :=
  match n with
  | point_wrangle => AttribWrangle 2 snippet
  | attribdelete => AttribDelete "* ^P ^N" "* ^N ^uv" "*" "*"
  | delete_groups => GroupDelete "*"
  | group_transfer => GroupTransfer "*" "*" "*"
  | normals => Normal 180
  | out => Null
  end.

Definition node_name (n : node) : string :=
  match n with
  | point_wrangle => "match_point_positions"
  | attribdelete => "delete_non_crucial_attribs"
  | delete_groups => "remove_source_groups"
  | group_transfer => "transfer_groups"
  | normals => "normal1"
  | out => "OUT"
  end.

(** The [# Connections.] block of [create_node]. *)
Definition connections : wiring node :=
  [ (point_wrangle, 0%nat, IndirectInput 1);
    (point_wrangle, 1%nat, IndirectInput 0);
    (attribdelete, 0%nat, FromNode point_wrangle);
    (delete_groups, 0%nat, FromNode attribdelete);
    (group_transfer, 0%nat, FromNode delete_groups);
    (group_transfer, 1%nat, IndirectInput 0);
    (normals, 0%nat, FromNode group_transfer);
    (out, 0%nat, FromNode normals) ].

(** The subnetwork [create_node] returns: its name, its children and their
    wiring. *)
Record subnet := Subnet {
  name : string;
  types : node → sop_type;
  wires : wiring node
}.

Definition create_node : subnet :=
  {| name := "topo_match"; types := node_type; wires := connections |}.

(** The mesh on the display node [OUT] when the subnetwork's inputs 0 and 1
    carry [input0] and [input1]. *)
Definition output (input0 input1 : mesh) : option mesh :=
  cook 8 (types create_node) (wires create_node) [input0; input1] (FromNode out).

End topo_match.

(** The correspondence transform: the points run over, and the connectivity
    kept, are those of the mesh on the wrangle's first input, which is the
    subnetwork's second; the positions are read from the mesh on the
    subnetwork's first input. *)
Definition correspond (positionDonor topologyDonor : mesh) : option mesh :=
  topo_match.output positionDonor topologyDonor.

(** *** The SOP chain of a cage group (create_cage_group) *)

Module cage_sops.

Inductive node :=
| object_merge | material | xform | normals | peak
| user_block_start | user_block_end | edit
| retopo_merge | delete_material
| topology_match | topology_match_switch
| export_scale | subdivide | subdivide_switch | post_normals | out.

#[global] Instance node_eq_dec : EqDecision node.
Proof. solve_decision. Defined.

Definition node_name (prim_group_name : string) (n : node) : string :=
  match n with
  | object_merge => prim_group_name +:+ "_object_merge"
  | material => prim_group_name +:+ "_material"
  | xform => prim_group_name +:+ "_xform"
  | normals => prim_group_name +:+ "_normal"
  | peak => prim_group_name +:+ "_peak"
  | user_block_start => "USER_BEGIN"
  | user_block_end => "USER_END"
  | edit => prim_group_name +:+ "_edit"
  | retopo_merge => prim_group_name +:+ "_retopo_merge"
  | delete_material => prim_group_name +:+ "_shop_path_delete"
  | topology_match => topo_match.name topo_match.create_node
  | topology_match_switch => prim_group_name +:+ "_match_topology"
  | export_scale => prim_group_name +:+ "_export_scale"
  | subdivide => prim_group_name +:+ "_subdivide"
  | subdivide_switch => prim_group_name +:+ "_subdivide_switch"
  | post_normals => prim_group_name +:+ "_post_normals"
  | out => prim_group_name +:+ "_OUT"
  end.

(** [objpath1] of the two object merges: the cage chain starts from the
    retopo source, the second branch imports the triangulate node of the
    sibling retopo group. *)
Definition object_merge_objpath (retopo_source_out : string) : string :=
  retopo_source_out.
Definition retopo_merge_objpath (network_location prim_group_name : string) : string :=
  network_location +:+ "/" +:+ prim_group_name +:+ "_retopo/"
    +:+ prim_group_name +:+ "_triangulate".

(** [primdel] of the attribute delete on the second branch. *)
Definition delete_material_primdel : string := "shop_materialpath".

(** The [# Connections.] block of [create_cage_group]. *)
Definition connections : wiring node :=
  [ (material, 0%nat, FromNode object_merge);
    (normals, 0%nat, FromNode material);
    (peak, 0%nat, FromNode normals);
    (user_block_start, 0%nat, FromNode peak);
    (user_block_end, 0%nat, FromNode user_block_start);
    (edit, 0%nat, FromNode user_block_end);
    (xform, 0%nat, FromNode edit);
    (export_scale, 0%nat, FromNode xform);
    (subdivide, 0%nat, FromNode export_scale);
    (subdivide_switch, 0%nat, FromNode export_scale);
    (subdivide_switch, 1%nat, FromNode subdivide);
    (delete_material, 0%nat, FromNode retopo_merge);
    (topology_match, 0%nat, FromNode subdivide_switch);
    (topology_match, 1%nat, FromNode delete_material);
    (topology_match_switch, 0%nat, FromNode subdivide_switch);
    (topology_match_switch, 0%nat, FromNode subdivide_switch);
    (topology_match_switch, 1%nat, FromNode topology_match);
    (post_normals, 0%nat, FromNode topology_match_switch);
    (out, 0%nat, FromNode post_normals) ].

(** The node of the cage chain that reaches input [i] of the point wrangle
    inside the topology-match subnetwork. *)
Definition wrangle_input (i : nat) : option (feed node) :=
  match input_of (topo_match.wires topo_match.create_node) topo_match.point_wrangle i with
  | Some (IndirectInput k) => input_of connections topology_match k
  | _ => None
  end.

(** The mesh whose points the wrangle runs over and whose connectivity
    survives, and the mesh [pointattrib(1, ...)] reads positions from. *)
Definition topology_donor : option (feed node) := wrangle_input 0.
Definition position_donor : option (feed node) := wrangle_input 1.

(** The mesh leaving the topology-match subnetwork, given the meshes the
    other nodes of the chain produce. *)
Definition mesh_on (meshes : node → option mesh) (i : nat) : option mesh :=
  match input_of connections topology_match i with
  | Some (FromNode n) => meshes n
  | _ => None
  end.

Definition topology_stage (meshes : node → option mesh) : option mesh :=
  input0 ← mesh_on meshes 0;
  input1 ← mesh_on meshes 1;
  topo_match.output input0 input1.

End cage_sops.

(** ** The scene

    The part of the Houdini session the tool reads and writes: the mesh
    files on disk, the operators a source path may name with [op:], the
    control node, the materials, the two source networks, the bake-group
    objects by path, the three output objects and the messages shown. *)

Inductive role := Retopo | Reference | Cage.

#[global] Instance role_eq_dec : EqDecision role.
Proof. solve_decision. Defined.

(** [Dynamite.RETOPO_GROUP], [REFERENCE_GROUP], [CAGE_GROUP] *)
Definition role_name (r : role) : string :=
  match r with
  | Retopo => "retopo"
  | Reference => "reference"
  | Cage => "cage"
  end.

(** ['%s/%s_retopo' % (network_location, name)] and its siblings. *)
Definition group_path (network_location prim_group_name : string) (r : role) : string :=
  network_location +:+ "/" +:+ prim_group_name +:+ "_" +:+ role_name r.

(** A bake-group object: display flag, what is wired into its first input,
    and, for a cage, what the user authored between [USER_BEGIN] and the
    edit node. *)
Record bake_group := BakeGroup {
  bg_role : role;
  bg_display : bool;
  bg_input : option string;
  bg_edit : list string
}.

(** One instance of the [numobj] multiparm of an object merge. *)
Record merge_entry := MergeEntry {
  me_enable : bool;
  me_objpath : string;
  me_group : string;
  me_expand : bool
}.

(** A source network: the live file node and the temporary one kept for
    updates, each with the path it reads and the geometry it holds. *)
Record source_network := SourceNetwork {
  sn_file : string;
  sn_geo : geometry;
  sn_temp_file : string;
  sn_temp_geo : geometry;
  sn_is_fbx : bool;
  sn_is_fbx_temp : bool
}.

Record scene := Scene {
  disk : gmap string geometry;
  operators : gmap string geometry;
  control : control_parms;
  materials : gset string;
  retopo_source : option source_network;
  reference_source : option source_network;
  bake_groups : gmap string bake_group;
  retopo_output : option (list merge_entry);
  reference_output : option (list merge_entry);
  cage_output : option (list merge_entry);
  messages : list string
}.

Definition set_control (v : control_parms) (s : scene) : scene :=
  {| disk := disk s; operators := operators s; control := v;
     materials := materials s; retopo_source := retopo_source s;
     reference_source := reference_source s; bake_groups := bake_groups s;
     retopo_output := retopo_output s; reference_output := reference_output s;
     cage_output := cage_output s; messages := messages s |}.

Definition set_materials (v : gset string) (s : scene) : scene :=
  {| disk := disk s; operators := operators s; control := control s;
     materials := v; retopo_source := retopo_source s;
     reference_source := reference_source s; bake_groups := bake_groups s;
     retopo_output := retopo_output s; reference_output := reference_output s;
     cage_output := cage_output s; messages := messages s |}.

Definition set_bake_groups (v : gmap string bake_group) (s : scene) : scene :=
  {| disk := disk s; operators := operators s; control := control s;
     materials := materials s; retopo_source := retopo_source s;
     reference_source := reference_source s; bake_groups := v;
     retopo_output := retopo_output s; reference_output := reference_output s;
     cage_output := cage_output s; messages := messages s |}.

Definition set_messages (v : list string) (s : scene) : scene :=
  {| disk := disk s; operators := operators s; control := control s;
     materials := materials s; retopo_source := retopo_source s;
     reference_source := reference_source s; bake_groups := bake_groups s;
     retopo_output := retopo_output s; reference_output := reference_output s;
     cage_output := cage_output s; messages := v |}.

Inductive source_id := RetopoSource | ReferenceSource.

Definition source_name (k : source_id) : string :=
  match k with
  | RetopoSource => "retopo_source"
  | ReferenceSource => "reference_source"
  end.

Definition get_source (k : source_id) (s : scene) : option source_network :=
  match k with
  | RetopoSource => retopo_source s
  | ReferenceSource => reference_source s
  end.

Definition set_source (k : source_id) (v : option source_network) (s : scene) : scene :=
  {| disk := disk s; operators := operators s; control := control s;
     materials := materials s;
     retopo_source := match k with RetopoSource => v | ReferenceSource => retopo_source s end;
     reference_source := match k with RetopoSource => reference_source s | ReferenceSource => v end;
     bake_groups := bake_groups s;
     retopo_output := retopo_output s; reference_output := reference_output s;
     cage_output := cage_output s; messages := messages s |}.

(** [Dynamite.RETOPO_OUTPUT_OBJ_NAME] and siblings. *)
Definition output_name (r : role) : string :=
  match r with
  | Retopo => "retopo_output"
  | Reference => "reference_output"
  | Cage => "cage_output"
  end.

Definition get_output (r : role) (s : scene) : option (list merge_entry) :=
  match r with
  | Retopo => retopo_output s
  | Reference => reference_output s
  | Cage => cage_output s
  end.

Definition set_output (r : role) (v : option (list merge_entry)) (s : scene) : scene :=
  {| disk := disk s; operators := operators s; control := control s;
     materials := materials s; retopo_source := retopo_source s;
     reference_source := reference_source s; bake_groups := bake_groups s;
     retopo_output := match r with Retopo => v | _ => retopo_output s end;
     reference_output := match r with Reference => v | _ => reference_output s end;
     cage_output := match r with Cage => v | _ => cage_output s end;
     messages := messages s |}.

(** ** Stateful steps that may raise *)

Inductive exn := AttributeError | OperationFailed | SystemExit.

Inductive outcome (A : Type) : Type :=
| Ok (a : A) (s : scene)
| Raise (e : exn) (s : scene).
Arguments Ok {A} a s.
Arguments Raise {A} e s.

(** The scene an outcome leaves behind. *)
Definition final {A} (o : outcome A) : scene :=
  match o with
  | Ok _ s => s
  | Raise _ s => s
  end.

Definition M (A : Type) : Type := scene → outcome A.

#[global] Instance M_ret : MRet M := λ A a s, Ok a s.
#[global] Instance M_bind : MBind M := λ A B f m s,
  match m s with
  | Ok a s' => f a s'
  | Raise e s' => Raise e s'
  end.

Definition raise {A} (e : exn) : M A := λ s, Raise e s.
Definition get : M scene := λ s, Ok s s.
Definition modify (f : scene → scene) : M unit := λ s, Ok tt (f s).

(** [x.attr] where [x] may be [None]. *)
Definition deref {A} (x : option A) : M A :=
  match x with
  | Some a => mret a
  | None => raise AttributeError
  end.

(** A [for] loop that threads a local variable through its body. *)
Fixpoint fold_m {A B} (body : B → A → M B) (l : list A) (b : B) : M B :=
  match l with
  | [] => mret b
  | x :: l' => b' ← body b x; fold_m body l' b'
  end.

Definition for_each {A} (l : list A) (body : A → M unit) : M unit :=
  fold_m (λ _ x, body x) l tt.

(** [hou.ui.displayMessage] *)
Definition display_messages (msgs : list string) : M unit :=
  modify (λ s, set_messages (messages s ++ msgs) s).

(** ** Paths *)

Definition lower (c : ascii) : ascii :=
  let n := nat_of_ascii c in
  if (65 <=? n)%nat && (n <=? 90)%nat then ascii_of_nat (n + 32) else c.

(** Reading a reversed path from just before its last dot: some character
    other than a dot comes before the next separator. *)
Fixpoint stem_is_proper (reversed : string) : bool :=
  match reversed with
  | EmptyString => false
  | String c r =>
      if decide (c = "/"%char) then false
      else if decide (c = "."%char) then stem_is_proper r
      else true
  end.

(** [os.path.splitext(path)[-1].lower() == '.fbx'] *)
Definition is_path_fbx (path : string) : bool :=
  match String.rev path with
  | String x (String b (String f (String d rest))) =>
      bool_decide (lower x = "x"%char) && bool_decide (lower b = "b"%char)
      && bool_decide (lower f = "f"%char) && bool_decide (d = "."%char)
      && stem_is_proper rest
  | _ => false
  end.

(** [hou.node(path) is not None], over the nodes the scene represents. *)
Definition hou_node (s : scene) (path : string) : bool :=
  let here := network_location (control s) +:+ "/" in
  bool_decide (is_Some (operators s !! path))
  || bool_decide (path ∈ materials s)
  || bool_decide (is_Some (bake_groups s !! path))
  || (bool_decide (is_Some (retopo_source s))
      && bool_decide (path = here +:+ source_name RetopoSource))
  || (bool_decide (is_Some (reference_source s))
      && bool_decide (path = here +:+ source_name ReferenceSource))
  || (bool_decide (is_Some (retopo_output s))
      && bool_decide (path = here +:+ output_name Retopo))
  || (bool_decide (is_Some (reference_output s))
      && bool_decide (path = here +:+ output_name Reference))
  || (bool_decide (is_Some (cage_output s))
      && bool_decide (path = here +:+ output_name Cage)).

Definition path_exists (s : scene) (path : string) : bool :=
  if Py.startswith "op:/" path then hou_node s (Py.drop 3 path)
  else bool_decide (is_Some (disk s !! path)).

(** What a file node reading [path] holds once cooked, if it cooks. *)
Definition import_geometry (s : scene) (path : string) : option geometry :=
  if Py.startswith "op:/" path then operators s !! Py.drop 3 path
  else disk s !! path.

(** ** Aggregators: the [numobj] multiparm of an output's object merge *)

(** A parameter of a multiparm instance: the template it instantiates (its
    name is the template name followed by the instance number), its value as
    a string, and the number of its instance.  The instances of an object
    merge are numbered from 1: [objpath1], [objpath2], ... *)
Record instance_parm := InstanceParm {
  ip_template : string;
  ip_value : string;
  ip_instance : nat
}.

Definition bool_string (b : bool) : string := if b then "1" else "0".

(** An object merge has four parameters per instance. *)
Fixpoint instances_from (number : nat) (multi_parm : list merge_entry) : list instance_parm :=
  match multi_parm with
  | [] => []
  | e :: rest =>
      InstanceParm "enable" (bool_string (me_enable e)) number
      :: InstanceParm "objpath" (me_objpath e) number
      :: InstanceParm "group" (me_group e) number
      :: InstanceParm "expand" (bool_string (me_expand e)) number
      :: instances_from (S number) rest
  end.

Definition multiParmInstances (multi_parm : list merge_entry) : list instance_parm :=
  instances_from 1 multi_parm.

(** [parm.multiParmInstanceIndices()[0]]: the index of the instance the
    parameter belongs to within its multiparm block, which is the number in
    the parameter's name.  It is not the position of the parameter in the
    flat list of instance parameters, which the division by 4 in
    [remove_from_multiparm] ("Hardcoded for object_merge SOP multiparms")
    would suit. *)
Definition multiParmInstanceIndices (parm : instance_parm) : nat := ip_instance parm.

(** [multi_parm.removeMultiParmInstance(index)], with [index] counted from
    0: the instance goes and the later ones move down. *)
Definition removeMultiParmInstance (index : nat) (multi_parm : list merge_entry)
    : list merge_entry :=
  take index multi_parm ++ drop (S index) multi_parm.

(** The test [parm_name in parm.name()] is made on the template name: the
    needle the callers pass holds no digit, so it lies in the name exactly
    when it lies in the template name.  The division is that of Python 2 on
    integers. *)
Definition remove_from_multiparm (multi_parm : list merge_entry) (parm_name value : string)
    : list merge_entry :=
  let instances := multiParmInstances multi_parm in
  let parms := filter (λ parm, Py.is_infix parm_name (ip_template parm) = true) instances in
  match List.find (λ parm, Py.is_infix value (ip_value parm)) parms with
  | Some parm => removeMultiParmInstance (multiParmInstanceIndices parm / 4) multi_parm
  | None => multi_parm
  end.

(** A fresh multiparm instance. *)
Definition default_entry : merge_entry := MergeEntry true "" "" false.

(** [parm('numobj').set(n)] *)
Definition set_numobj (n : nat) (multi_parm : list merge_entry) : list merge_entry :=
  take n multi_parm ++ replicate (n - length multi_parm) default_entry.

(** [parm('objpath%d' % k).set(path)] *)
Definition set_objpath (k : nat) (path : string) (multi_parm : list merge_entry)
    : list merge_entry :=
  alter (λ e, MergeEntry (me_enable e) path (me_group e) (me_expand e)) (k - 1)%nat multi_parm.

(** ** Record updates *)

Definition with_temp_file (v : string) (n : source_network) : source_network :=
  SourceNetwork (sn_file n) (sn_geo n) v (sn_temp_geo n) (sn_is_fbx n) (sn_is_fbx_temp n).
Definition with_temp_geo (v : geometry) (n : source_network) : source_network :=
  SourceNetwork (sn_file n) (sn_geo n) (sn_temp_file n) v (sn_is_fbx n) (sn_is_fbx_temp n).
Definition with_temp_switch (v : bool) (n : source_network) : source_network :=
  SourceNetwork (sn_file n) (sn_geo n) (sn_temp_file n) (sn_temp_geo n) (sn_is_fbx n) v.
Definition with_file (v : string) (n : source_network) : source_network :=
  SourceNetwork v (sn_geo n) (sn_temp_file n) (sn_temp_geo n) (sn_is_fbx n) (sn_is_fbx_temp n).
Definition with_geo (v : geometry) (n : source_network) : source_network :=
  SourceNetwork (sn_file n) v (sn_temp_file n) (sn_temp_geo n) (sn_is_fbx n) (sn_is_fbx_temp n).

Definition with_display (v : bool) (g : bake_group) : bake_group :=
  BakeGroup (bg_role g) v (bg_input g) (bg_edit g).
Definition with_input (v : option string) (g : bake_group) : bake_group :=
  BakeGroup (bg_role g) (bg_display g) v (bg_edit g).

Definition with_reference_callback (f : group_folder) : group_folder :=
  GroupFolder (gf_parms f) true (gf_cage_callback f) (gf_button_names f).
Definition with_cage_callback (f : group_folder) : group_folder :=
  GroupFolder (gf_parms f) (gf_reference_callback f) true (gf_button_names f).
Definition with_button_names (v : list string) (f : group_folder) : group_folder :=
  GroupFolder (gf_parms f) (gf_reference_callback f) (gf_cage_callback f) v.

(** ** Node operations *)

(** [hou.node(network_location).createNode('geo')] followed by [setName]:
    naming fails when the name is taken.  (The unnamed node a failed
    [setName] leaves behind is not represented.) *)
Definition create_object (path : string) (r : role) : M unit :=
  λ s, match bake_groups s !! path with
       | Some _ => Raise OperationFailed s
       | None => Ok tt (set_bake_groups (<[path := BakeGroup r true None []]> (bake_groups s)) s)
       end.

Definition disconnect (path : string) (g : bake_group) : bake_group :=
  if decide (bg_input g = Some path) then with_input None g else g.

(** [hou.node(path).destroy()]: the lookup may yield [None]; a destroyed
    node also leaves the inputs it was wired into. *)
Definition destroy (path : string) : M unit :=
  λ s, match bake_groups s !! path with
       | None => Raise AttributeError s
       | Some _ => Ok tt (set_bake_groups (disconnect path <$> delete path (bake_groups s)) s)
       end.

Definition set_display_flag (path : string) (v : bool) : M unit :=
  modify (λ s, set_bake_groups (alter (with_display v) path (bake_groups s)) s).

(** [node.setInput(0, source)] on bake-group objects. *)
Definition set_input (path source : string) : M unit :=
  modify (λ s, set_bake_groups (alter (with_input (Some source)) path (bake_groups s)) s).

Definition modify_control (f : control_parms → control_parms) : M unit :=
  modify (λ s, set_control (f (control s)) s).

Definition update_source (k : source_id) (f : source_network → source_network) : M unit :=
  λ s, match get_source k s with
       | Some n => Ok tt (set_source k (Some (f n)) s)
       | None => Raise AttributeError s
       end.

(** Pressing [reload] on a file node re-reads its file; a file that cannot
    be read leaves the node without geometry. *)
Definition press_reload_temp (k : source_id) : M unit :=
  λ s, match get_source k s with
       | Some n => Ok tt (set_source k
                     (Some (with_temp_geo (default [] (import_geometry s (sn_temp_file n))) n)) s)
       | None => Raise AttributeError s
       end.

Definition press_reload (k : source_id) : M unit :=
  λ s, match get_source k s with
       | Some n => Ok tt (set_source k
                     (Some (with_geo (default [] (import_geometry s (sn_file n))) n)) s)
       | None => Raise AttributeError s
       end.

(** [node.cook()] raises when the node ends in error. *)
Definition cook_temp (k : source_id) : M unit :=
  λ s, match get_source k s with
       | Some n => match import_geometry s (sn_temp_file n) with
                   | Some _ => Ok tt s
                   | None => Raise OperationFailed s
                   end
       | None => Raise AttributeError s
       end.

(** [geo.findPrimGroup(name)] *)
Definition findPrimGroup (geo : geometry) (name : string) : option string :=
  if decide (name ∈ geo) then Some name else None.

Definition default_group_parms : group_parms :=
  GroupParms 0 origin zero false false true.

(** ** Bake-group constructors *)

Definition create_retopo_group (prim_group : option string) : M string :=
  prim_group_name ← deref prim_group;
  s ← get;
  let path := group_path (network_location (control s)) prim_group_name Retopo in
  create_object path Retopo;;
  retopo_source_out ← deref (retopo_source s);
  let all_prim_group_names := get_prim_group_names (sn_geo retopo_source_out) true in
  modify_control (λ c, set_folders
    (<[prim_group_name := GroupFolder default_group_parms false false all_prim_group_names]>
       (folders c)) c);;
  s ← get;
  folder ← deref (folders (control s) !! prim_group_name);
  set_display_flag path (gp_retopo_display (gf_parms folder));;
  mret path.

Definition create_reference_group (prim_group : option string) : M string :=
  prim_group_name ← deref prim_group;
  s ← get;
  let path := group_path (network_location (control s)) prim_group_name Reference in
  create_object path Reference;;
  folder ← deref (folders (control s) !! prim_group_name);
  set_display_flag path (gp_reference_display (gf_parms folder));;
  modify_control (λ c, set_folders
    (<[prim_group_name := with_reference_callback folder]> (folders c)) c);;
  mret path.

Definition create_cage_group (prim_group : option string) : M string :=
  prim_group_name ← deref prim_group;
  s ← get;
  let path := group_path (network_location (control s)) prim_group_name Cage in
  create_object path Cage;;
  folder ← deref (folders (control s) !! prim_group_name);
  set_display_flag path (gp_cage_display (gf_parms folder));;
  modify_control (λ c, add_to_current_prim_groups c prim_group_name);;
  modify_control (λ c, set_folders
    (<[prim_group_name := with_cage_callback folder]> (folders c)) c);;
  mret path.

(** ** update_network *)

(** The body of the removal loop; [parm_template_group] is the local copy
    of the control node's templates the loop edits. *)
Definition remove_bundle (network_location : string)
    (parm_template_group : gmap string group_folder) (candidate : string)
    : M (gmap string group_folder) :=
  let drop_reference (r : role) : M unit :=
    s ← get;
    object_merge ← deref (get_output r s);
    modify (set_output r (Some
      (remove_from_multiparm object_merge "objpath" (group_path network_location candidate r)))) in
  drop_reference Retopo;;
  drop_reference Reference;;
  drop_reference Cage;;
  destroy (group_path network_location candidate Retopo);;
  destroy (group_path network_location candidate Reference);;
  destroy (group_path network_location candidate Cage);;
  modify_control (λ c, remove_from_current_prim_groups c candidate);;
  match parm_template_group !! candidate with
  | Some _ => mret (delete candidate parm_template_group)
  | None => raise OperationFailed
  end.

(** The body of the addition loop. *)
Definition add_bundle (network_location : string) (candidate : string) : M unit :=
  let add_reference (r : role) : M unit :=
    s ← get;
    object_merge ← deref (get_output r s);
    let numobj := (length object_merge + 1)%nat in
    modify (set_output r (Some
      (set_objpath numobj (group_path network_location candidate r)
         (set_numobj numobj object_merge)))) in
  s ← get;
  retopo_source_out ← deref (retopo_source s);
  retopo_group ← create_retopo_group (findPrimGroup (sn_geo retopo_source_out) candidate);
  reference_source_out ← deref (reference_source s);
  reference_group ← create_reference_group (findPrimGroup (sn_geo reference_source_out) candidate);
  cage_group ← create_cage_group (findPrimGroup (sn_geo retopo_source_out) candidate);
  set_input reference_group retopo_group;;
  set_input cage_group reference_group;;
  add_reference Retopo;;
  add_reference Reference;;
  add_reference Cage;;
  modify_control (λ c, add_to_current_prim_groups c candidate).

Definition update_display_buttons : M unit :=
  s ← get;
  retopo_source_out ← deref (retopo_source s);
  let prim_groups := sn_geo retopo_source_out in
  let prim_group_names := Py.sorted prim_groups in
  parm_template_group ← fold_m
    (λ ptg prim_group_name,
       folder ← deref (ptg !! prim_group_name);
       mret (<[prim_group_name := with_button_names prim_group_names folder]> ptg))
    prim_groups (folders (control s));
  modify_control (set_folders parm_template_group).

(** Reconciliation, the second half of [update_network]: the groups of the
    names only in the old set go, the groups of the names only in the new
    set come, the display buttons are refreshed.  [parm_template_group] is
    the copy of the control node's templates the removal loop edits and
    writes back when it is through. *)
Definition reconcile (network_location : string)
    (old_prim_group_names new_prim_group_names : list string) : M unit :=
  s ← get;
  let candidates_removal := Py.sorted_difference old_prim_group_names new_prim_group_names in
  parm_template_group ←
    fold_m (remove_bundle network_location) candidates_removal (folders (control s));
  modify_control (set_folders parm_template_group);;
  press_reload RetopoSource;;
  press_reload ReferenceSource;;
  let candidates_add := Py.sorted_difference new_prim_group_names old_prim_group_names in
  for_each candidates_add (add_bundle network_location);;
  update_display_buttons.

(** Framing the network editor at the end of both operations is left out:
    it reads and writes editor state only. *)
Definition update_network : M unit :=
  s ← get;
  let network_location := network_location (control s) in
  let retopo_source_path := retopo_source_path (control s) in
  let reference_source_path := reference_source_path (control s) in
  update_source RetopoSource (with_temp_file retopo_source_path);;
  update_source ReferenceSource (with_temp_file reference_source_path);;
  press_reload_temp RetopoSource;;
  press_reload_temp ReferenceSource;;
  cook_temp RetopoSource;;
  cook_temp ReferenceSource;;
  update_source RetopoSource (with_temp_switch (is_path_fbx retopo_source_path));;
  update_source ReferenceSource (with_temp_switch (is_path_fbx reference_source_path));;
  s ← get;
  retopo_temp ← deref (retopo_source s);
  reference_temp ← deref (reference_source s);
  let verdict := primitive_groups_match (sn_temp_geo retopo_temp) (sn_temp_geo reference_temp) in
  display_messages verdict.2;;
  if negb verdict.1 then mret tt
  else
    update_source RetopoSource (with_file retopo_source_path);;
    update_source ReferenceSource (with_file reference_source_path);;
    s ← get;
    let old_prim_group_names := Py.split " " (prim_groups (control s)) in
    let new_prim_group_names := get_prim_group_names (sn_temp_geo retopo_temp) true in
    reconcile network_location old_prim_group_names new_prim_group_names.

(** ** create_network *)

(** [create_material]: the material under [/mat], created when absent. *)
Definition create_material (name : string) : M string :=
  let path := "/mat/" +:+ name in
  modify (λ s, if decide (path ∈ materials s) then s
               else set_materials ({[path]} ∪ materials s) s);;
  mret path.

Definition source_path_of (k : source_id) (c : control_parms) : string :=
  match k with
  | RetopoSource => retopo_source_path c
  | ReferenceSource => reference_source_path c
  end.

(** [create_source_network]: both switches are set from the retopo path, as
    in the source. *)
Definition create_source_network (k : source_id) : M unit :=
  λ s, match get_source k s with
       | Some _ => Raise OperationFailed s
       | None =>
           let path := source_path_of k (control s) in
           let fbx := is_path_fbx (retopo_source_path (control s)) in
           Ok tt (set_source k
             (Some (SourceNetwork path (default [] (import_geometry s path))
                      "default.bgeo" [] fbx fbx)) s)
       end.

Definition create_output_group (group_type : role) : M unit :=
  s ← get;
  retopo_source_out ← deref (retopo_source s);
  let prim_group_names := get_prim_group_names (sn_geo retopo_source_out) true in
  match get_output group_type s with
  | Some _ => raise OperationFailed
  | None =>
      modify (set_output group_type (Some
        ((λ n, MergeEntry true (group_path (network_location (control s)) n group_type) "" false)
           <$> prim_group_names)))
  end.

Definition create_network : M unit :=
  cage ← create_material "cage";
  reference ← create_material "reference";
  modify_control (set_materials_parms cage reference);;
  s ← get;
  if negb (path_exists s (retopo_source_path (control s)))
  then display_messages ["ERROR: Retopo file doesn't exist."];; raise SystemExit
  else if negb (path_exists s (reference_source_path (control s)))
  then display_messages ["ERROR: Reference file doesn't exist."];; raise SystemExit
  else
    create_source_network RetopoSource;;
    create_source_network ReferenceSource;;
    s ← get;
    retopo ← deref (retopo_source s);
    reference ← deref (reference_source s);
    let verdict := primitive_groups_match (sn_geo retopo) (sn_geo reference) in
    display_messages verdict.2;;
    if negb verdict.1
    then modify (set_source RetopoSource None);;
         modify (set_source ReferenceSource None);;
         raise SystemExit
    else
      for_each (Py.sorted (sn_geo retopo))
        (λ prim_group_name,
           retopo_group ← create_retopo_group (Some prim_group_name);
           reference_group ←
             create_reference_group (findPrimGroup (sn_geo reference) prim_group_name);
           cage_group ← create_cage_group (Some prim_group_name);
           set_input reference_group retopo_group;;
           set_input cage_group reference_group);;
      create_output_group Retopo;;
      create_output_group Reference;;
      create_output_group Cage;;
      modify_control (set_network_exists true).


(** ** The live part of a scene

    Everything but the temporary file nodes of the source networks and the
    messages shown. *)

Definition live_source (n : source_network) : string * geometry * bool :=
  (sn_file n, sn_geo n, sn_is_fbx n).

Record live_scene := LiveScene {
  live_disk : gmap string geometry;
  live_operators : gmap string geometry;
  live_control : control_parms;
  live_materials : gset string;
  live_retopo_source : option (string * geometry * bool);
  live_reference_source : option (string * geometry * bool);
  live_bake_groups : gmap string bake_group;
  live_retopo_output : option (list merge_entry);
  live_reference_output : option (list merge_entry);
  live_cage_output : option (list merge_entry)
}.

Definition live (s : scene) : live_scene :=
  {| live_disk := disk s;
     live_operators := operators s;
     live_control := control s;
     live_materials := materials s;
     live_retopo_source := live_source <$> retopo_source s;
     live_reference_source := live_source <$> reference_source s;
     live_bake_groups := bake_groups s;
     live_retopo_output := retopo_output s;
     live_reference_output := reference_output s;
     live_cage_output := cage_output s |}.


(** ** Example scenes *)

Module example.

Definition control_node : control_parms :=
  ControlParms "/obj" "/geo/retopo.bgeo" "/geo/reference.bgeo" "" "" "" ∅ false.

(** The two mesh files, given the prim groups each holds. *)
Definition files (retopo reference : geometry) : gmap string geometry :=
  <["/geo/retopo.bgeo" := retopo]> (<["/geo/reference.bgeo" := reference]> ∅).

(** A session with a control node and no network yet. *)
Definition fresh (retopo reference : geometry) : scene :=
  Scene (files retopo reference) ∅ control_node ∅ None None ∅ None None None [].

(** The same session with nothing on disk. *)
Definition no_files : scene :=
  Scene ∅ ∅ control_node ∅ None None ∅ None None None [].

(** New versions of the mesh files are written over the old ones. *)
Definition with_files (retopo reference : geometry) (s : scene) : scene :=
  {| disk := files retopo reference; operators := operators s; control := control s;
     materials := materials s; retopo_source := retopo_source s;
     reference_source := reference_source s; bake_groups := bake_groups s;
     retopo_output := retopo_output s; reference_output := reference_output s;
     cage_output := cage_output s; messages := messages s |}.

(** The network created for the partitions wheel and body. *)
Definition network : scene :=
  final (create_network (fresh ["wheel"; "body"] ["body"; "wheel"])).

(** The user edits the cage of body. *)
Definition edited : scene :=
  set_bake_groups
    (alter (λ g, BakeGroup (bg_role g) (bg_display g) (bg_input g) ["edit: move point 3"])
       "/obj/body_cage" (bake_groups network)) network.

(** The network after something outside the tool deleted a node. *)
Definition corrupted : scene :=
  set_bake_groups (delete "/obj/body_reference" (bake_groups network)) network.

(** The user feeds the retopo object of body from the cage of wheel. *)
Definition rewired : scene :=
  set_bake_groups
    (alter (with_input (Some "/obj/wheel_cage")) "/obj/body_retopo" (bake_groups network))
    network.

(** A network without groups and with an empty list of names, as an update
    leaves it that has removed every group and stops before it builds the
    first new one: the source networks and the aggregators stand. *)
Definition emptied : scene :=
  set_output Retopo (Some [])
    (set_output Reference (Some [])
       (set_output Cage (Some [])
          (set_bake_groups ∅
             (set_control (set_folders ∅ (set_prim_groups "" (control network))) network)))).

End example.


(** ** Specifications of steps *)

(** From a scene satisfying [P] the step ends in [Q] when it returns and in
    [E] when it raises. *)
Definition spec {A} (P : scene → Prop) (m : M A)
    (Q : A → scene → Prop) (E : exn → scene → Prop) : Prop :=
  ∀ s, P s → match m s with
             | Ok a s' => Q a s'
             | Raise e s' => E e s'
             end.

(** The step keeps [I], however it ends. *)
Definition preserves {A} (I : scene → Prop) (m : M A) : Prop :=
  spec I m (λ _, I) (λ _, I).

(** Two folders that differ at most in the names written into their button
    callbacks. *)
Definition same_folder (f g : option group_folder) : Prop :=
  with_button_names [] <$> f = with_button_names [] <$> g.

(** The groups of the partition [k] take their inputs from groups of [k]. *)
Definition wired_within (s : scene) (k : string) : Prop :=
  ∀ r g p, bake_groups s !! group_path (network_location (control s)) k r = Some g →
    bg_input g = Some p → ∃ r', p = group_path (network_location (control s)) k r'.

(** What belongs to the partition [k] is in [s] as it was in [s0]: its three
    bake groups, with their wiring and edit region, and its folder of
    parameters. *)
Definition untouched (s0 : scene) (k : string) (s : scene) : Prop :=
  network_location (control s) = network_location (control s0)
  ∧ (∀ r, bake_groups s !! group_path (network_location (control s0)) k r
          = bake_groups s0 !! group_path (network_location (control s0)) k r)
  ∧ same_folder (folders (control s) !! k) (folders (control s0) !! k).

(** The scene holds a network for exactly the partitions [names]: the
    control node lists them, each has its three bake groups and its folder,
    no other bake group exists, and the sources and outputs are there. *)
Definition consistent (s : scene) (names : list string) : Prop :=
  Forall valid_name names
  ∧ NoDup names
  ∧ prim_groups (control s) = Py.join " " (Py.sorted names)
  ∧ (∀ n r, is_Some (bake_groups s !! group_path (network_location (control s)) n r)
            ↔ n ∈ names)
  ∧ (∀ n, n ∈ names → is_Some (folders (control s) !! n))
  ∧ is_Some (retopo_source s)
  ∧ is_Some (reference_source s)
  ∧ ∀ r, is_Some (get_output r s).


(** The scene [update_network] hands to reconciliation once validation has
    passed: the temporary file nodes hold the new meshes and the live file
    nodes have been pointed at the source paths. *)
Definition validated (s : scene) (n1 n2 : source_network) (geo1 geo2 : geometry) : scene :=
  let p1 := retopo_source_path (control s) in
  let p2 := reference_source_path (control s) in
  set_source ReferenceSource
    (Some (with_file p2 (with_temp_switch (is_path_fbx p2)
             (with_temp_geo geo2 (with_temp_file p2 n2)))))
    (set_source RetopoSource
       (Some (with_file p1 (with_temp_switch (is_path_fbx p1)
                (with_temp_geo geo1 (with_temp_file p1 n1)))))
       s).


(** No bake group has appeared and no message has been shown since [s0]. *)
Definition nothing_new (s0 s : scene) : Prop :=
  (∀ p, is_Some (bake_groups s !! p) → is_Some (bake_groups s0 !! p))
  ∧ messages s = messages s0.


(** The bake groups once the node at [path] is destroyed. *)
Definition destroyed (path : string) (m : gmap string bake_group) : gmap string bake_group :=
  disconnect path <$> delete path m.

(** The control node lists exactly the names [cur]. *)
Definition tracks (s : scene) (cur : list string) : Prop :=
  Forall valid_name cur ∧ NoDup cur
  ∧ prim_groups (control s) = Py.join " " (Py.sorted cur).

(** ** Further operations *)

(** The body of the loop of [create_network] that builds the bake groups of
    one partition and wires them. *)
Definition create_bundle (reference_geo : geometry) (prim_group_name : string) : M unit :=
  retopo_group ← create_retopo_group (Some prim_group_name);
  reference_group ← create_reference_group (findPrimGroup reference_geo prim_group_name);
  cage_group ← create_cage_group (Some prim_group_name);
  set_input reference_group retopo_group;;
  set_input cage_group reference_group.

(** The aggregator entries [create_output_group] makes for a role. *)
Definition output_entries (network_location : string) (names : list string) (r : role)
    : list merge_entry :=
  (λ n, MergeEntry true (group_path network_location n r) "" false) <$> names.

(** The bake groups and the folder of the partition [n] are as the tool
    builds them: the retopo object with nothing on its input, the reference
    object wired to it and the cage wired to the reference, the cage the
    only one displayed, the parameters at their defaults, both toggles with
    their callback and the buttons addressing [button_names]. *)
Definition built (s : scene) (n : string) (button_names : list string) : Prop :=
  let loc := network_location (control s) in
  bake_groups s !! group_path loc n Retopo = Some (BakeGroup Retopo false None [])
  ∧ bake_groups s !! group_path loc n Reference
    = Some (BakeGroup Reference false (Some (group_path loc n Retopo)) [])
  ∧ bake_groups s !! group_path loc n Cage
    = Some (BakeGroup Cage true (Some (group_path loc n Reference)) [])
  ∧ folders (control s) !! n
    = Some (GroupFolder default_group_parms true true button_names).

(** What a step on bake groups leaves alone: all of the scene but the bake
    groups, the prim-group list and the folders. *)
Definition same_surroundings (s s' : scene) : Prop :=
  disk s' = disk s ∧ operators s' = operators s ∧ materials s' = materials s
  ∧ retopo_source s' = retopo_source s ∧ reference_source s' = reference_source s
  ∧ (∀ r, get_output r s' = get_output r s)
  ∧ messages s' = messages s
  ∧ network_location (control s') = network_location (control s)
  ∧ retopo_source_path (control s') = retopo_source_path (control s)
  ∧ reference_source_path (control s') = reference_source_path (control s)
  ∧ cage_material (control s') = cage_material (control s)
  ∧ reference_material (control s') = reference_material (control s)
  ∧ network_exists (control s') = network_exists (control s).

(** The scene [create_network] has made when both source files load: the
    two materials exist and are recorded on the control node, and each
    source network reads its file and holds its mesh. *)
Definition loaded (s : scene) (geo1 geo2 : geometry) : scene :=
  let fbx := is_path_fbx (retopo_source_path (control s)) in
  set_source ReferenceSource
    (Some (SourceNetwork (reference_source_path (control s)) geo2 "default.bgeo" [] fbx fbx))
    (set_source RetopoSource
       (Some (SourceNetwork (retopo_source_path (control s)) geo1 "default.bgeo" [] fbx fbx))
       (set_control (set_materials_parms "/mat/cage" "/mat/reference" (control s))
          (set_materials ({["/mat/reference"]} ∪ ({["/mat/cage"]} ∪ materials s)) s))).

(** ** Display of the bake groups *)

(** The display toggle of a role among the parameters of a partition. *)
Definition display_toggle (r : role) (p : group_parms) : bool :=
  match r with
  | Retopo => gp_retopo_display p
  | Reference => gp_reference_display p
  | Cage => gp_cage_display p
  end.

Definition with_display_toggle (r : role) (v : bool) (p : group_parms) : group_parms :=
  match r with
  | Retopo => GroupParms (gp_iterations p) (gp_translate p) (gp_peak_dist p)
                v (gp_reference_display p) (gp_cage_display p)
  | Reference => GroupParms (gp_iterations p) (gp_translate p) (gp_peak_dist p)
                   (gp_retopo_display p) v (gp_cage_display p)
  | Cage => GroupParms (gp_iterations p) (gp_translate p) (gp_peak_dist p)
              (gp_retopo_display p) (gp_reference_display p) v
  end.

Definition with_parms (p : group_parms) (f : group_folder) : group_folder :=
  GroupFolder p (gf_reference_callback f) (gf_cage_callback f) (gf_button_names f).

(** [obj.setDisplayFlag(v)] on [obj = hou.node(path)], which may be
    [None]. *)
Definition display_node (path : string) (v : bool) : M unit :=
  s ← get;
  _ ← deref (bake_groups s !! path);
  set_display_flag path v.

(** [control_node.parm('<name>_<role>_display').set(v)]: the parameter is
    there when the folder of the partition is. *)
Definition set_display_toggle (prim_group_name : string) (r : role) (v : bool) : M unit :=
  s ← get;
  folder ← deref (folders (control s) !! prim_group_name);
  modify_control (λ c, set_folders
    (<[prim_group_name := with_parms (with_display_toggle r v (gf_parms folder)) folder]>
       (folders c)) c).

Definition set_group_display (prim_group_names : list string)
    (show_retopo show_reference show_cage : bool) : M unit :=
  s ← get;
  let network_location := network_location (control s) in
  for_each prim_group_names
    (λ prim_group_name,
       display_node (group_path network_location prim_group_name Retopo) show_retopo;;
       display_node (group_path network_location prim_group_name Reference) show_reference;;
       display_node (group_path network_location prim_group_name Cage) show_cage;;
       set_display_toggle prim_group_name Retopo show_retopo;;
       set_display_toggle prim_group_name Reference show_reference;;
       set_display_toggle prim_group_name Cage show_cage).

(** [toggle_obj_display(node, control_node, parm_name)], with [node] the
    object at a path and [parm_name] the toggle [<name>_<role>_display], as
    the callbacks of the toggles pass them. *)
Definition toggle_obj_display (node : string) (prim_group_name : string) (r : role) : M unit :=
  s ← get;
  obj ← deref (bake_groups s !! node);
  if bg_display obj
  then set_display_flag node false;; set_display_toggle prim_group_name r false
  else set_display_flag node true;; set_display_toggle prim_group_name r true.

(** The callback of the isolate button of a partition: everything the
    button addresses is hidden, then the reference and the cage of the
    partition are shown.  (Framing the viewport afterwards is left out.) *)
Definition isolate (prim_group_names : list string) (prim_group_name : string) : M unit :=
  set_group_display prim_group_names false false false;;
  set_group_display [prim_group_name] false true true.

(** What [set_group_display] is asked to show of a role. *)
Definition shown (show_retopo show_reference show_cage : bool) (r : role) : bool :=
  match r with
  | Retopo => show_retopo
  | Reference => show_reference
  | Cage => show_cage
  end.

(** The three objects and the folder of a partition are there. *)
Definition complete (s : scene) (n : string) : Prop :=
  (∀ r, is_Some (bake_groups s !! group_path (network_location (control s)) n r))
  ∧ is_Some (folders (control s) !! n).

(** The display toggles of a partition agree with the display flags of its
    objects. *)
Definition display_in_sync (s : scene) (n : string) : Prop :=
  ∀ r, bg_display <$> bake_groups s !! group_path (network_location (control s)) n r
       = display_toggle r <$> (gf_parms <$> folders (control s) !! n).

(** The folder with its three display toggles set. *)
Definition with_toggles (a b c : bool) (f : group_folder) : group_folder :=
  with_parms (GroupParms (gp_iterations (gf_parms f)) (gp_translate (gf_parms f))
                (gp_peak_dist (gf_parms f)) a b c) f.

(** ** Resetting a cage *)

(** [find_prim_group(prim_group_name, prim_groups)]: the first group of
    that name, or [None]. *)
Fixpoint find_prim_group (prim_group_name : string) (prim_groups : geometry) : option string :=
  match prim_groups with
  | [] => None
  | prim_group :: rest =>
      if decide (prim_group = prim_group_name) then Some prim_group
      else find_prim_group prim_group_name rest
  end.

Definition with_translate (v : vector3) (p : group_parms) : group_parms :=
  GroupParms (gp_iterations p) v (gp_peak_dist p)
    (gp_retopo_display p) (gp_reference_display p) (gp_cage_display p).

Definition with_peak_dist (v : QArith_base.Q) (p : group_parms) : group_parms :=
  GroupParms (gp_iterations p) (gp_translate p) v
    (gp_retopo_display p) (gp_reference_display p) (gp_cage_display p).

(** [parm.set] on a parameter in the folder of a partition; the parameter
    is there when the folder is. *)
Definition set_group_parm (prim_group_name : string) (f : group_parms → group_parms) : M unit :=
  s ← get;
  folder ← deref (folders (control s) !! prim_group_name);
  modify_control (λ c, set_folders
    (<[prim_group_name := with_parms (f (gf_parms folder)) folder]> (folders c)) c).

(** [reset_cage]: the cage object goes and is built anew, wired to the
    reference object as that was found at the start ([setInput] with [None]
    leaves the input free), and the cage parameters of the partition go
    back to zero.  (The position of the object in the network editor is not
    represented.) *)
Definition reset_cage (prim_group_name : string) : M unit :=
  s ← get;
  let network_location := network_location (control s) in
  let reference_path := group_path network_location prim_group_name Reference in
  let reference_obj := (λ _, reference_path) <$> bake_groups s !! reference_path in
  destroy (group_path network_location prim_group_name Cage);;
  retopo_source_out_sop ← deref (retopo_source s);
  let prim_group := find_prim_group prim_group_name (sn_geo retopo_source_out_sop) in
  cage_obj ← create_cage_group prim_group;
  modify (λ s, set_bake_groups (alter (with_input reference_obj) cage_obj (bake_groups s)) s);;
  set_group_parm prim_group_name (with_translate origin);;
  set_group_parm prim_group_name (with_peak_dist zero).

(** ** Re-creating the edit node of a cage *)

(** What [edit_cage] does to the wiring of a cage chain whose edit node is
    gone: a new edit node takes its input from [USER_END] and the xform
    node takes its input from the new edit node. *)
Definition edit_cage_connections (w : wiring cage_sops.node) : wiring cage_sops.node :=
  w ++ [ (cage_sops.edit, 0%nat, FromNode cage_sops.user_block_end);
         (cage_sops.xform, 0%nat, FromNode cage_sops.edit) ].

#[global] Instance feed_eq_dec {N} `{EqDecision N} : EqDecision (feed N).
Proof. solve_decision. Defined.

(** The wiring of a cage chain once its edit node has been removed. *)
Definition without_edit (w : wiring cage_sops.node) : wiring cage_sops.node :=
  filter (λ c, c.1.1 ≠ cage_sops.edit ∧ c.2 ≠ FromNode cage_sops.edit) w.

(** The aggregators are [o], role by role. *)
Definition outputs_are (o : role → option (list merge_entry)) (s : scene) : Prop :=
  ∀ r, get_output r s = o r.


(** The aggregator of role [r] once the removal loop has asked
    [remove_from_multiparm] for the reference of each of the groups [names],
    one after the other. *)
Definition drop_references (loc : string) (r : role) (names : list string)
    (o : list merge_entry) : list merge_entry :=
  foldl (λ o x, remove_from_multiparm o "objpath" (group_path loc x r)) o names.

(** The references the addition loop appends for the groups [names]. *)
Definition new_references (loc : string) (r : role) (names : list string)
    : list merge_entry :=
  (λ x, MergeEntry true (group_path loc x r) "" false) <$> names.

(** * Properties *)

(** ** Strings and lists *)

Section strings.

Implicit Types (s t : string) (l k : list string) (c a : ascii).

Lemma app_empty_l s : "" +:+ s = s.
Proof. reflexivity. Qed.

Lemma app_cons a s t : String a s +:+ t = String a (s +:+ t).
Proof. reflexivity. Qed.

Lemma app_empty_r s : s +:+ "" = s.
Proof. induction s as [|a s IH]; [done|]. by rewrite app_cons, IH. Qed.

Lemma app_assoc' s t u : (s +:+ t) +:+ u = s +:+ t +:+ u.
Proof. induction s as [|a s IH]; [done|]. by rewrite !app_cons, IH. Qed.

Lemma app_eq_empty s t : s +:+ t = "" → s = "" ∧ t = "".
Proof. destruct s; [done|]. by rewrite app_cons. Qed.

Lemma split_not_nil c s : Py.split c s ≠ [].
Proof.
  destruct s as [|a s]; simpl; [done|].
  case_decide; [done|]. by destruct (Py.split c s).
Qed.

Lemma split_free c s : Py.free_of c s = true → Py.split c s = [s].
Proof.
  induction s as [|a s IH]; simpl; [done|].
  intros [Ha Hs]%andb_prop. apply bool_decide_eq_true in Ha.
  rewrite decide_False by done. by rewrite IH.
Qed.

Lemma split_app c s t :
  Py.free_of c s = true → Py.split c (s +:+ String c t) = s :: Py.split c t.
Proof.
  induction s as [|a s IH]; simpl.
  - intros _. rewrite decide_True by done. reflexivity.
  - intros [Ha Hs]%andb_prop. apply bool_decide_eq_true in Ha.
    rewrite decide_False by done. by rewrite IH.
Qed.

Lemma split_free_of c s : Forall (λ x, Py.free_of c x = true) (Py.split c s).
Proof.
  induction s as [|a s IH]; simpl; [by repeat constructor|].
  case_decide; [by constructor|].
  destruct (Py.split c s) as [|h t]; [by repeat constructor; simpl; rewrite bool_decide_eq_true_2|].
  inversion_clear IH. constructor; [|done].
  simpl. by rewrite bool_decide_eq_true_2.
Qed.

Lemma join_cons sep x y l : Py.join sep (x :: y :: l) = x +:+ sep +:+ Py.join sep (y :: l).
Proof. reflexivity. Qed.

(** Splitting a joined list of separator-free fields gives the fields back. *)
Lemma split_join l :
  l ≠ [] → Forall (λ x, Py.free_of " " x = true) l → Py.split " " (Py.join " " l) = l.
Proof.
  induction l as [|x l IH]; [done|]. intros _ Hl.
  inversion_clear Hl as [|?? Hx Hl'].
  destruct l as [|y l].
  - simpl. by apply split_free.
  - rewrite join_cons. change (" " +:+ Py.join " " (y :: l))
      with (String " " (Py.join " " (y :: l))).
    rewrite split_app by done. f_equal. by apply IH.
Qed.

Lemma join_eq_empty l : Py.join " " l = "" → l = [] ∨ l = [""].
Proof.
  destruct l as [|x [|y l]]; [by left| |].
  - simpl. intros ->. by right.
  - rewrite join_cons. intros [_ H]%app_eq_empty. done.
Qed.

Lemma sorted_perm l k : l ≡ₚ k → Py.sorted l = Py.sorted k.
Proof.
  intros Hlk. unfold Py.sorted.
  apply (Sorted_unique String.le); try apply Sorted_merge_sort; try apply _.
  by rewrite !merge_sort_Permutation.
Qed.

Lemma sorted_elem_of x l : x ∈ Py.sorted l ↔ x ∈ l.
Proof. unfold Py.sorted. by rewrite merge_sort_Permutation. Qed.

Lemma sorted_idem l : Py.sorted (Py.sorted l) = Py.sorted l.
Proof. apply sorted_perm. unfold Py.sorted. apply merge_sort_Permutation. Qed.

Lemma sorted_nil_inv l : Py.sorted l = [] → l = [].
Proof.
  intros H. apply Permutation_nil_r. rewrite <- H.
  unfold Py.sorted. by rewrite merge_sort_Permutation.
Qed.

Lemma sorted_Forall (P : string → Prop) l : Forall P l → Forall P (Py.sorted l).
Proof. unfold Py.sorted. by rewrite merge_sort_Permutation. Qed.

Lemma sorted_NoDup l : NoDup l → NoDup (Py.sorted l).
Proof. unfold Py.sorted. by rewrite merge_sort_Permutation. Qed.

Lemma sorted_length l : length (Py.sorted l) = length l.
Proof. unfold Py.sorted. by rewrite merge_sort_Permutation. Qed.

(** Two duplicate-free lists sort to the same list exactly when they hold
    the same names. *)
Lemma sorted_eq_iff l k :
  NoDup l → NoDup k → Py.sorted l = Py.sorted k ↔ ∀ x, x ∈ l ↔ x ∈ k.
Proof.
  intros Hl Hk. split.
  - intros H x. by rewrite <- (sorted_elem_of x l), H, sorted_elem_of.
  - intros H. apply sorted_perm. by apply NoDup_Permutation.
Qed.

Lemma sorted_difference_elem_of x l k :
  x ∈ Py.sorted_difference l k ↔ x ∈ l ∧ x ∉ k.
Proof.
  unfold Py.sorted_difference.
  by rewrite sorted_elem_of, elem_of_remove_dups, list_elem_of_difference.
Qed.

Lemma sorted_difference_NoDup l k : NoDup (Py.sorted_difference l k).
Proof. apply sorted_NoDup, NoDup_remove_dups. Qed.

Lemma remove_elem_of x y l : NoDup l → x ∈ Py.remove y l ↔ x ∈ l ∧ x ≠ y.
Proof.
  induction 1 as [|z l Hz Hl IH]; simpl.
  - set_solver.
  - case_decide as Hyz.
    + subst z. set_solver.
    + rewrite !elem_of_cons, IH. naive_solver.
Qed.

Lemma remove_NoDup y l : NoDup l → NoDup (Py.remove y l).
Proof.
  induction 1 as [|z l Hz Hl IH]; simpl; [constructor|].
  case_decide; [done|]. constructor; [|done].
  rewrite remove_elem_of by done. naive_solver.
Qed.

Lemma remove_Forall (P : string → Prop) y l : Forall P l → Forall P (Py.remove y l).
Proof.
  induction 1 as [|z l Hz Hl IH]; simpl; [constructor|].
  case_decide; [done|]. by constructor.
Qed.

End strings.

(** ** The validator *)

Lemma primitive_groups_match_true geo1 geo2 :
  (primitive_groups_match geo1 geo2).1 = true ↔
  geo1 ≠ [] ∧ Py.sorted geo1 = Py.sorted geo2.
Proof.
  unfold primitive_groups_match.
  destruct (decide (length geo1 = length geo2)) as [Hlen|Hlen].
  - rewrite (proj2 (Nat.eqb_eq _ _) Hlen). simpl.
    destruct geo1 as [|x geo1], geo2 as [|y geo2]; simplify_eq/=.
    + naive_solver.
    + case_decide; naive_solver.
  - rewrite (proj2 (Nat.eqb_neq _ _) Hlen). simpl. split; [done|].
    intros [_ H]. destruct Hlen. by rewrite <- (sorted_length geo1), H, sorted_length.
Qed.

Lemma primitive_groups_match_report geo1 geo2 :
  primitive_groups_match geo1 geo2 =
    if (primitive_groups_match geo1 geo2).1 then (true, [])
    else if decide (geo1 = [] ∧ geo2 = []) then (false, [error_no_groups])
    else (false, [error_no_match]).
Proof.
  unfold primitive_groups_match.
  destruct geo1 as [|x geo1], geo2 as [|y geo2]; try done.
  simpl. destruct (length geo1 =? length geo2)%nat; simpl; [|done].
  by case_decide.
Qed.

(** C4, the claim as stated: a failure with exactly one empty set is of a
    kind of its own.  It is not: with one set empty the tool shows the very
    report it shows for two different non-empty sets. *)
Lemma primitive_groups_match_asymmetric_is_mismatch :
  primitive_groups_match ["a"] [] = (false, [error_no_match])
  ∧ primitive_groups_match ["a"] ["b"] = (false, [error_no_match]).
Proof. split; reflexivity. Qed.

(** C4, amended: on geometries (whose group names are distinct) validation
    succeeds exactly when the two name sets are equal and not empty, in any
    order, and then shows nothing; two empty sets are reported with the
    no-groups message; every other failure, one set empty included, is
    reported with the one no-match message, which differs from the
    no-groups one. *)
Theorem primitive_groups_match_spec (geo1 geo2 : geometry) :
  well_formed_geometry geo1 → well_formed_geometry geo2 →
  ((primitive_groups_match geo1 geo2).1 = true ↔ geo1 ≠ [] ∧ ∀ x, x ∈ geo1 ↔ x ∈ geo2)
  ∧ ((primitive_groups_match geo1 geo2).1 = true →
       primitive_groups_match geo1 geo2 = (true, []))
  ∧ (geo1 = [] ∧ geo2 = [] →
       primitive_groups_match geo1 geo2 = (false, [error_no_groups]))
  ∧ ((primitive_groups_match geo1 geo2).1 = false → ¬ (geo1 = [] ∧ geo2 = []) →
       primitive_groups_match geo1 geo2 = (false, [error_no_match]))
  ∧ error_no_match ≠ error_no_groups.
Proof.
  intros H1 H2. split_and!.
  - rewrite primitive_groups_match_true. by rewrite sorted_eq_iff.
  - intros H. rewrite primitive_groups_match_report. by rewrite H.
  - intros [-> ->]. reflexivity.
  - intros H Hne. rewrite primitive_groups_match_report, H. by rewrite decide_False.
  - done.
Qed.

Lemma primitive_groups_match_spec_witness :
  (primitive_groups_match ["wheel"; "body"] ["body"; "wheel"]).1 = true
  ∧ primitive_groups_match ["wheel"; "body"] ["body"; "wheel"] = (true, []).
Proof.
  assert (H1 : well_formed_geometry ["wheel"; "body"]).
  { unfold well_formed_geometry. compute_done. }
  assert (H2 : well_formed_geometry ["body"; "wheel"]).
  { unfold well_formed_geometry. compute_done. }
  pose proof (primitive_groups_match_spec _ _ H1 H2) as (_ & Hok & _).
  split; [reflexivity|]. apply Hok. reflexivity.
Defined.

(** ** The current prim-group list *)

Lemma set_prim_groups_id c : set_prim_groups (prim_groups c) c = c.
Proof. by destruct c. Qed.

Lemma set_prim_groups_twice v w c :
  set_prim_groups v (set_prim_groups w c) = set_prim_groups v c.
Proof. done. Qed.

Lemma current_names_set v c :
  current_names (set_prim_groups v c) = if decide (v = "") then [] else Py.split " " v.
Proof. unfold current_names, get_current_prim_groups. simpl. by case_decide. Qed.

Lemma current_names_free c : Forall (λ x, Py.free_of " " x = true) (current_names c).
Proof.
  unfold current_names, get_current_prim_groups.
  case_decide; simpl; [constructor|]. apply split_free_of.
Qed.

Lemma valid_name_free l :
  Forall valid_name l → Forall (λ x, Py.free_of " " x = true) l.
Proof. intros H. eapply Forall_impl; [done|]. by intros ? []. Qed.

Lemma join_valid_empty l : Forall valid_name l → Py.join " " l = "" → l = [].
Proof.
  intros Hl [->| ->]%join_eq_empty; [done|].
  inversion_clear Hl as [|?? [] ?]. done.
Qed.

(** What the tool reads back from a serialized list. *)
Lemma current_names_serialized c names :
  Forall valid_name names → prim_groups c = Py.join " " (Py.sorted names) →
  current_names c = Py.sorted names.
Proof.
  intros Hn Hpg. unfold current_names, get_current_prim_groups. rewrite Hpg.
  case_decide as He; simpl.
  - apply join_valid_empty in He; [by rewrite He|]. by apply sorted_Forall.
  - apply split_join.
    + intros E. by rewrite E in He.
    + by apply valid_name_free, sorted_Forall.
Qed.

Lemma add_to_current_prim_groups_unfold c n :
  add_to_current_prim_groups c n =
    set_prim_groups (Py.join " " (Py.sorted
      (if decide (n ∈ current_names c) then current_names c else current_names c ++ [n]))) c.
Proof. done. Qed.

Lemma add_to_current_prim_groups_twice c n :
  Py.free_of " " n = true →
  add_to_current_prim_groups (add_to_current_prim_groups c n) n = add_to_current_prim_groups c n.
Proof.
  intros Hfree. rewrite (add_to_current_prim_groups_unfold c n).
  set (l := if decide (n ∈ current_names c) then _ else _).
  assert (Hin : n ∈ l) by (unfold l; case_decide; set_solver).
  assert (Hl : Forall (λ x, Py.free_of " " x = true) l).
  { unfold l. case_decide; [apply current_names_free|].
    apply Forall_app; split; [apply current_names_free|by constructor]. }
  rewrite add_to_current_prim_groups_unfold, set_prim_groups_twice. f_equal. f_equal.
  rewrite current_names_set.
  destruct (decide (Py.join " " (Py.sorted l) = "")) as [He|He]; simpl.
  - apply join_eq_empty in He as [He|He].
    + apply sorted_nil_inv in He. rewrite He in Hin. by apply elem_of_nil in Hin.
    + assert (Hn : n ∈ Py.sorted l) by by apply sorted_elem_of.
      rewrite He in Hn. apply list_elem_of_singleton in Hn as ->.
      by rewrite He.
  - rewrite split_join.
    + rewrite decide_True by by apply sorted_elem_of. apply sorted_idem.
    + intros E. by rewrite E in He.
    + by apply sorted_Forall.
Qed.

Lemma add_to_current_prim_groups_present c n :
  serialized (prim_groups c) → n ∈ current_names c → add_to_current_prim_groups c n = c.
Proof.
  intros (names & Hv & Hpg) Hin.
  rewrite add_to_current_prim_groups_unfold, decide_True by done.
  rewrite (current_names_serialized c names) by done.
  rewrite sorted_idem, <- Hpg. apply set_prim_groups_id.
Qed.

Lemma remove_from_current_prim_groups_absent c n :
  n ∉ current_names c → remove_from_current_prim_groups c n = c.
Proof.
  unfold current_names, remove_from_current_prim_groups.
  destruct (get_current_prim_groups c) as [l|]; simpl; [|done].
  intros Hn. by rewrite decide_False.
Qed.

(** C10, the claim as stated: for every control state, adding a name the
    list already holds leaves the stored string unchanged, and adding twice
    is adding once.  [add_to_current_prim_groups] sorts and writes the list
    back whether or not the name was there: on the stored string [b a] it
    finds [a] present and writes [a b].  A name with a space in it is read
    back as two names, so adding [a b] twice writes [a a b b] where adding
    it once writes [a b]. *)
Lemma add_to_current_prim_groups_rewrites :
  let control_node := ControlParms "/obj" "" "" "" "" "b a" ∅ false in
  let c0 := ControlParms "/obj" "" "" "" "" "" ∅ false in
  "a" ∈ default [] (get_current_prim_groups control_node)
  ∧ prim_groups (add_to_current_prim_groups control_node "a") = "a b"
  ∧ prim_groups (add_to_current_prim_groups control_node "a") ≠ prim_groups control_node
  ∧ prim_groups (add_to_current_prim_groups c0 "a b") = "a b"
  ∧ prim_groups (add_to_current_prim_groups (add_to_current_prim_groups c0 "a b") "a b")
    = "a a b b".
Proof.
  intros control_node c0. split_and!.
  - compute_done.
  - vm_compute. reflexivity.
  - vm_compute. discriminate.
  - vm_compute. reflexivity.
  - vm_compute. reflexivity.
Qed.

(** C10, amended: the operations on the current prim-group list are
    idempotent on what the tool itself writes.  Adding a name that holds no
    space twice is adding it once, from any stored string; adding a name the
    list already holds leaves the control node as it is, for every stored
    string the tool itself has written (sorted names joined by spaces);
    removing a name the list does not hold, or removing from the empty list,
    leaves the control node as it is, for every stored string. *)
Theorem current_prim_groups_idempotent :
  (∀ control_node prim_group_name,
     Py.free_of " " prim_group_name = true →
     add_to_current_prim_groups (add_to_current_prim_groups control_node prim_group_name)
       prim_group_name
     = add_to_current_prim_groups control_node prim_group_name)
  ∧ (∀ control_node prim_group_name,
       serialized (prim_groups control_node) →
       prim_group_name ∈ default [] (get_current_prim_groups control_node) →
       add_to_current_prim_groups control_node prim_group_name = control_node)
  ∧ (∀ control_node prim_group_name,
       prim_group_name ∉ default [] (get_current_prim_groups control_node) →
       remove_from_current_prim_groups control_node prim_group_name = control_node).
Proof.
  split_and!.
  - apply add_to_current_prim_groups_twice.
  - apply add_to_current_prim_groups_present.
  - apply remove_from_current_prim_groups_absent.
Qed.

Lemma current_prim_groups_idempotent_witness :
  let control_node := ControlParms "/obj" "" "" "" "" "body wheel" ∅ false in
  add_to_current_prim_groups (add_to_current_prim_groups control_node "door") "door"
  = add_to_current_prim_groups control_node "door"
  ∧ add_to_current_prim_groups control_node "body" = control_node
  ∧ remove_from_current_prim_groups control_node "door" = control_node.
Proof.
  destruct current_prim_groups_idempotent as (H1 & H2 & H3).
  split_and!.
  - apply H1. reflexivity.
  - apply H2.
    + exists ["body"; "wheel"]. split; [|reflexivity].
      repeat constructor; (done || reflexivity).
    + compute_done.
  - apply H3. compute_done.
Defined.

(** ** The correspondence transform *)

Lemma run_snippet_position (pd td : mesh) (ptnum : nat) (p : vector3) :
  (foldl (run_stmt [td; pd] ptnum) (p, []) topo_match.snippet).1
  = (pointattrib_P pd ptnum).1.
Proof. reflexivity. Qed.

Lemma correspond_unfold (pd td : mesh) :
  correspond pd td = Some
    {| points := imap (λ ptnum _, (pointattrib_P pd ptnum).1) (points td);
       point_attribs := delete_matching "* ^P ^N" (point_attribs td);
       vertex_attribs := add_name "N" (delete_matching "* ^N ^uv" (vertex_attribs td));
       prim_attribs := delete_matching "*" (prim_attribs td);
       detail_attribs := delete_matching "*" (detail_attribs td);
       prims := prims td;
       groups := foldl (λ acc g, add_name g acc) (delete_matching "*" (groups td))
                   (filter (λ g, pattern_matches "*" g = true) (groups pd)) |}.
Proof. reflexivity. Qed.

Lemma correspond_points (pd td : mesh) :
  ∃ r, correspond pd td = Some r
    ∧ prims r = prims td
    ∧ ∀ i, points r !! i = (λ _, (pointattrib_P pd i).1) <$> points td !! i.
Proof.
  eexists. split; [apply correspond_unfold|]. split; [done|].
  intros i. simpl. by rewrite list_lookup_imap.
Qed.

Lemma correspond_positions (pd td : mesh) :
  ∃ r, correspond pd td = Some r
    ∧ prims r = prims td
    ∧ length (points r) = length (points td)
    ∧ ∀ i p, i < length (points td) → points pd !! i = Some p → points r !! i = Some p.
Proof.
  destruct (correspond_points pd td) as (r & Hr & Hprims & Hpts).
  exists r. split_and!; [done|done| |].
  - rewrite correspond_unfold in Hr. injection Hr as <-. apply length_imap.
  - intros i p Hi Hp. rewrite Hpts.
    apply lookup_lt_is_Some in Hi as [q ->]. simpl.
    unfold pointattrib_P. by rewrite Hp.
Qed.

(** C1, the claim as stated: the points past the end of the position donor
    keep the position they have in the topology donor.  With a one-point
    position donor and a two-point topology donor whose second point is at
    (1, 1, 1), the second point of the result is at the origin. *)
Lemma correspond_appended_point_moves :
  let p0 := Vector3 (QArith_base.Qmake 2 1) (QArith_base.Qmake 3 1) (QArith_base.Qmake 5 1) in
  let p1 := Vector3 (QArith_base.Qmake 1 1) (QArith_base.Qmake 1 1) (QArith_base.Qmake 1 1) in
  let positionDonor := Mesh [p0] [] [] [] [] [[0]] [] in
  let topologyDonor := Mesh [p0; p1] [] [] [] [] [[0; 1]] [] in
  ∃ r, correspond positionDonor topologyDonor = Some r
    ∧ points r !! 0 = Some p0
    ∧ points topologyDonor !! 1 = Some p1
    ∧ points r !! 1 = Some origin
    ∧ points r !! 1 ≠ points topologyDonor !! 1.
Proof. eexists. split; [reflexivity|]. by split_and!. Qed.

(** C1, amended: the result exists, has the point count and the primitives
    of the topology donor, its points 0..n-1 are at the positions of the
    position donor, and its points n..m-1, where the lookup into the
    position donor fails, are at the origin: the snippet assigns what
    [pointattrib] returns and never tests the success flag. *)
Theorem correspond_spec (positionDonor topologyDonor : mesh) :
  ∃ r, correspond positionDonor topologyDonor = Some r
    ∧ length (points r) = length (points topologyDonor)
    ∧ prims r = prims topologyDonor
    ∧ (∀ i p, i < length (points topologyDonor) →
         points positionDonor !! i = Some p → points r !! i = Some p)
    ∧ (∀ i, length (points positionDonor) ≤ i < length (points topologyDonor) →
         points r !! i = Some origin).
Proof.
  eexists. split; [apply correspond_unfold|]. simpl. split_and!.
  - apply length_imap.
  - done.
  - intros i p Hi Hp. rewrite list_lookup_imap.
    apply lookup_lt_is_Some in Hi as [q ->]. simpl.
    unfold pointattrib_P. by rewrite Hp.
  - intros i [Hn Hi]. rewrite list_lookup_imap.
    apply lookup_lt_is_Some in Hi as [q ->]. simpl.
    unfold pointattrib_P. by rewrite (lookup_ge_None_2 _ _ Hn).
Qed.

(** ** The topology-match stage of a cage group *)

(** C5, the claim as stated: the cage chain feeds the stage as topology
    donor and the re-imported retopo output as position donor.  The wiring
    is the other way round. *)
Lemma cage_chain_is_not_topology_donor :
  ¬ (cage_sops.topology_donor = Some (FromNode cage_sops.subdivide_switch)
     ∧ cage_sops.position_donor = Some (FromNode cage_sops.delete_material)).
Proof. intros [H _]. vm_compute in H. discriminate. Qed.

(** C5, amended: in the cage group's topology-match stage the re-imported
    output of the sibling retopo group's triangulate node, with its material
    attribute deleted, is the topology donor, and the cage chain after its
    subdivision switch is the position donor: the mesh leaving the stage has
    the primitives of the former and, point by point, the positions of the
    latter. *)
Theorem cage_topology_stage (network_location prim_group_name : string)
    (meshes : cage_sops.node → option mesh) (cage_mesh retopo_mesh : mesh) :
  meshes cage_sops.subdivide_switch = Some cage_mesh →
  meshes cage_sops.delete_material = Some retopo_mesh →
  cage_sops.topology_donor = Some (FromNode cage_sops.delete_material)
  ∧ input_of cage_sops.connections cage_sops.delete_material 0
      = Some (FromNode cage_sops.retopo_merge)
  ∧ cage_sops.retopo_merge_objpath network_location prim_group_name
      = group_path network_location prim_group_name Retopo
          +:+ "/" +:+ prim_group_name +:+ "_triangulate"
  ∧ cage_sops.position_donor = Some (FromNode cage_sops.subdivide_switch)
  ∧ ∃ r, cage_sops.topology_stage meshes = Some r
      ∧ prims r = prims retopo_mesh
      ∧ length (points r) = length (points retopo_mesh)
      ∧ ∀ i p, i < length (points retopo_mesh) →
          points cage_mesh !! i = Some p → points r !! i = Some p.
Proof.
  intros Hcage Hretopo. split_and!; try reflexivity.
  - unfold cage_sops.retopo_merge_objpath, group_path. simpl.
    by rewrite !app_assoc'.
  - unfold cage_sops.topology_stage, cage_sops.mesh_on. simpl.
    rewrite Hcage, Hretopo. simpl.
    destruct (correspond_positions cage_mesh retopo_mesh) as (r & Hr & Hprims & Hlen & Hpos).
    exists r. by split_and!.
Qed.

Lemma cage_topology_stage_witness :
  let p := Vector3 (QArith_base.Qmake 2 1) (QArith_base.Qmake 3 1) (QArith_base.Qmake 5 1) in
  let q := Vector3 (QArith_base.Qmake 1 1) (QArith_base.Qmake 1 1) (QArith_base.Qmake 1 1) in
  let cage_mesh := Mesh [p] [] [] [] [] [[0]] [] in
  let retopo_mesh := Mesh [q] [] [] [] [] [[0]] [] in
  let meshes := λ n, match n with
                     | cage_sops.subdivide_switch => Some cage_mesh
                     | cage_sops.delete_material => Some retopo_mesh
                     | _ => None
                     end in
  cage_sops.topology_donor = Some (FromNode cage_sops.delete_material)
  ∧ ∃ r, cage_sops.topology_stage meshes = Some r ∧ prims r = prims retopo_mesh.
Proof.
  intros p q cage_mesh retopo_mesh meshes.
  destruct (cage_topology_stage "/obj" "wheel" meshes cage_mesh retopo_mesh eq_refl eq_refl)
    as (H1 & _ & _ & _ & r & Hr & Hp & _).
  split; [exact H1|]. exists r. by split.
Defined.

(** ** Aggregator compaction *)

Lemma prefix_refl (s : string) : String.prefix s s = true.
Proof.
  induction s as [|a s IH]; simpl; [done|].
  by destruct (ascii_dec a a).
Qed.

Lemma is_infix_refl (s : string) : Py.is_infix s s = true.
Proof.
  destruct s as [|a s]; [done|].
  change (String.prefix (String a s) (String a s) || Py.is_infix (String a s) s = true).
  by rewrite prefix_refl.
Qed.

(** The search of [remove_from_multiparm] over the flat parameter list
    finds the [objpath] parameter of the first instance whose path holds the
    value; for the instance at place [k] of the list it carries the
    instance number [k] past the number of the first one. *)
Lemma find_objpath (value : string) (multi_parm : list merge_entry) (number : nat) :
  List.find (λ parm, Py.is_infix value (ip_value parm))
    (filter (λ parm, Py.is_infix "objpath" (ip_template parm) = true)
       (instances_from number multi_parm))
  = (λ ke, InstanceParm "objpath" (me_objpath ke.2) (number + ke.1))
      <$> list_find (λ e, Py.is_infix value (me_objpath e) = true) multi_parm.
Proof.
  revert number. induction multi_parm as [|e mp IH]; intros number; [done|].
  cbn [instances_from].
  rewrite filter_cons_False by done.
  rewrite filter_cons_True by done.
  rewrite filter_cons_False by done.
  rewrite filter_cons_False by done.
  cbn [List.find ip_value list_find].
  destruct (Py.is_infix value (me_objpath e)) eqn:He.
  - rewrite decide_True by done. simpl. do 2 f_equal. lia.
  - rewrite decide_False by done. rewrite IH.
    destruct (list_find _ mp) as [[k e']|]; simpl; [|done].
    do 2 f_equal. lia.
Qed.

(** [remove_from_multiparm] removes one instance at most: with the first
    reference that holds the value at place [k] of the list, counted from 0,
    the instance at place [(k + 1) / 4] goes. *)
Lemma remove_from_multiparm_unfold (multi_parm : list merge_entry) (value : string) :
  remove_from_multiparm multi_parm "objpath" value =
    match list_find (λ e, Py.is_infix value (me_objpath e) = true) multi_parm with
    | Some (k, _) => take ((k + 1) / 4) multi_parm ++ drop (S ((k + 1) / 4)) multi_parm
    | None => multi_parm
    end.
Proof.
  unfold remove_from_multiparm, multiParmInstances. rewrite find_objpath.
  destruct (list_find _ multi_parm) as [[k e]|]; [|done].
  unfold removeMultiParmInstance, multiParmInstanceIndices.
  cbn -[Nat.div Nat.add]. by rewrite (Nat.add_comm 1 k).
Qed.


Lemma removed_index_lt (k : nat) : 0 < k → (k + 1) / 4 < k.
Proof. intros Hk. apply Nat.div_lt_upper_bound; lia. Qed.

(** A reference that is not there is passed over in silence. *)
Lemma remove_from_multiparm_absent (multi_parm : list merge_entry) (value : string) :
  Forall (λ e, Py.is_infix value (me_objpath e) = false) multi_parm →
  remove_from_multiparm multi_parm "objpath" value = multi_parm.
Proof.
  intros H. rewrite remove_from_multiparm_unfold.
  destruct (list_find _ multi_parm) as [[k e]|] eqn:Hf; [|done].
  apply list_find_Some in Hf as (Hk & He & _).
  rewrite Forall_forall in H. apply list_elem_of_lookup_2 in Hk.
  rewrite (H _ Hk) in He. done.
Qed.



(** ** update_network: validation comes first *)

Lemma import_geometry_set_source k v s path :
  import_geometry (set_source k v s) path = import_geometry s path.
Proof. done. Qed.

Lemma update_network_rejected (s : scene) (geo1 geo2 : geometry) :
  is_Some (retopo_source s) → is_Some (reference_source s) →
  import_geometry s (retopo_source_path (control s)) = Some geo1 →
  import_geometry s (reference_source_path (control s)) = Some geo2 →
  (primitive_groups_match geo1 geo2).1 = false →
  ∃ s', update_network s = Ok tt s'
    ∧ live s' = live s
    ∧ messages s' = messages s ++ (primitive_groups_match geo1 geo2).2.
Proof.
  intros [n1 H1] [n2 H2] Hg1 Hg2 Hfail.
  unfold update_network, mbind, M_bind, get, update_source, press_reload_temp, cook_temp,
    display_messages, modify, deref.
  repeat (progress (cbn -[import_geometry primitive_groups_match];
                    rewrite ?import_geometry_set_source, ?Hg1, ?Hg2, ?H1, ?H2, ?Hfail)).
  eexists. split; [reflexivity|]. split; [|reflexivity].
  unfold live. cbn. by rewrite H1, H2.
Qed.

(** C7: an update whose validation fails leaves the live meshes and the
    network as they were.  The partition sets are compared on the temporary
    file nodes, reloaded from the source paths; when the comparison fails
    [update_network] returns having shown the validator's message, and the
    scene differs from the one before only in those temporary nodes. *)
Theorem update_network_rejected_keeps_live (s : scene) (geo1 geo2 : geometry) :
  is_Some (retopo_source s) → is_Some (reference_source s) →
  import_geometry s (retopo_source_path (control s)) = Some geo1 →
  import_geometry s (reference_source_path (control s)) = Some geo2 →
  (primitive_groups_match geo1 geo2).1 = false →
  ∃ s', update_network s = Ok tt s'
    ∧ live s' = live s
    ∧ messages s' = messages s ++ (primitive_groups_match geo1 geo2).2.
Proof. apply update_network_rejected. Qed.

Lemma update_network_rejected_keeps_live_witness :
  let s := example.with_files ["door"; "body"] ["body"; "wheel"] example.network in
  ∃ s', update_network s = Ok tt s'
    ∧ live s' = live s
    ∧ messages s' = [error_no_match].
Proof.
  intros s.
  assert (H1 : is_Some (retopo_source s)) by (vm_compute; eauto).
  assert (H2 : is_Some (reference_source s)) by (vm_compute; eauto).
  destruct (update_network_rejected_keeps_live s ["door"; "body"] ["body"; "wheel"]
              H1 H2 eq_refl eq_refl eq_refl) as (s' & Hs' & Hlive & Hmsg).
  exists s'. split; [exact Hs'|]. split; [exact Hlive|]. exact Hmsg.
Defined.

(** ** create_network: the sources are checked after the materials *)

Lemma path_exists_materials (s : scene) (path : string) (mats : gset string) (c : control_parms) :
  network_location c = network_location (control s) →
  (Py.startswith "op:/" path = true → Py.drop 3 path ∉ mats) →
  path_exists s path = false →
  path_exists (set_control c (set_materials (mats ∪ materials s) s)) path = false.
Proof.
  intros Hloc Hmat. unfold path_exists.
  destruct (Py.startswith "op:/" path); [|done].
  unfold hou_node. cbn. rewrite Hloc.
  rewrite !orb_false_iff. intros [[[[[[[? Hm] ?] ?] ?] ?] ?] ?].
  split_and!; try done.
  apply bool_decide_eq_false in Hm. apply bool_decide_eq_false.
  specialize (Hmat eq_refl). set_solver.
Qed.

(** C8, the claim as stated: a missing source aborts the creation before
    anything is changed.  Starting from a session with no file on disk the
    creation exits, and the scene it leaves has two materials and two
    control parameters the scene before did not have. *)
Lemma create_network_missing_source_mutates :
  ∃ s', create_network example.no_files = Raise SystemExit s'
    ∧ path_exists example.no_files (retopo_source_path (control example.no_files)) = false
    ∧ materials example.no_files = ∅
    ∧ materials s' = {["/mat/cage"; "/mat/reference"]}
    ∧ cage_material (control example.no_files) = ""
    ∧ cage_material (control s') = "/mat/cage"
    ∧ s' ≠ example.no_files.
Proof.
  eexists. split; [vm_compute; reflexivity|].
  split_and!; [reflexivity|reflexivity|compute_done|reflexivity|reflexivity|].
  intros H. by apply (f_equal (λ s, cage_material (control s))) in H.
Qed.

Lemma set_materials_id (s : scene) : set_materials (materials s) s = s.
Proof. by destruct s. Qed.

Lemma create_material_eq (name : string) (s : scene) :
  create_material name s
  = Ok ("/mat/" +:+ name) (set_materials ({["/mat/" +:+ name]} ∪ materials s) s).
Proof.
  unfold create_material, mbind, M_bind, modify, mret, M_ret.
  case_decide as Hin; [|done].
  replace ({["/mat/" +:+ name]} ∪ materials s) with (materials s) by set_solver.
  by rewrite set_materials_id.
Qed.

Lemma op_path_inv (path rest : string) :
  Py.startswith "op:/" path = true → Py.drop 3 path = rest → path = "op:" +:+ rest.
Proof.
  unfold Py.startswith.
  destruct path as [|a [|b [|c [|d path]]]]; cbn -[ascii_dec]; try done;
    repeat (destruct (ascii_dec _ _) as [<-|]; [|done]); try done.
  by intros _ <-.
Qed.

(** C8, amended: when the retopo or the reference source path does not
    resolve, [create_network] exits before it creates any source network,
    bake group or output: what it has done by then is to create the cage and
    reference materials, where absent, to record their paths on the control
    node, and to show the error. *)
Theorem create_network_source_missing (s : scene) :
  let retopo := retopo_source_path (control s) in
  let reference := reference_source_path (control s) in
  path_exists s retopo = false ∨ path_exists s reference = false →
  Forall (λ path, path ≠ "op:/mat/cage" ∧ path ≠ "op:/mat/reference") [retopo; reference] →
  ∃ s', create_network s = Raise SystemExit s'
    ∧ retopo_source s' = retopo_source s
    ∧ reference_source s' = reference_source s
    ∧ bake_groups s' = bake_groups s
    ∧ (∀ r, get_output r s' = get_output r s)
    ∧ disk s' = disk s ∧ operators s' = operators s
    ∧ control s' = set_materials_parms "/mat/cage" "/mat/reference" (control s)
    ∧ materials s' = {["/mat/cage"; "/mat/reference"]} ∪ materials s
    ∧ ∃ msg, messages s' = messages s ++ [msg].
Proof.
  intros retopo reference Hmissing Hpaths.
  apply Forall_cons in Hpaths as [[Hr1 Hr2] Hpaths].
  apply Forall_cons in Hpaths as [[Hf1 Hf2] _].
  assert (Hkeep : ∀ path, path ≠ "op:/mat/cage" → path ≠ "op:/mat/reference" →
            path_exists s path = false →
            path_exists
              (set_control (set_materials_parms "/mat/cage" "/mat/reference" (control s))
                 (set_materials ({["/mat/reference"]} ∪ ({["/mat/cage"]} ∪ materials s)) s))
              path = false).
  { intros path H1 H2 Hp.
    rewrite (assoc_L (∪)). apply path_exists_materials; [done| |done].
    intros Hop Hin. apply elem_of_union in Hin as [Hin|Hin].
    - apply elem_of_singleton in Hin. by apply (op_path_inv _ _ Hop) in Hin.
    - apply elem_of_singleton in Hin. by apply (op_path_inv _ _ Hop) in Hin. }
  unfold create_network, mbind, M_bind.
  rewrite create_material_eq, create_material_eq.
  cbn -[path_exists union singleton].
  change ("/mat/" +:+ "cage") with "/mat/cage".
  change ("/mat/" +:+ "reference") with "/mat/reference".
  change (set_materials ({["/mat/reference"]} ∪ ({["/mat/cage"]} ∪ materials s))
            (set_materials ({["/mat/cage"]} ∪ materials s) s))
    with (set_materials ({["/mat/reference"]} ∪ ({["/mat/cage"]} ∪ materials s)) s).
  fold retopo reference.
  set (s1 := set_control _ _) in *.
  destruct (path_exists s1 retopo) eqn:E1; cbn [negb].
  - destruct Hmissing as [Hm|Hm]; [by rewrite (Hkeep _ Hr1 Hr2 Hm) in E1|].
    rewrite (Hkeep _ Hf1 Hf2 Hm). cbn [negb].
    eexists. split; [done|]. subst s1.
    split_and!; first [done | by intros [] | by eexists | cbn; set_solver].
  - eexists. split; [done|]. subst s1.
    split_and!; first [done | by intros [] | by eexists | cbn; set_solver].
Qed.

Lemma create_network_source_missing_witness :
  ∃ s', create_network example.no_files = Raise SystemExit s'
    ∧ bake_groups s' = bake_groups example.no_files
    ∧ retopo_source s' = None.
Proof.
  assert (H1 : path_exists example.no_files (retopo_source_path (control example.no_files)) = false
               ∨ path_exists example.no_files
                   (reference_source_path (control example.no_files)) = false)
    by (left; reflexivity).
  assert (H2 : Forall (λ path, path ≠ "op:/mat/cage" ∧ path ≠ "op:/mat/reference")
                 [retopo_source_path (control example.no_files);
                  reference_source_path (control example.no_files)]).
  { repeat constructor; discriminate. }
  destruct (create_network_source_missing example.no_files H1 H2)
    as (s' & Hs' & Hr & _ & Hb & _).
  exists s'. split; [exact Hs'|]. split; [exact Hb|exact Hr].
Defined.

(** ** Node paths *)

Lemma list_ascii_of_app (s t : string) :
  String.list_ascii_of_string (s +:+ t) = String.list_ascii_of_string s ++ String.list_ascii_of_string t.
Proof. induction s as [|a s IH]; [done|]. rewrite app_cons. simpl. by rewrite IH. Qed.

Lemma list_ascii_of_string_inj (s t : string) :
  String.list_ascii_of_string s = String.list_ascii_of_string t → s = t.
Proof.
  intros H. rewrite <- (String.string_of_list_ascii_of_string s), H.
  apply String.string_of_list_ascii_of_string.
Qed.

Lemma suffixed_inj (n n' : string) (r r' : role) :
  n +:+ "_" +:+ role_name r = n' +:+ "_" +:+ role_name r' → n = n' ∧ r = r'.
Proof.
  intros H. apply (f_equal String.list_ascii_of_string) in H.
  rewrite !list_ascii_of_app in H.
  apply (f_equal reverse) in H. rewrite !reverse_app in H.
  destruct r, r'; cbn in H; simplify_eq; split; try done;
    by apply list_ascii_of_string_inj.
Qed.

(** Two bake-group paths in one network are the same only for the same
    partition and role. *)
Lemma group_path_inj (loc n n' : string) (r r' : role) :
  group_path loc n r = group_path loc n' r' → n = n' ∧ r = r'.
Proof.
  unfold group_path. intros H.
  apply (inj (String.app loc)), (inj (String.app "/")) in H.
  by apply suffixed_inj.
Qed.

Lemma group_path_ne (loc n n' : string) (r r' : role) :
  n ≠ n' → group_path loc n r ≠ group_path loc n' r'.
Proof. intros Hn H. by apply group_path_inj in H as [? _]. Qed.

Lemma group_path_role_ne (loc n n' : string) (r r' : role) :
  r ≠ r' → group_path loc n r ≠ group_path loc n' r'.
Proof. intros Hn H. by apply group_path_inj in H as [_ ?]. Qed.

(** ** Rules for specifications *)

Section rules.

Context {A B : Type}.
Implicit Types (P I : scene → Prop) (E : exn → scene → Prop).

Lemma spec_ret P (a : A) (Q : A → scene → Prop) E :
  (∀ s, P s → Q a s) → spec P (mret a) Q E.
Proof. intros H s Hs. by apply H. Qed.

Lemma spec_raise P (e : exn) (Q : A → scene → Prop) E :
  (∀ s, P s → E e s) → spec P (raise e) Q E.
Proof. intros H s Hs. by apply H. Qed.

Lemma spec_bind P (m : M A) (f : A → M B) (R : A → scene → Prop)
    (Q : B → scene → Prop) E :
  spec P m R E → (∀ a, spec (R a) (f a) Q E) → spec P (m ≫= f) Q E.
Proof.
  intros Hm Hf s Hs. unfold mbind, M_bind. specialize (Hm s Hs).
  destruct (m s) as [a s'|e s']; [|done]. by apply Hf.
Qed.

Lemma spec_weaken P P' (m : M A) (Q Q' : A → scene → Prop) E E' :
  spec P m Q E → (∀ s, P' s → P s) → (∀ a s, Q a s → Q' a s) →
  (∀ e s, E e s → E' e s) → spec P' m Q' E'.
Proof.
  intros Hm HP HQ HE s Hs. specialize (Hm s (HP s Hs)).
  destruct (m s); auto.
Qed.

Lemma spec_get_bind P (f : scene → M B) (Q : B → scene → Prop) E :
  (∀ s1, P s1 → spec (λ s, s = s1) (f s1) Q E) → spec P (get ≫= f) Q E.
Proof. intros H s Hs. unfold mbind, M_bind, get. by apply (H s Hs s). Qed.

Lemma spec_deref_bind P (x : option A) (f : A → M B) (Q : B → scene → Prop) E :
  (∀ a, x = Some a → spec P (f a) Q E) →
  (x = None → ∀ s, P s → E AttributeError s) →
  spec P (deref x ≫= f) Q E.
Proof.
  intros Hsome Hnone s Hs. unfold mbind, M_bind.
  destruct x as [a|]; simpl; [by apply Hsome|by apply Hnone].
Qed.

Lemma spec_modify P (g : scene → scene) (Q : unit → scene → Prop) E :
  (∀ s, P s → Q tt (g s)) → spec P (modify g) Q E.
Proof. intros H s Hs. by apply H. Qed.

(** A loop: [J rest b] holds before the elements [rest] are processed with
    the local variable at [b]. *)
Lemma spec_fold_m (J : list A → B → scene → Prop) (body : B → A → M B) E
    (l : list A) (b : B) :
  (∀ x rest b, spec (J (x :: rest) b) (body b x) (λ b', J rest b') E) →
  spec (J l b) (fold_m body l b) (λ b', J [] b') E.
Proof.
  intros Hbody. revert b. induction l as [|x l IH]; intros b.
  - by intros s Hs.
  - intros s Hs. simpl. unfold mbind, M_bind. specialize (Hbody x l b s Hs).
    destruct (body b x s) as [b' s'|e s']; [|done]. by apply IH.
Qed.

End rules.

Lemma preserves_bind {A B} (I : scene → Prop) (m : M A) (f : A → M B) :
  preserves I m → (∀ a, preserves I (f a)) → preserves I (m ≫= f).
Proof. intros Hm Hf. eapply spec_bind; [apply Hm|]. intros a. apply Hf. Qed.

Lemma preserves_ret {A} (I : scene → Prop) (a : A) : preserves I (mret a).
Proof. by apply spec_ret. Qed.

Lemma preserves_raise {A} (I : scene → Prop) (e : exn) : preserves I (raise (A:=A) e).
Proof. by apply spec_raise. Qed.

Lemma preserves_get (I : scene → Prop) : preserves I get.
Proof. by intros s Hs. Qed.

Lemma preserves_deref {A} (I : scene → Prop) (x : option A) : preserves I (deref x).
Proof. destruct x; [apply preserves_ret|apply preserves_raise]. Qed.

Lemma preserves_modify (I : scene → Prop) (g : scene → scene) :
  (∀ s, I s → I (g s)) → preserves I (modify g).
Proof. intros H. by apply spec_modify. Qed.

Lemma preserves_fold_m {A B} (I : scene → Prop) (body : B → A → M B) (l : list A) (b : B) :
  (∀ b x, x ∈ l → preserves I (body b x)) → preserves I (fold_m body l b).
Proof.
  revert b. induction l as [|x l IH]; intros b Hbody.
  - apply preserves_ret.
  - simpl. apply preserves_bind; [apply Hbody; left|].
    intros b'. apply IH. intros b'' y Hy. apply Hbody. by right.
Qed.

Lemma preserves_for_each {A} (I : scene → Prop) (body : A → M unit) (l : list A) :
  (∀ x, x ∈ l → preserves I (body x)) → preserves I (for_each l body).
Proof. intros H. apply preserves_fold_m. intros _ x. apply H. Qed.

Lemma preserves_final {A} (I : scene → Prop) (m : M A) (s : scene) :
  preserves I m → I s → I (final (m s)).
Proof. intros Hm Hs. specialize (Hm s Hs). by destruct (m s). Qed.

Lemma preserves_get_bind {B} (I : scene → Prop) (f : scene → M B) :
  (∀ s1, I s1 → preserves I (f s1)) → preserves I (get ≫= f).
Proof. intros H s Hs. unfold mbind, M_bind, get. by apply (H s Hs s). Qed.

Lemma preserves_deref_bind {A B} (I : scene → Prop) (x : option A) (f : A → M B) :
  (∀ a, x = Some a → preserves I (f a)) → preserves I (deref x ≫= f).
Proof. intros H. apply spec_deref_bind; [done|]. by intros _ s Hs. Qed.

Lemma spec_pure {A} (P : scene → Prop) (φ : Prop) (m : M A) Q E :
  (φ → spec P m Q E) → spec (λ s, P s ∧ φ) m Q E.
Proof. intros H s [Hs Hφ]. by apply H. Qed.

Lemma findPrimGroup_Some (geo : geometry) (name a : string) :
  findPrimGroup geo name = Some a → a = name ∧ name ∈ geo.
Proof. unfold findPrimGroup. case_decide; naive_solver. Qed.

(** ** Reconciliation leaves the common partitions alone *)

Section frame.

Variables (s0 : scene) (k : string).
Hypothesis Hwired : wired_within s0 k.

Notation loc := (network_location (control s0)).
Notation I := (untouched s0 k).

Lemma same_folder_refl f : same_folder f f.
Proof. done. Qed.

Lemma untouched_refl : I s0.
Proof. by split_and!. Qed.

(** A step that changes neither the control node nor the bake groups. *)
Lemma untouched_elsewhere (s s' : scene) :
  control s' = control s → bake_groups s' = bake_groups s → I s → I s'.
Proof. unfold untouched. by intros -> ->. Qed.

Lemma frame_update_source j f : preserves I (update_source j f).
Proof.
  intros s Hs. unfold update_source. destruct (get_source j s); [|done].
  by eapply untouched_elsewhere.
Qed.

Lemma frame_press_reload j : preserves I (press_reload j).
Proof.
  intros s Hs. unfold press_reload. destruct (get_source j s); [|done].
  by eapply untouched_elsewhere.
Qed.

Lemma frame_press_reload_temp j : preserves I (press_reload_temp j).
Proof.
  intros s Hs. unfold press_reload_temp. destruct (get_source j s); [|done].
  by eapply untouched_elsewhere.
Qed.

Lemma frame_cook_temp j : preserves I (cook_temp j).
Proof.
  intros s Hs. unfold cook_temp. destruct (get_source j s); [|done].
  by destruct (import_geometry _ _).
Qed.

Lemma frame_display_messages msgs : preserves I (display_messages msgs).
Proof. apply preserves_modify. intros s. by apply untouched_elsewhere. Qed.

Lemma frame_set_output r v : preserves I (modify (set_output r v)).
Proof. apply preserves_modify. intros s. by apply untouched_elsewhere. Qed.

Lemma frame_set_source j v : preserves I (modify (set_source j v)).
Proof. apply preserves_modify. intros s. by apply untouched_elsewhere. Qed.

(** A change of the bake groups that leaves the three of [k] as they are. *)
Lemma untouched_bake_groups (s : scene) (m : gmap string bake_group) :
  (∀ r, m !! group_path loc k r = bake_groups s !! group_path loc k r) →
  I s → I (set_bake_groups m s).
Proof.
  intros Hm (H1 & H2 & H3). split_and!; [done| |done].
  intros r. cbn. by rewrite Hm.
Qed.

Lemma frame_create_object c r r' :
  c ≠ k → preserves I (create_object (group_path loc c r) r').
Proof.
  intros Hc s Hs. unfold create_object. destruct (bake_groups s !! _); [done|].
  apply untouched_bake_groups; [|done]. intros r''.
  apply lookup_insert_ne. by apply group_path_ne.
Qed.

Lemma frame_alter f c r :
  c ≠ k →
  preserves I (modify (λ s, set_bake_groups (alter f (group_path loc c r) (bake_groups s)) s)).
Proof.
  intros Hc. apply preserves_modify. intros s Hs.
  apply untouched_bake_groups; [|done]. intros r''.
  apply lookup_alter_ne. by apply group_path_ne.
Qed.

Lemma frame_destroy c r : c ≠ k → preserves I (destroy (group_path loc c r)).
Proof.
  intros Hc s Hs. unfold destroy. destruct (bake_groups s !! _); [|done].
  apply untouched_bake_groups; [|done]. intros r'.
  rewrite lookup_fmap, lookup_delete_ne by by apply group_path_ne.
  destruct Hs as (_ & Hk & _). rewrite Hk.
  destruct (bake_groups s0 !! group_path loc k r') as [g|] eqn:Hg; [|done].
  simpl. f_equal. unfold disconnect. case_decide as Hin; [|done].
  destruct (Hwired _ _ _ Hg Hin) as [r'' Hp].
  by apply group_path_ne in Hp.
Qed.

(** A change of the control node that keeps the location and the folder of
    [k]. *)
Lemma frame_modify_control (f : control_parms → control_parms) :
  (∀ c, network_location (f c) = network_location c
        ∧ same_folder (folders (f c) !! k) (folders c !! k)) →
  preserves I (modify_control f).
Proof.
  intros Hf. apply preserves_modify. intros s (H1 & H2 & H3).
  destruct (Hf (control s)) as [Hl Hfo].
  split_and!; cbn; [congruence|done|].
  unfold same_folder in *. congruence.
Qed.

Lemma frame_add_name n :
  preserves I (modify_control (λ c, add_to_current_prim_groups c n)).
Proof. by apply frame_modify_control. Qed.

Lemma frame_remove_name n :
  preserves I (modify_control (λ c, remove_from_current_prim_groups c n)).
Proof.
  apply frame_modify_control. intros c. unfold remove_from_current_prim_groups.
  destruct (get_current_prim_groups c); [|done]. by case_decide.
Qed.

Lemma frame_insert_folder c fo :
  c ≠ k →
  preserves I (modify_control (λ cn, set_folders (<[c := fo]> (folders cn)) cn)).
Proof.
  intros Hc. apply frame_modify_control. intros cn. split; [done|].
  cbn. by rewrite lookup_insert_ne.
Qed.

End frame.

Lemma spec_seq {A B} (I : scene → Prop) (m : M A) (f : A → M B) (Q : B → scene → Prop) :
  preserves I m → (∀ a, spec I (f a) Q (λ _, I)) → spec I (m ≫= f) Q (λ _, I).
Proof. intros Hm Hf. eapply spec_bind; [apply Hm|]. intros a. apply Hf. Qed.

Lemma spec_get_seq {B} (I : scene → Prop) (f : scene → M B) (Q : B → scene → Prop) E :
  (∀ s1, I s1 → spec I (f s1) Q E) → spec I (get ≫= f) Q E.
Proof. intros H s Hs. unfold mbind, M_bind, get. by apply (H s Hs s). Qed.

Lemma spec_deref_seq {A B} (I : scene → Prop) (x : option A) (f : A → M B)
    (Q : B → scene → Prop) :
  (∀ a, x = Some a → spec I (f a) Q (λ _, I)) → spec I (deref x ≫= f) Q (λ _, I).
Proof. intros H. apply spec_deref_bind; [done|]. by intros _ s Hs. Qed.

Section frame_steps.

Variables (s0 : scene) (k : string).
Hypothesis Hwired : wired_within s0 k.

Notation loc := (network_location (control s0)).
Notation I := (untouched s0 k).

Lemma frame_set_display_flag c r v :
  c ≠ k → preserves I (set_display_flag (group_path loc c r) v).
Proof. intros Hc. by apply frame_alter. Qed.

Lemma frame_set_input c r source :
  c ≠ k → preserves I (set_input (group_path loc c r) source).
Proof. intros Hc. by apply frame_alter. Qed.

Lemma frame_create_retopo_group pg c :
  (∀ a, pg = Some a → a = c) → c ≠ k →
  spec I (create_retopo_group pg) (λ p s, I s ∧ p = group_path loc c Retopo) (λ _, I).
Proof.
  intros Hpg Hc. unfold create_retopo_group.
  apply spec_deref_seq. intros a ->%Hpg.
  apply spec_get_seq. intros s1 Hs1. cbv zeta. rewrite (proj1 Hs1).
  apply spec_seq; [by apply frame_create_object|]. intros _.
  apply spec_deref_seq. intros n _.
  apply spec_seq; [by apply frame_insert_folder|]. intros _.
  apply spec_get_seq. intros s2 _.
  apply spec_deref_seq. intros fo _.
  apply spec_seq; [by apply frame_set_display_flag|]. intros _.
  by apply spec_ret.
Qed.

Lemma frame_create_reference_group pg c :
  (∀ a, pg = Some a → a = c) → c ≠ k →
  spec I (create_reference_group pg) (λ p s, I s ∧ p = group_path loc c Reference) (λ _, I).
Proof.
  intros Hpg Hc. unfold create_reference_group.
  apply spec_deref_seq. intros a ->%Hpg.
  apply spec_get_seq. intros s1 Hs1. cbv zeta. rewrite (proj1 Hs1).
  apply spec_seq; [by apply frame_create_object|]. intros _.
  apply spec_deref_seq. intros fo _.
  apply spec_seq; [by apply frame_set_display_flag|]. intros _.
  apply spec_seq; [by apply frame_insert_folder|]. intros _.
  by apply spec_ret.
Qed.

Lemma frame_create_cage_group pg c :
  (∀ a, pg = Some a → a = c) → c ≠ k →
  spec I (create_cage_group pg) (λ p s, I s ∧ p = group_path loc c Cage) (λ _, I).
Proof.
  intros Hpg Hc. unfold create_cage_group.
  apply spec_deref_seq. intros a ->%Hpg.
  apply spec_get_seq. intros s1 Hs1. cbv zeta. rewrite (proj1 Hs1).
  apply spec_seq; [by apply frame_create_object|]. intros _.
  apply spec_deref_seq. intros fo _.
  apply spec_seq; [by apply frame_set_display_flag|]. intros _.
  apply spec_seq; [by apply frame_add_name|]. intros _.
  apply spec_seq; [by apply frame_insert_folder|]. intros _.
  by apply spec_ret.
Qed.

Lemma frame_output_step r (g : list merge_entry → list merge_entry) :
  preserves I (s ← get; object_merge ← deref (get_output r s);
               modify (set_output r (Some (g object_merge)))).
Proof.
  apply preserves_get_bind. intros s1 _.
  apply preserves_deref_bind. intros om _. apply frame_set_output.
Qed.

Lemma frame_remove_bundle ptg c :
  c ≠ k →
  spec I (remove_bundle loc ptg c) (λ ptg' s, I s ∧ ptg' !! k = ptg !! k) (λ _, I).
Proof.
  intros Hc. unfold remove_bundle.
  apply spec_seq; [apply frame_output_step|]. intros _.
  apply spec_seq; [apply frame_output_step|]. intros _.
  apply spec_seq; [apply frame_output_step|]. intros _.
  apply spec_seq; [by apply frame_destroy|]. intros _.
  apply spec_seq; [by apply frame_destroy|]. intros _.
  apply spec_seq; [by apply frame_destroy|]. intros _.
  apply spec_seq; [apply frame_remove_name|]. intros _.
  destruct (ptg !! c); [|by apply spec_raise].
  apply spec_ret. intros s Hs. split; [done|]. by apply lookup_delete_ne.
Qed.

Lemma frame_add_bundle c : c ≠ k → preserves I (add_bundle loc c).
Proof.
  intros Hc. unfold add_bundle.
  apply preserves_get_bind. intros s1 _.
  apply preserves_deref_bind. intros n1 _.
  eapply spec_bind; [apply (frame_create_retopo_group _ c); [|done]|].
  { by intros a [-> _]%findPrimGroup_Some. }
  intros p1. apply spec_pure. intros ->.
  apply preserves_deref_bind. intros n2 _.
  eapply spec_bind; [apply (frame_create_reference_group _ c); [|done]|].
  { by intros a [-> _]%findPrimGroup_Some. }
  intros p2. apply spec_pure. intros ->.
  eapply spec_bind; [apply (frame_create_cage_group _ c); [|done]|].
  { by intros a [-> _]%findPrimGroup_Some. }
  intros p3. apply spec_pure. intros ->.
  apply preserves_bind; [by apply frame_set_input|]. intros _.
  apply preserves_bind; [by apply frame_set_input|]. intros _.
  apply preserves_bind; [apply frame_output_step|]. intros _.
  apply preserves_bind; [apply frame_output_step|]. intros _.
  apply preserves_bind; [apply frame_output_step|]. intros _.
  apply frame_add_name.
Qed.

Lemma same_folder_button_names names fo g :
  same_folder (Some fo) g → same_folder (Some (with_button_names names fo)) g.
Proof. done. Qed.

Lemma frame_set_folders ptg :
  same_folder (ptg !! k) (folders (control s0) !! k) →
  preserves I (modify_control (set_folders ptg)).
Proof.
  intros Hptg. apply preserves_modify. intros s (H1 & H2 & H3). by split_and!.
Qed.

Lemma frame_update_display_buttons : preserves I update_display_buttons.
Proof.
  unfold update_display_buttons.
  apply preserves_get_bind. intros s1 Hs1.
  apply preserves_deref_bind. intros n1 _. cbv zeta.
  eapply spec_bind with
    (R := λ ptg s, I s ∧ same_folder (ptg !! k) (folders (control s0) !! k)).
  - eapply spec_weaken;
      [apply (spec_fold_m
                (λ _ ptg s, I s ∧ same_folder (ptg !! k) (folders (control s0) !! k))
                _ (λ _, I))| | |]; cbn beta.
    + intros x rest ptg. apply spec_pure. intros Hptg.
      apply spec_deref_seq. intros fo Hfo. apply spec_ret.
      intros s Hs. split; [done|].
      destruct (decide (x = k)) as [->|Hx].
      * rewrite lookup_insert_eq. rewrite Hfo in Hptg.
        by apply same_folder_button_names.
      * by rewrite lookup_insert_ne.
    + intros s Hs. split; [done|]. by destruct Hs1 as (_ & _ & ?).
    + done.
    + done.
  - intros ptg. apply spec_pure. intros Hptg. by apply frame_set_folders.
Qed.

(** Reconciliation of [old] and [new] keeps what belongs to a partition
    that is in neither difference. *)
Lemma frame_reconcile old new :
  k ∉ Py.sorted_difference old new → k ∉ Py.sorted_difference new old →
  preserves I (reconcile loc old new).
Proof.
  intros Hrem Hadd. unfold reconcile.
  apply preserves_get_bind. intros s1 Hs1. cbv zeta.
  eapply spec_bind with
    (R := λ ptg s, I s ∧ same_folder (ptg !! k) (folders (control s0) !! k)).
  - eapply spec_weaken;
      [apply (spec_fold_m
                (λ rest ptg s, I s ∧ (k ∉ rest
                   ∧ same_folder (ptg !! k) (folders (control s0) !! k)))
                _ (λ _, I))| | |]; cbn beta.
    + intros x rest ptg. apply spec_pure. intros [Hk Hptg].
      apply not_elem_of_cons in Hk as [Hx Hk].
      eapply spec_weaken; [apply (frame_remove_bundle ptg x); done|done| |done].
      intros ptg' s [Hs Heq]. split; [done|]. split; [done|]. by rewrite Heq.
    + intros s Hs. split; [done|]. split; [done|]. by destruct Hs1 as (_ & _ & ?).
    + intros ptg s (Hs & _ & Hptg). done.
    + done.
  - intros ptg. apply spec_pure. intros Hptg.
    apply preserves_bind; [by apply frame_set_folders|]. intros _.
    apply preserves_bind; [apply frame_press_reload|]. intros _.
    apply preserves_bind; [apply frame_press_reload|]. intros _.
    apply preserves_bind; [|intros _; apply frame_update_display_buttons].
    apply preserves_for_each. intros c Hc. apply frame_add_bundle.
    intros ->. done.
Qed.

End frame_steps.

(** ** update_network, case by case *)

Ltac run_update rw :=
  unfold update_network, mbind, M_bind, get, update_source, press_reload_temp, cook_temp,
    display_messages, modify, deref, mret, M_ret, raise;
  repeat (progress (cbn -[import_geometry primitive_groups_match reconcile];
                    rewrite ?import_geometry_set_source; rw)).

Lemma set_messages_id (s : scene) : set_messages (messages s) s = s.
Proof. by destruct s. Qed.

Lemma update_network_validated (s : scene) (n1 n2 : source_network) (geo1 geo2 : geometry) :
  retopo_source s = Some n1 → reference_source s = Some n2 →
  import_geometry s (retopo_source_path (control s)) = Some geo1 →
  import_geometry s (reference_source_path (control s)) = Some geo2 →
  (primitive_groups_match geo1 geo2).1 = true →
  update_network s
  = reconcile (network_location (control s)) (Py.split " " (prim_groups (control s)))
      (Py.sorted geo1) (validated s n1 n2 geo1 geo2).
Proof.
  intros H1 H2 Hg1 Hg2 Hok.
  assert (Hmsg : (primitive_groups_match geo1 geo2).2 = []).
  { rewrite primitive_groups_match_report, Hok. done. }
  run_update ltac:(rewrite ?H1, ?H2, ?Hg1, ?Hg2, ?Hok, ?Hmsg).
  rewrite app_nil_r. unfold validated. destruct s. reflexivity.
Qed.

Lemma update_network_not_validated (s : scene) :
  (∀ n1 n2 geo1 geo2,
     retopo_source s = Some n1 → reference_source s = Some n2 →
     import_geometry s (retopo_source_path (control s)) = Some geo1 →
     import_geometry s (reference_source_path (control s)) = Some geo2 →
     (primitive_groups_match geo1 geo2).1 = false) →
  live (final (update_network s)) = live s.
Proof.
  intros Hfail.
  destruct (retopo_source s) as [n1|] eqn:H1;
    [|by run_update ltac:(rewrite ?H1)].
  destruct (reference_source s) as [n2|] eqn:H2;
    [|run_update ltac:(rewrite ?H1, ?H2); unfold live; cbn; by rewrite H1, H2].
  destruct (import_geometry s (retopo_source_path (control s))) as [geo1|] eqn:Hg1;
    [|run_update ltac:(rewrite ?H1, ?H2, ?Hg1); unfold live; cbn; by rewrite H1, H2].
  destruct (import_geometry s (reference_source_path (control s))) as [geo2|] eqn:Hg2;
    [|run_update ltac:(rewrite ?H1, ?H2, ?Hg1, ?Hg2); unfold live; cbn; by rewrite H1, H2].
  destruct (update_network_rejected s geo1 geo2) as (s' & -> & Hlive & _);
    eauto.
Qed.

Lemma live_untouched (s s' : scene) (k : string) : live s' = live s → untouched s k s'.
Proof.
  intros H.
  assert (Hc : control s' = control s) by apply (f_equal live_control H).
  assert (Hb : bake_groups s' = bake_groups s) by apply (f_equal live_bake_groups H).
  unfold untouched. by rewrite Hc, Hb.
Qed.

(** C3, the claim as stated: the wiring of every partition that is in both
    sets is the same before and after.  In a network for body and wheel
    where the user has fed the retopo object of body from the cage of wheel,
    updating to the single partition body destroys the groups of wheel, and
    with the cage of wheel goes the input of the retopo object of body. *)
Lemma update_network_disconnects_common :
  let s := example.with_files ["body"] ["body"] example.rewired in
  ∃ s', update_network s = Ok tt s'
    ∧ "body" ∈ Py.split " " (prim_groups (control s))
    ∧ import_geometry s (retopo_source_path (control s)) = Some ["body"]
    ∧ bg_input <$> bake_groups s !! "/obj/body_retopo" = Some (Some "/obj/wheel_cage")
    ∧ bg_input <$> bake_groups s' !! "/obj/body_retopo" = Some None.
Proof.
  eexists. split; [vm_compute; reflexivity|].
  split_and!; [compute_done|reflexivity..].
Qed.

(** C3, amended: reconciliation does not touch what belongs to a partition
    that is in both the old and the new set and whose groups take their
    inputs from one another, as the tool wires them.  Whatever way
    [update_network] ends,
    the three bake groups of such a partition (with their wiring and, for the
    cage, the contents of the edit region) and its parameters are in the
    final scene exactly as they were; only the list of names written into
    its display-button callbacks is refreshed. *)
Theorem update_network_keeps_common (s : scene) (k : string) :
  k ∈ Py.split " " (prim_groups (control s)) →
  (∀ geo, import_geometry s (retopo_source_path (control s)) = Some geo → k ∈ geo) →
  wired_within s k →
  let s' := final (update_network s) in
  (∀ r, bake_groups s' !! group_path (network_location (control s)) k r
        = bake_groups s !! group_path (network_location (control s)) k r)
  ∧ gf_parms <$> folders (control s') !! k = gf_parms <$> folders (control s) !! k
  ∧ untouched s k s'.
Proof.
  intros Hold Hnew Hwired s'.
  assert (H : untouched s k s').
  { unfold s'.
    destruct (retopo_source s) as [n1|] eqn:H1;
      [|apply live_untouched, update_network_not_validated; congruence].
    destruct (reference_source s) as [n2|] eqn:H2;
      [|apply live_untouched, update_network_not_validated; congruence].
    destruct (import_geometry s (retopo_source_path (control s))) as [geo1|] eqn:Hg1;
      [|apply live_untouched, update_network_not_validated; congruence].
    destruct (import_geometry s (reference_source_path (control s))) as [geo2|] eqn:Hg2;
      [|apply live_untouched, update_network_not_validated; congruence].
    destruct (primitive_groups_match geo1 geo2).1 eqn:Hok;
      [|apply live_untouched, update_network_not_validated; congruence].
    rewrite (update_network_validated s n1 n2 geo1 geo2) by done.
    apply preserves_final.
    - apply frame_reconcile; [done| |].
      + rewrite sorted_difference_elem_of, sorted_elem_of. naive_solver.
      + rewrite sorted_difference_elem_of. naive_solver.
    - by apply untouched_elsewhere with s, untouched_refl. }
  split_and!; [|  |done].
  - by destruct H as (_ & ? & _).
  - destruct H as (_ & _ & Hf). unfold same_folder in Hf.
    destruct (folders (control s') !! k) as [f|], (folders (control s) !! k) as [g|];
      try done.
    simpl in *. f_equal. injection Hf. by intros _ _ ->.
Qed.

Lemma update_network_keeps_common_witness :
  let s := example.with_files ["body"; "door"] ["door"; "body"] example.edited in
  let s' := final (update_network s) in
  bake_groups s' !! "/obj/body_cage"
  = Some (BakeGroup Cage true (Some "/obj/body_reference") ["edit: move point 3"])
  ∧ bake_groups s' !! "/obj/wheel_cage" = None
  ∧ is_Some (bake_groups s' !! "/obj/door_cage").
Proof.
  intros s s'.
  assert (Hold : "body" ∈ Py.split " " (prim_groups (control s))) by compute_done.
  assert (Hnew : ∀ geo, import_geometry s (retopo_source_path (control s)) = Some geo →
                        "body" ∈ geo).
  { intros geo H. vm_compute in H. injection H as <-. compute_done. }
  assert (Hwired : wired_within s "body").
  { intros r g p Hg Hp.
    destruct r; vm_compute in Hg; injection Hg as <-; simpl in Hp; try discriminate;
      injection Hp as <-.
    - by exists Retopo.
    - by exists Reference. }
  destruct (update_network_keeps_common s "body" Hold Hnew Hwired) as (Hgroups & _ & _).
  split; [exact (Hgroups Cage)|]. split; [reflexivity|]. vm_compute. eauto.
Defined.

(** ** A missing node stops the reconciliation *)

(** C6, the claim as stated: when the node of a name to remove cannot be
    found, that name is skipped with a recorded warning and the other names
    are still processed.  In a network for body and wheel whose node
    [/obj/body_reference] was deleted from outside, updating to the single
    partition door raises [AttributeError] at body: no message is recorded,
    wheel, next in the removal order, keeps its groups and its place in the
    list, and door gets no group. *)
Lemma update_network_missing_node_aborts :
  let s := example.with_files ["door"] ["door"] example.corrupted in
  ∃ s', update_network s = Raise AttributeError s'
    ∧ bake_groups s !! "/obj/body_reference" = None
    ∧ messages s' = []
    ∧ prim_groups (control s') = "body wheel"
    ∧ is_Some (bake_groups s' !! "/obj/wheel_retopo")
    ∧ bake_groups s' !! "/obj/door_retopo" = None.
Proof.
  eexists. split; [vm_compute; reflexivity|].
  split_and!; try reflexivity. vm_compute. eauto.
Qed.

Section missing_node.

Variable s0 : scene.

Notation K := (nothing_new s0).

Lemma nothing_new_refl : K s0.
Proof. by split. Qed.

Lemma nothing_new_elsewhere (s s' : scene) :
  bake_groups s' = bake_groups s → messages s' = messages s → K s → K s'.
Proof. unfold nothing_new. by intros -> ->. Qed.

Lemma missing_output_step r (g : list merge_entry → list merge_entry) :
  preserves K (s ← get; object_merge ← deref (get_output r s);
               modify (set_output r (Some (g object_merge)))).
Proof.
  apply preserves_get_bind. intros s1 _.
  apply preserves_deref_bind. intros om _.
  apply preserves_modify. intros s. by apply nothing_new_elsewhere.
Qed.

Lemma missing_destroy p : preserves K (destroy p).
Proof.
  intros s [Hs Hm]. unfold destroy. destruct (bake_groups s !! p) eqn:Hp; [|done].
  split; [|done]. intros p'. cbn. rewrite lookup_fmap, fmap_is_Some.
  intros [_ H]%lookup_delete_is_Some. by apply Hs.
Qed.

(** Destroying a node that was not there to begin with raises. *)
Lemma missing_destroy_raises p :
  bake_groups s0 !! p = None → spec K (destroy p) (λ _ _, False) (λ _, K).
Proof.
  intros Hp s Hs. unfold destroy.
  destruct (bake_groups s !! p) eqn:Hp'; [|done].
  destruct Hs as [Hs _]. specialize (Hs p (mk_is_Some _ _ Hp')).
  rewrite Hp in Hs. by destruct Hs.
Qed.

Lemma missing_modify_control f : preserves K (modify_control f).
Proof. apply preserves_modify. intros s. by apply nothing_new_elsewhere. Qed.

Lemma spec_absurd {A} (m : M A) (Q : A → scene → Prop) E : spec (λ _, False) m Q E.
Proof. by intros s []. Qed.

Lemma missing_remove_bundle_other loc ptg x :
  preserves K (remove_bundle loc ptg x).
Proof.
  unfold remove_bundle.
  do 3 (apply preserves_bind; [apply missing_output_step|intros ?]).
  do 3 (apply preserves_bind; [apply missing_destroy|intros ?]).
  apply preserves_bind; [apply missing_modify_control|intros ?].
  destruct (ptg !! x); [apply preserves_ret|apply preserves_raise].
Qed.

Lemma missing_remove_bundle loc ptg c r :
  bake_groups s0 !! group_path loc c r = None →
  spec K (remove_bundle loc ptg c) (λ _ _, False) (λ _, K).
Proof.
  intros Hc. unfold remove_bundle.
  do 3 (eapply spec_bind; [apply missing_output_step|intros ?]).
  destruct r.
  - eapply spec_bind; [by apply missing_destroy_raises|]. intros ?. apply spec_absurd.
  - eapply spec_bind; [apply missing_destroy|intros ?].
    eapply spec_bind; [by apply missing_destroy_raises|]. intros ?. apply spec_absurd.
  - do 2 (eapply spec_bind; [apply missing_destroy|intros ?]).
    eapply spec_bind; [by apply missing_destroy_raises|]. intros ?. apply spec_absurd.
Qed.

Lemma missing_reconcile loc old new c r :
  c ∈ Py.sorted_difference old new →
  bake_groups s0 !! group_path loc c r = None →
  spec K (reconcile loc old new) (λ _ _, False) (λ _, K).
Proof.
  intros Hin Hc. unfold reconcile.
  apply spec_get_seq. intros s1 _. cbv zeta.
  eapply spec_bind with (R := λ _ _, False); [|intros ?; apply spec_absurd].
  eapply spec_weaken;
    [apply (spec_fold_m (λ rest _ s, K s ∧ c ∈ rest) _ (λ _, K))| | |]; cbn beta.
  - intros x rest ptg. apply spec_pure. intros Hx.
    destruct (decide (x = c)) as [->|Hne].
    + eapply spec_weaken; [by apply (missing_remove_bundle loc ptg c r)|done..].
    + eapply spec_weaken; [apply (missing_remove_bundle_other loc ptg x)|done| |done].
      intros ? s Hs. split; [done|]. apply elem_of_cons in Hx as [->|]; done.
  - done.
  - intros _ s [_ H]. by apply elem_of_nil in H.
  - done.
Qed.

End missing_node.

(** C6, amended: when a bake-group node of a name in the removal set cannot
    be located, [update_network] does not skip the name: it raises there and
    stops.  No warning is recorded, and nothing is created for the names to
    add: every bake group of the scene it leaves was there before.  Only a
    reference missing from an aggregator is passed over in silence. *)
Theorem update_network_missing_node (s : scene) (n1 n2 : source_network)
    (geo1 geo2 : geometry) (c : string) (r : role) :
  retopo_source s = Some n1 → reference_source s = Some n2 →
  import_geometry s (retopo_source_path (control s)) = Some geo1 →
  import_geometry s (reference_source_path (control s)) = Some geo2 →
  (primitive_groups_match geo1 geo2).1 = true →
  c ∈ Py.split " " (prim_groups (control s)) → c ∉ geo1 →
  bake_groups s !! group_path (network_location (control s)) c r = None →
  (∃ e s', update_network s = Raise e s'
     ∧ (∀ p, is_Some (bake_groups s' !! p) → is_Some (bake_groups s !! p))
     ∧ messages s' = messages s)
  ∧ ∀ multi_parm value,
      Forall (λ e, Py.is_infix value (me_objpath e) = false) multi_parm →
      remove_from_multiparm multi_parm "objpath" value = multi_parm.
Proof.
  intros H1 H2 Hg1 Hg2 Hok Hold Hnew Hmissing.
  split; [|apply remove_from_multiparm_absent].
  rewrite (update_network_validated s n1 n2 geo1 geo2) by done.
  assert (Hin : c ∈ Py.sorted_difference (Py.split " " (prim_groups (control s)))
                    (Py.sorted geo1)).
  { rewrite sorted_difference_elem_of, sorted_elem_of. done. }
  pose proof (missing_reconcile s _ _ _ c r Hin Hmissing (validated s n1 n2 geo1 geo2)) as H.
  destruct (reconcile _ _ _ _) as [a s'|e s'].
  - destruct H. by apply nothing_new_elsewhere with s, nothing_new_refl.
  - exists e, s'. split; [done|].
    apply H. by apply nothing_new_elsewhere with s, nothing_new_refl.
Qed.

Lemma update_network_missing_node_witness :
  let s := example.with_files ["door"] ["door"] example.corrupted in
  ∃ e s', update_network s = Raise e s' ∧ messages s' = messages s.
Proof.
  intros s.
  destruct (retopo_source s) as [n1|] eqn:H1; [|vm_compute in H1; discriminate].
  destruct (reference_source s) as [n2|] eqn:H2; [|vm_compute in H2; discriminate].
  assert (Hg1 : import_geometry s (retopo_source_path (control s)) = Some ["door"])
    by (vm_compute; reflexivity).
  assert (Hg2 : import_geometry s (reference_source_path (control s)) = Some ["door"])
    by (vm_compute; reflexivity).
  assert (Hok : (primitive_groups_match ["door"] ["door"]).1 = true) by reflexivity.
  assert (Hold : "body" ∈ Py.split " " (prim_groups (control s))) by compute_done.
  assert (Hnew : "body" ∉ ["door"]) by compute_done.
  assert (Hmissing : bake_groups s !! group_path (network_location (control s)) "body" Reference
                     = None) by (vm_compute; reflexivity).
  destruct (update_network_missing_node s n1 n2 ["door"] ["door"] "body" Reference
              H1 H2 Hg1 Hg2 Hok Hold Hnew Hmissing)
    as [(e & s' & Hs' & _ & Hm) _].
  exists e, s'. split; [exact Hs'|exact Hm].
Defined.

(** ** Reconciliation converges *)

Ltac scene_simpl :=
  cbn [disk operators control materials retopo_source reference_source bake_groups
       retopo_output reference_output cage_output messages
       set_control set_materials set_bake_groups set_messages
       set_source get_source set_output get_output final
       network_location prim_groups folders set_folders set_prim_groups
       sn_file sn_geo sn_temp_file sn_temp_geo with_geo with_file] in *.

Ltac unfold_steps :=
  unfold mbind, M_bind, get, deref, modify_control, modify, mret, M_ret, raise.

Lemma destroyed_lookup_ne (p q : string) (m : gmap string bake_group) :
  p ≠ q → destroyed p m !! q = disconnect p <$> m !! q.
Proof. intros H. unfold destroyed. by rewrite lookup_fmap, lookup_delete_ne. Qed.

Lemma destroyed_lookup_eq (p : string) (m : gmap string bake_group) :
  destroyed p m !! p = None.
Proof. unfold destroyed. by rewrite lookup_fmap, lookup_delete_eq. Qed.

Lemma destroyed_is_Some (p q : string) (m : gmap string bake_group) :
  is_Some (destroyed p m !! q) ↔ p ≠ q ∧ is_Some (m !! q).
Proof.
  unfold destroyed. rewrite lookup_fmap, fmap_is_Some. apply lookup_delete_is_Some.
Qed.

Lemma destroy_eq (p : string) (s : scene) :
  destroy p s = match bake_groups s !! p with
                | Some _ => Ok tt (set_bake_groups (destroyed p (bake_groups s)) s)
                | None => Raise AttributeError s
                end.
Proof. done. Qed.

(** The removal of one bundle, when everything it looks up is there. *)
Lemma remove_bundle_ok (loc : string) (ptg : gmap string group_folder) (x : string)
    (s : scene) (o1 o2 o3 : list merge_entry) :
  retopo_output s = Some o1 → reference_output s = Some o2 → cage_output s = Some o3 →
  (∀ r, is_Some (bake_groups s !! group_path loc x r)) →
  is_Some (ptg !! x) →
  remove_bundle loc ptg x s
  = Ok (delete x ptg)
      (set_control (remove_from_current_prim_groups (control s) x)
         (set_bake_groups
            (destroyed (group_path loc x Cage)
               (destroyed (group_path loc x Reference)
                  (destroyed (group_path loc x Retopo) (bake_groups s))))
            (set_output Cage
               (Some (remove_from_multiparm o3 "objpath" (group_path loc x Cage)))
               (set_output Reference
                  (Some (remove_from_multiparm o2 "objpath" (group_path loc x Reference)))
                  (set_output Retopo
                     (Some (remove_from_multiparm o1 "objpath" (group_path loc x Retopo)))
                     s))))).
Proof.
  intros Ho1 Ho2 Ho3 Hnodes [fo Hfo].
  destruct (Hnodes Retopo) as [g1 Hg1].
  destruct (Hnodes Reference) as [g2 Hg2].
  destruct (Hnodes Cage) as [g3 Hg3].
  unfold remove_bundle. unfold_steps. scene_simpl.
  rewrite Ho1. scene_simpl. rewrite Ho2. scene_simpl. rewrite Ho3. scene_simpl.
  rewrite destroy_eq. scene_simpl. rewrite Hg1. scene_simpl.
  rewrite destroy_eq. scene_simpl.
  rewrite destroyed_lookup_ne, Hg2 by by apply group_path_role_ne.
  cbn [fmap option_fmap option_map]. scene_simpl.
  rewrite destroy_eq. scene_simpl.
  rewrite !destroyed_lookup_ne, Hg3 by by apply group_path_role_ne.
  cbn [fmap option_fmap option_map]. scene_simpl.
  rewrite Hfo. reflexivity.
Qed.

Lemma findPrimGroup_in (geo : geometry) (name : string) :
  name ∈ geo → findPrimGroup geo name = Some name.
Proof. intros H. unfold findPrimGroup. by rewrite decide_True. Qed.

Lemma create_object_eq (p : string) (r : role) (s : scene) :
  create_object p r s
  = match bake_groups s !! p with
    | Some _ => Raise OperationFailed s
    | None => Ok tt (set_bake_groups (<[p := BakeGroup r true None []]> (bake_groups s)) s)
    end.
Proof. done. Qed.

Lemma folders_add c n : folders (add_to_current_prim_groups c n) = folders c.
Proof. done. Qed.

Lemma network_location_add c n :
  network_location (add_to_current_prim_groups c n) = network_location c.
Proof. done. Qed.

Lemma add_set_folders v c n :
  add_to_current_prim_groups (set_folders v c) n = set_folders v (add_to_current_prim_groups c n).
Proof. done. Qed.

Lemma alter_is_Some (f : bake_group → bake_group) (k p : string) (m : gmap string bake_group) :
  is_Some (alter f k m !! p) ↔ is_Some (m !! p).
Proof.
  destruct (decide (k = p)) as [->|Hne].
  - rewrite lookup_alter_eq. apply fmap_is_Some.
  - by rewrite lookup_alter_ne.
Qed.

Lemma add_bundle_ok (loc c : string) (s : scene) (m1 m2 : source_network)
    (o1 o2 o3 : list merge_entry) :
  network_location (control s) = loc →
  retopo_source s = Some m1 → reference_source s = Some m2 →
  c ∈ sn_geo m1 → c ∈ sn_geo m2 →
  retopo_output s = Some o1 → reference_output s = Some o2 → cage_output s = Some o3 →
  (∀ r, bake_groups s !! group_path loc c r = None) →
  ∃ s', add_bundle loc c s = Ok tt s'
    ∧ network_location (control s') = loc
    ∧ prim_groups (control s')
      = prim_groups (add_to_current_prim_groups (add_to_current_prim_groups (control s) c) c)
    ∧ (∀ n, n ≠ c → folders (control s') !! n = folders (control s) !! n)
    ∧ is_Some (folders (control s') !! c)
    ∧ (∀ p, (∀ r, p ≠ group_path loc c r) → bake_groups s' !! p = bake_groups s !! p)
    ∧ (∀ r, is_Some (bake_groups s' !! group_path loc c r))
    ∧ retopo_source s' = retopo_source s ∧ reference_source s' = reference_source s
    ∧ disk s' = disk s ∧ operators s' = operators s ∧ messages s' = messages s
    ∧ ∀ r, is_Some (get_output r s').
Proof.
  intros Hloc Hs1 Hs2 Hc1 Hc2 Ho1 Ho2 Ho3 Hnone.
  pose proof (Hnone Retopo) as Hn1.
  pose proof (Hnone Reference) as Hn2.
  pose proof (Hnone Cage) as Hn3.
  unfold add_bundle, create_retopo_group, create_reference_group, create_cage_group,
    set_display_flag, set_input.
  unfold_steps.
  repeat (progress (scene_simpl;
    rewrite ?Hs1, ?Hs2, ?(findPrimGroup_in _ _ Hc1), ?(findPrimGroup_in _ _ Hc2), ?Hloc,
      ?create_object_eq, ?lookup_insert_eq, ?folders_add, ?network_location_add,
      ?Ho1, ?Ho2, ?Ho3;
    rewrite ?lookup_alter_ne, ?lookup_insert_ne by (by apply group_path_role_ne);
    rewrite ?Hn1, ?Hn2, ?Hn3)).
  eexists. split; [reflexivity|].
  split_and!; scene_simpl; rewrite ?add_set_folders; scene_simpl;
    rewrite ?network_location_add, ?folders_add; scene_simpl; try done.
  - intros n Hn. by rewrite !lookup_insert_ne.
  - rewrite lookup_insert_eq. eauto.
  - intros p Hp.
    repeat (first [ rewrite lookup_alter_ne by (by apply not_eq_sym)
                  | rewrite lookup_insert_ne by (by apply not_eq_sym) ]).
    done.
  - intros r. rewrite !alter_is_Some.
    destruct r;
      repeat (first [ rewrite lookup_insert_eq | rewrite alter_is_Some
                    | rewrite lookup_insert_ne by (by apply group_path_role_ne) ]);
      eauto.
  - intros []; scene_simpl; eauto.
Qed.

Lemma tracks_remove (c : control_parms) (cur : list string) (x : string) :
  Forall valid_name cur → prim_groups c = Py.join " " (Py.sorted cur) → x ∈ cur →
  prim_groups (remove_from_current_prim_groups c x)
  = Py.join " " (Py.sorted (Py.remove x (Py.sorted cur))).
Proof.
  intros Hv Hpg Hx.
  pose proof (current_names_serialized c cur Hv Hpg) as Hcur.
  unfold current_names in Hcur. unfold remove_from_current_prim_groups.
  destruct (get_current_prim_groups c) as [l|]; simpl in Hcur.
  - subst l. rewrite decide_True by by apply sorted_elem_of. done.
  - apply (sorted_elem_of x) in Hx. rewrite <- Hcur in Hx. by apply elem_of_nil in Hx.
Qed.

Lemma tracks_add (c : control_parms) (cur : list string) (x : string) :
  Forall valid_name cur → prim_groups c = Py.join " " (Py.sorted cur) → x ∉ cur →
  prim_groups (add_to_current_prim_groups c x)
  = Py.join " " (Py.sorted (Py.sorted cur ++ [x])).
Proof.
  intros Hv Hpg Hx. rewrite add_to_current_prim_groups_unfold.
  rewrite (current_names_serialized c cur Hv Hpg).
  rewrite decide_False; [done|]. by rewrite sorted_elem_of.
Qed.

Lemma group_paths_ne (loc x n : string) (r : role) :
  (∀ r', group_path loc x r' ≠ group_path loc n r) ↔ n ≠ x.
Proof.
  split.
  - intros H ->. by apply (H r).
  - intros H r'. by apply group_path_ne.
Qed.

(** The removal loop, on a scene that has all it looks up. *)
Lemma removal_loop (loc : string) (rest : list string) :
  ∀ (ptg : gmap string group_folder) (s : scene) (cur : list string),
  network_location (control s) = loc →
  tracks s cur →
  NoDup rest → (∀ x, x ∈ rest → x ∈ cur) →
  (∀ n r, is_Some (bake_groups s !! group_path loc n r) ↔ n ∈ cur) →
  (∀ n, n ∈ cur → is_Some (ptg !! n)) →
  (∀ r, is_Some (get_output r s)) →
  ∃ ptg' s' cur',
    fold_m (remove_bundle loc) rest ptg s = Ok ptg' s'
    ∧ network_location (control s') = loc
    ∧ tracks s' cur'
    ∧ (∀ x, x ∈ cur' ↔ x ∈ cur ∧ x ∉ rest)
    ∧ (∀ n r, is_Some (bake_groups s' !! group_path loc n r) ↔ n ∈ cur')
    ∧ (∀ n, n ∈ cur' → ptg' !! n = ptg !! n)
    ∧ (∀ r, is_Some (get_output r s'))
    ∧ retopo_source s' = retopo_source s ∧ reference_source s' = reference_source s
    ∧ disk s' = disk s ∧ operators s' = operators s ∧ messages s' = messages s.
Proof.
  induction rest as [|x rest IH]; intros ptg s cur Hloc Htr Hnd Hsub Hnodes Hptg Hout.
  - exists ptg, s, cur. split_and!; try done. intros x. set_solver.
  - apply NoDup_cons in Hnd as [Hx Hnd].
    assert (Hxc : x ∈ cur) by (apply Hsub; left).
    destruct Htr as (Hv & Hcnd & Hpg).
    destruct (Hout Retopo) as [o1 Ho1], (Hout Reference) as [o2 Ho2],
      (Hout Cage) as [o3 Ho3]. simpl in Ho1, Ho2, Ho3.
    cbn [fold_m]. unfold mbind at 1, M_bind at 1.
    rewrite (remove_bundle_ok loc ptg x s o1 o2 o3)
      by first [done | intros r; by apply Hnodes | by apply Hptg].
    set (s1 := set_control _ _).
    set (cur1 := Py.remove x (Py.sorted cur)).
    assert (Hcur1 : ∀ n, n ∈ cur1 ↔ n ∈ cur ∧ n ≠ x).
    { intros n. unfold cur1. rewrite remove_elem_of by by apply sorted_NoDup.
      by rewrite sorted_elem_of. }
    destruct (IH (delete x ptg) s1 cur1) as (ptg' & s' & cur' & Hrun & H1 & H2 & H3 & H4 & H5 & H6 & H7);
      clear IH.
    + unfold s1. scene_simpl. unfold remove_from_current_prim_groups.
      destruct (get_current_prim_groups (control s)); [case_decide|]; done.
    + split_and!.
      * by apply remove_Forall, sorted_Forall.
      * by apply remove_NoDup, sorted_NoDup.
      * unfold s1. scene_simpl. by apply tracks_remove.
    + done.
    + intros y Hy. apply Hcur1. split; [apply Hsub; by right|]. by intros ->.
    + intros n r. unfold s1. scene_simpl.
      rewrite !destroyed_is_Some, Hnodes, Hcur1.
      split.
      * intros (Ha & Hb & Hc & Hn). split; [done|]. intros ->. by destruct r.
      * intros [Hn Hne]. split_and!; try done; by apply group_path_ne.
    + intros n [Hn Hne]%Hcur1. rewrite lookup_delete_ne by done. by apply Hptg.
    + intros []; unfold s1; scene_simpl; eauto.
    + exists ptg', s', cur'. split_and!; try done.
      * intros y. rewrite H3, Hcur1, not_elem_of_cons. naive_solver.
      * intros n Hn. rewrite (H5 n Hn). apply lookup_delete_ne.
        apply H3 in Hn as [[_ Hne]%Hcur1 _]. done.
      * by destruct H7 as (? & _).
      * by destruct H7 as (_ & ? & _).
      * by destruct H7 as (_ & _ & ? & _).
      * by destruct H7 as (_ & _ & _ & ? & _).
      * by destruct H7 as (_ & _ & _ & _ & ?).
Qed.

(** The addition loop, on a scene whose sources hold the new names. *)
Lemma addition_loop (loc : string) (m1 m2 : source_network) (rest : list string) :
  ∀ (s : scene) (cur : list string),
  network_location (control s) = loc →
  tracks s cur →
  retopo_source s = Some m1 → reference_source s = Some m2 →
  NoDup rest → Forall valid_name rest →
  (∀ x, x ∈ rest → x ∉ cur ∧ x ∈ sn_geo m1 ∧ x ∈ sn_geo m2) →
  (∀ n r, is_Some (bake_groups s !! group_path loc n r) ↔ n ∈ cur) →
  (∀ r, is_Some (get_output r s)) →
  ∃ s' cur',
    for_each rest (add_bundle loc) s = Ok tt s'
    ∧ network_location (control s') = loc
    ∧ tracks s' cur'
    ∧ (∀ x, x ∈ cur' ↔ x ∈ cur ∨ x ∈ rest)
    ∧ (∀ n r, is_Some (bake_groups s' !! group_path loc n r) ↔ n ∈ cur')
    ∧ (∀ n, n ∉ rest → folders (control s') !! n = folders (control s) !! n)
    ∧ (∀ n, n ∈ rest → is_Some (folders (control s') !! n))
    ∧ (∀ r, is_Some (get_output r s'))
    ∧ retopo_source s' = retopo_source s ∧ reference_source s' = reference_source s
    ∧ disk s' = disk s ∧ operators s' = operators s ∧ messages s' = messages s.
Proof.
  induction rest as [|x rest IH]; intros s cur Hloc Htr Hs1 Hs2 Hnd Hval Hnew Hnodes Hout.
  - exists s, cur. split_and!; try done.
    + intros x. set_solver.
    + intros n Hn. by apply elem_of_nil in Hn.
  - apply NoDup_cons in Hnd as [Hx Hnd].
    apply Forall_cons in Hval as [Hxv Hval].
    destruct (Hnew x) as (Hxc & Hx1 & Hx2); [by left|].
    destruct Htr as (Hv & Hcnd & Hpg).
    destruct (Hout Retopo) as [o1 Ho1], (Hout Reference) as [o2 Ho2],
      (Hout Cage) as [o3 Ho3]. simpl in Ho1, Ho2, Ho3.
    destruct (add_bundle_ok loc x s m1 m2 o1 o2 o3)
      as (s1 & Hrun1 & A1 & A2 & A3 & A4 & A5 & A6 & A7 & A8 & A9 & A10 & A11 & A12);
      try done.
    { intros r. apply eq_None_not_Some. by rewrite Hnodes. }
    unfold for_each in *. cbn [fold_m]. unfold mbind at 1, M_bind at 1. rewrite Hrun1.
    set (cur1 := Py.sorted cur ++ [x]).
    assert (Hcur1 : ∀ n, n ∈ cur1 ↔ n ∈ cur ∨ n = x).
    { intros n. unfold cur1. rewrite elem_of_app, sorted_elem_of, list_elem_of_singleton.
      done. }
    destruct (IH s1 cur1) as (s' & cur' & Hrun & H1 & H2 & H3 & H4 & H5 & H6 & H7 & H8);
      clear IH; try done.
    + split_and!.
      * apply Forall_app. split; [by apply sorted_Forall|by constructor].
      * apply NoDup_app. split_and!; [by apply sorted_NoDup| |apply NoDup_singleton].
        intros y Hy ->%list_elem_of_singleton. by rewrite sorted_elem_of in Hy.
      * rewrite A2. destruct Hxv as [_ Hfree].
        rewrite add_to_current_prim_groups_twice by done. by apply tracks_add.
    + congruence.
    + congruence.
    + intros y Hy. destruct (Hnew y) as (Hyc & Hy1 & Hy2); [by right|].
      split; [|done]. rewrite Hcur1. intros [?| ->]; done.
    + intros n r. rewrite Hcur1. destruct (decide (n = x)) as [->|Hne].
      * split; [by right|]. intros _. apply A6.
      * rewrite A5 by (intros r'; apply not_eq_sym; by apply group_path_ne).
        rewrite Hnodes. naive_solver.
    + exists s', cur'. split_and!; try done.
      * intros y. rewrite H3, Hcur1, elem_of_cons. naive_solver.
      * intros n [Hne Hn]%not_elem_of_cons. rewrite (H5 n Hn). by apply A3.
      * intros n [->|Hn]%elem_of_cons.
        -- destruct (decide (x ∈ rest)) as [Hin|Hnin]; [by apply H6|].
           by rewrite (H5 x Hnin).
        -- by apply H6.
      * destruct H8 as (-> & _). done.
      * destruct H8 as (_ & -> & _). done.
      * destruct H8 as (_ & _ & -> & _). done.
      * destruct H8 as (_ & _ & _ & -> & _). done.
      * destruct H8 as (_ & _ & _ & _ & ->). done.
Qed.

(** Refreshing the display buttons succeeds when every group of the live
    retopo mesh has its folder, and changes the folders only. *)
Lemma update_display_buttons_ok (s : scene) (m1 : source_network) :
  retopo_source s = Some m1 →
  (∀ n, n ∈ sn_geo m1 → is_Some (folders (control s) !! n)) →
  ∃ ptg, update_display_buttons s = Ok tt (set_control (set_folders ptg (control s)) s)
    ∧ ∀ n, is_Some (ptg !! n) ↔ is_Some (folders (control s) !! n).
Proof.
  intros Hs1 Hfo.
  assert (Hloop : ∀ names l (ptg : gmap string group_folder),
            (∀ n, n ∈ l → is_Some (ptg !! n)) →
            ∃ ptg', fold_m (λ ptg prim_group_name,
                             folder ← deref (ptg !! prim_group_name);
                             mret (<[prim_group_name := with_button_names names folder]> ptg))
                      l ptg s = Ok ptg' s
              ∧ ∀ n, is_Some (ptg' !! n) ↔ is_Some (ptg !! n)).
  { intros names l. induction l as [|x l IH]; intros ptg Hl.
    - by exists ptg.
    - destruct (Hl x) as [fo Hx]; [by left|].
      cbn [fold_m]. unfold_steps. rewrite Hx. cbn.
      destruct (IH (<[x := with_button_names names fo]> ptg)) as (ptg' & Hrun & Hdom).
      + intros n Hn. rewrite lookup_insert_is_Some.
        destruct (decide (x = n)); [by left|]. right. split; [done|]. apply Hl. by right.
      + exists ptg'. split; [exact Hrun|]. intros n. rewrite Hdom, lookup_insert_is_Some.
        split.
        * intros [<-|[_ ?]]; [by rewrite Hx|done].
        * intros Hn. destruct (decide (x = n)); [by left|by right]. }
  destruct (Hloop (Py.sorted (sn_geo m1)) (sn_geo m1) (folders (control s)) Hfo)
    as (ptg & Hrun & Hdom).
  exists ptg. split; [|done].
  unfold update_display_buttons. unfold mbind at 1, M_bind at 1. cbn [get].
  unfold mbind at 1, M_bind at 1. rewrite Hs1. cbn [deref]. unfold mret at 1, M_ret at 1.
  unfold mbind at 1, M_bind at 1. rewrite Hrun. done.
Qed.

Lemma import_geometry_ext (s s' : scene) (path : string) :
  disk s' = disk s → operators s' = operators s →
  import_geometry s' path = import_geometry s path.
Proof. unfold import_geometry. by intros -> ->. Qed.

Lemma press_reload_ok (j : source_id) (s : scene) (n : source_network) (geo : geometry) :
  get_source j s = Some n → import_geometry s (sn_file n) = Some geo →
  press_reload j s = Ok tt (set_source j (Some (with_geo geo n)) s).
Proof. intros Hn Hg. unfold press_reload. by rewrite Hn, Hg. Qed.

(** Reconciling a consistent scene with the names of the new meshes gives a
    scene that is consistent with the new names. *)
Lemma reconcile_converges (s : scene) (names : list string) (geo1 geo2 : geometry)
    (m1 m2 : source_network) :
  consistent s names →
  retopo_source s = Some m1 → reference_source s = Some m2 →
  import_geometry s (sn_file m1) = Some geo1 →
  import_geometry s (sn_file m2) = Some geo2 →
  NoDup geo1 → Forall valid_name geo1 → (∀ x, x ∈ geo1 ↔ x ∈ geo2) →
  ∃ s', reconcile (network_location (control s)) (Py.sorted names) (Py.sorted geo1) s
        = Ok tt s'
    ∧ consistent s' geo1
    ∧ messages s' = messages s.
Proof.
  intros (Hv & Hnd & Hpg & Hnodes & Hfo & _ & _ & Hout) Hs1 Hs2 Hg1 Hg2 Hnd1 Hv1 Hsame.
  set (loc := network_location (control s)) in *.
  set (R := Py.sorted_difference (Py.sorted names) (Py.sorted geo1)).
  set (A := Py.sorted_difference (Py.sorted geo1) (Py.sorted names)).
  assert (HR : ∀ x, x ∈ R ↔ x ∈ names ∧ x ∉ geo1).
  { intros x. unfold R. by rewrite sorted_difference_elem_of, !sorted_elem_of. }
  assert (HA : ∀ x, x ∈ A ↔ x ∈ geo1 ∧ x ∉ names).
  { intros x. unfold A. by rewrite sorted_difference_elem_of, !sorted_elem_of. }
  (* the removal loop *)
  destruct (removal_loop loc R (folders (control s)) s names)
    as (ptg & s1 & cur1 & Hrun1 & L1 & T1 & C1 & N1 & P1 & O1 & S1 & S2 & D1 & D2 & M1);
    try done.
  { apply sorted_difference_NoDup. }
  { intros x. rewrite HR. tauto. }
  (* the templates are written back and the live files reloaded *)
  set (s2 := set_control (set_folders ptg (control s1)) s1).
  set (s3 := set_source RetopoSource (Some (with_geo geo1 m1)) s2).
  set (s4 := set_source ReferenceSource (Some (with_geo geo2 m2)) s3).
  assert (Hr3 : press_reload RetopoSource s2 = Ok tt s3).
  { apply press_reload_ok; [unfold s2; scene_simpl; congruence|].
    rewrite <- Hg1. by apply import_geometry_ext. }
  assert (Hr4 : press_reload ReferenceSource s3 = Ok tt s4).
  { apply press_reload_ok; [unfold s3, s2; scene_simpl; congruence|].
    rewrite <- Hg2. by apply import_geometry_ext. }
  (* the addition loop *)
  destruct (addition_loop loc (with_geo geo1 m1) (with_geo geo2 m2) A s4 cur1)
    as (s5 & cur2 & Hrun2 & L2 & T2 & C2 & N2 & F2 & F2' & O2 & S3 & S4 & D3 & D4 & M2);
    try done.
  { apply sorted_difference_NoDup. }
  { apply Forall_forall. intros x [Hx _]%HA. by eapply Forall_forall in Hv1. }
  { intros x [Hx Hn]%HA. split_and!; [|done|by apply Hsame].
    rewrite C1. tauto. }
  (* the display buttons *)
  assert (Hcur2 : ∀ x, x ∈ cur2 ↔ x ∈ geo1).
  { intros x. rewrite C2, C1, HR, HA.
    destruct (decide (x ∈ names)), (decide (x ∈ geo1)); tauto. }
  assert (Hfolders : ∀ n, n ∈ geo1 → is_Some (folders (control s5) !! n)).
  { intros n Hn. destruct (decide (n ∈ A)) as [Hin|Hnin]; [by apply F2'|].
    rewrite (F2 n Hnin). unfold s4, s3, s2. scene_simpl.
    assert (Hnames : n ∈ names).
    { destruct (decide (n ∈ names)); [done|]. destruct Hnin. by apply HA. }
    rewrite P1; [by apply Hfo|]. rewrite C1, HR. tauto. }
  destruct (update_display_buttons_ok s5 (with_geo geo1 m1)) as (ptg' & Hrun3 & Hdom);
    [by rewrite S3|done|].
  eexists. split.
  { unfold reconcile. unfold_steps. fold loc R A. rewrite Hrun1.
    fold s2. rewrite Hr3, Hr4, Hrun2. exact Hrun3. }
  split; [|scene_simpl; unfold s4, s3, s2 in M2; scene_simpl; congruence].
  destruct T2 as (Tv & Tnd & Tpg).
  unfold consistent. scene_simpl. split_and!; try done.
  - rewrite Tpg. f_equal. by apply sorted_eq_iff.
  - intros n r. rewrite L2, N2. apply Hcur2.
  - intros n Hn. apply Hdom. by apply Hfolders.
  - rewrite S3. eauto.
  - rewrite S4. eauto.
Qed.

Lemma consistent_validated (s : scene) (names : list string) (n1 n2 : source_network)
    (geo1 geo2 : geometry) :
  consistent s names → consistent (validated s n1 n2 geo1 geo2) names.
Proof.
  intros (Hv & Hnd & Hpg & Hnodes & Hfo & _ & _ & Hout).
  unfold consistent, validated. scene_simpl. split_and!; try done; eauto.
Qed.

(** C2: from an empty list of names the update does not converge.
    [update_network] reads the old names with [split] on the stored string,
    which for the empty string gives the one empty name, where
    [get_current_prim_groups] reads no name.  With the new meshes validated
    the removal loop looks for the groups of the empty name, finds no node
    and raises: the list stays empty and no group of the new name is
    made. *)
Lemma update_network_from_empty_raises :
  let s := example.with_files ["door"] ["door"] example.emptied in
  prim_groups (control s) = ""
  ∧ get_current_prim_groups (control s) = None
  ∧ Py.split " " (prim_groups (control s)) = [""]
  ∧ (primitive_groups_match ["door"] ["door"]).1 = true
  ∧ ∃ s', update_network s = Raise AttributeError s'
      ∧ prim_groups (control s') = ""
      ∧ bake_groups s' !! "/obj/door_retopo" = None.
Proof.
  split_and!; [reflexivity..|].
  eexists. split; [vm_compute; reflexivity|].
  split; reflexivity.
Qed.


Lemma example_network_consistent (retopo reference : geometry) :
  consistent (example.with_files retopo reference example.network) ["wheel"; "body"].
Proof.
  set (s := example.with_files retopo reference example.network).
  assert (Hloc : network_location (control s) = "/obj") by (vm_compute; reflexivity).
  assert (Hkeys : (map_to_list (bake_groups s)).*1
                  = [group_path "/obj" "wheel" Cage; group_path "/obj" "wheel" Reference;
                     group_path "/obj" "wheel" Retopo; group_path "/obj" "body" Cage;
                     group_path "/obj" "body" Reference; group_path "/obj" "body" Retopo])
    by (vm_compute; reflexivity).
  assert (Hprim : prim_groups (control s) = Py.join " " (Py.sorted ["wheel"; "body"]))
    by (vm_compute; reflexivity).
  assert (Hgroups : ∀ n r, n ∈ ["wheel"; "body"] →
                           is_Some (bake_groups s !! group_path "/obj" n r)).
  { intros n r Hn.
    apply elem_of_cons in Hn as [->|Hn];
      [destruct r; vm_compute; eexists; reflexivity|].
    apply elem_of_cons in Hn as [->|Hn];
      [destruct r; vm_compute; eexists; reflexivity|].
    apply elem_of_nil in Hn. destruct Hn. }
  assert (Hfolders : ∀ n, n ∈ ["wheel"; "body"] → is_Some (folders (control s) !! n)).
  { intros n Hn.
    apply elem_of_cons in Hn as [->|Hn]; [vm_compute; eexists; reflexivity|].
    apply elem_of_cons in Hn as [->|Hn]; [vm_compute; eexists; reflexivity|].
    apply elem_of_nil in Hn. destruct Hn. }
  assert (Hsrc1 : is_Some (retopo_source s)) by (vm_compute; eexists; reflexivity).
  assert (Hsrc2 : is_Some (reference_source s)) by (vm_compute; eexists; reflexivity).
  assert (Hout : ∀ r, is_Some (get_output r s))
    by (intros []; vm_compute; eexists; reflexivity).
  unfold consistent. rewrite Hloc.
  clearbody s.
  split_and!; [ | | exact Hprim | | exact Hfolders | exact Hsrc1 | exact Hsrc2 | exact Hout].
  - repeat constructor; done.
  - compute_done.
  - intros n r. split; [|apply Hgroups].
    intros [g Hg]. apply elem_of_map_to_list in Hg.
    apply (list_elem_of_fmap_2 fst) in Hg. rewrite Hkeys in Hg.
    change ((group_path "/obj" n r, g).1) with (group_path "/obj" n r) in Hg.
    repeat (apply elem_of_cons in Hg as [Hg|Hg];
            [apply group_path_inj in Hg as [-> _]; compute_done|]).
    apply elem_of_nil in Hg. destruct Hg.
Qed.


(** * Further properties *)

(** ** The validator, on arbitrary lists of group names *)

Lemma sorted_eq_perm l k : Py.sorted l = Py.sorted k ↔ l ≡ₚ k.
Proof.
  split; [|apply sorted_perm].
  intros H. unfold Py.sorted in H.
  by rewrite <- (merge_sort_Permutation String.le l), H, merge_sort_Permutation.
Qed.

(** X1: validation does not depend on which mesh is called retopo and which
    reference: swapping the two geometries gives the same verdict and shows
    the same message. *)
Theorem primitive_groups_match_sym (geo1 geo2 : geometry) :
  primitive_groups_match geo1 geo2 = primitive_groups_match geo2 geo1.
Proof.
  unfold primitive_groups_match.
  rewrite (Nat.eqb_sym (length geo2) (length geo1)).
  destruct (length geo1 =? length geo2)%nat eqn:E; simpl; [|done].
  apply Nat.eqb_eq in E. rewrite <- E.
  destruct (length geo1 =? 0)%nat; simpl; [done|].
  repeat case_decide; congruence.
Qed.

(** X2: validation compares the names with their multiplicities and without
    their order: it succeeds exactly when the first list of names is not
    empty and the second is a rearrangement of it. *)
Theorem primitive_groups_match_perm (geo1 geo2 : geometry) :
  (primitive_groups_match geo1 geo2).1 = true ↔ geo1 ≠ [] ∧ geo1 ≡ₚ geo2.
Proof. by rewrite primitive_groups_match_true, sorted_eq_perm. Qed.

(** ** File extensions *)

Lemma rev_app_app (s t acc : string) :
  String.rev_app (s +:+ t) acc = String.rev_app t (String.rev_app s acc).
Proof. revert acc. induction s as [|a s IH]; intros acc; [done|]. apply IH. Qed.

Lemma rev_app_rev_app (s t u : string) :
  String.rev_app (String.rev_app s t) u = String.rev_app t (s +:+ u).
Proof.
  revert t. induction s as [|a s IH]; intros t; [done|].
  cbn [String.rev_app]. by rewrite IH.
Qed.

Lemma rev_involutive (s : string) : String.rev (String.rev s) = s.
Proof. unfold String.rev. by rewrite rev_app_rev_app, app_empty_r. Qed.

Lemma rev_extension (base : string) (f b x : ascii) :
  String.rev (base +:+ String "." (String f (String b (String x ""))))
  = String x (String b (String f (String "." (String.rev base)))).
Proof. unfold String.rev. by rewrite rev_app_app. Qed.

Lemma stem_is_proper_name (name acc : string) :
  name ≠ "" → Py.free_of "/" name = true → Py.free_of "." name = true →
  stem_is_proper (String.rev_app name acc) = true.
Proof.
  revert acc. induction name as [|a name IH]; intros acc Hne Hs Hd; [done|].
  simpl in Hs, Hd.
  apply andb_prop in Hs as [Ha1%bool_decide_eq_true Hs].
  apply andb_prop in Hd as [Ha2%bool_decide_eq_true Hd].
  destruct name as [|c name].
  - simpl. by rewrite !decide_False.
  - by apply IH.
Qed.

(** X3: a path whose last component is a name without dots followed by the
    extension fbx, in any mix of upper and lower case, is taken for an FBX
    file, whatever directories come before. *)
Theorem is_path_fbx_accepts (dir name : string) (f b x : ascii) :
  name ≠ "" → Py.free_of "/" name = true → Py.free_of "." name = true →
  lower f = "f"%char → lower b = "b"%char → lower x = "x"%char →
  is_path_fbx (dir +:+ name +:+ String "." (String f (String b (String x "")))) = true.
Proof.
  intros Hne Hs Hd Hf Hb Hx. unfold is_path_fbx.
  rewrite <- app_assoc', rev_extension, Hf, Hb, Hx.
  rewrite !bool_decide_eq_true_2 by done. simpl.
  unfold String.rev. rewrite rev_app_app. by apply stem_is_proper_name.
Qed.

Lemma is_path_fbx_accepts_witness :
  is_path_fbx "/geo_bake/out_retopo.FBX" = true.
Proof.
  apply (is_path_fbx_accepts "/geo_bake/" "out_retopo" "F" "B" "X");
    first [done | reflexivity].
Defined.

(** X4: only the extension counts, and a leading dot does not start one: a
    path taken for an FBX file ends in a dot and the three letters, with
    something before the dot; a file named just [.fbx], in any directory,
    is not taken for one. *)
Theorem is_path_fbx_only_extension :
  (∀ path, is_path_fbx path = true →
     ∃ base f b x, path = base +:+ String "." (String f (String b (String x "")))
       ∧ base ≠ "" ∧ lower f = "f"%char ∧ lower b = "b"%char ∧ lower x = "x"%char)
  ∧ (∀ dir, is_path_fbx (dir +:+ "/.fbx") = false)
  ∧ is_path_fbx ".fbx" = false.
Proof.
  split_and!; [|intros dir|done].
  - intros path H. unfold is_path_fbx in H.
    destruct (String.rev path) as [|x [|b [|f [|d rest]]]] eqn:Hrev; try done.
    repeat (apply andb_prop in H as [H ?]).
    repeat match goal with Hb : bool_decide _ = true |- _ =>
      apply bool_decide_eq_true in Hb end.
    subst d.
    exists (String.rev rest), f, b, x. split_and!; try done.
    + rewrite <- (rev_involutive path), Hrev.
      by rewrite <- (rev_involutive rest) at 1; rewrite <- rev_extension, rev_involutive.
    + intros Hrest. apply (f_equal String.rev) in Hrest.
      rewrite rev_involutive in Hrest. by subst rest.
  - unfold is_path_fbx.
    change (dir +:+ "/.fbx") with (dir +:+ ("/" +:+ ".fbx")).
    rewrite <- app_assoc', rev_extension. simpl.
    unfold String.rev. by rewrite rev_app_app.
Qed.

Lemma is_path_fbx_only_extension_witness :
  ∃ base f b x, "a/b.Fbx" = base +:+ String "." (String f (String b (String x "")))
    ∧ base ≠ "".
Proof.
  destruct is_path_fbx_only_extension as [H _].
  destruct (H "a/b.Fbx" eq_refl) as (base & f & b & x & Hp & Hb & _).
  exists base, f, b, x. split; [exact Hp|exact Hb].
Defined.

(** ** The current prim-group list as a set of names *)

Lemma remove_cons_perm (x : string) (l : list string) : x ∈ l → x :: Py.remove x l ≡ₚ l.
Proof.
  induction l as [|y l IH]; [by intros ?%elem_of_nil|].
  intros Hx. simpl. case_decide as Hxy; [by subst|].
  apply elem_of_cons in Hx as [?|Hx]; [done|].
  by rewrite Permutation_swap, IH.
Qed.

Lemma filter_ne_absent (x : string) (l : list string) :
  x ∉ l → filter (λ y, y ≠ x) l = l.
Proof.
  induction l as [|y l IH]; [done|].
  intros [Hxy Hx]%not_elem_of_cons.
  rewrite filter_cons_True by done. by rewrite IH.
Qed.

Lemma remove_filter_perm (x : string) (l : list string) :
  NoDup l → Py.remove x l ≡ₚ filter (λ y, y ≠ x) l.
Proof.
  induction 1 as [|y l Hy Hl IH]; [done|]. simpl.
  case_decide as Hxy.
  - subst y. rewrite filter_cons_False by naive_solver.
    by rewrite filter_ne_absent.
  - rewrite filter_cons_True by done. by rewrite IH.
Qed.

Lemma add_sets_prim_groups (c : control_parms) (n : string) :
  add_to_current_prim_groups c n
  = set_prim_groups (prim_groups (add_to_current_prim_groups c n)) c.
Proof. done. Qed.

Lemma remove_sets_prim_groups (c : control_parms) (n : string) :
  remove_from_current_prim_groups c n
  = set_prim_groups (prim_groups (remove_from_current_prim_groups c n)) c.
Proof.
  unfold remove_from_current_prim_groups.
  destruct (get_current_prim_groups c); [case_decide|]; by rewrite ?set_prim_groups_id.
Qed.

(** X5: what was stored is what is read back: after
    [set_current_prim_groups] with partition names, reading the list gives
    those names in ascending order, and [None] when no name was given. *)
Theorem set_get_current_prim_groups (control_node : control_parms) (names : list string) :
  Forall valid_name names →
  get_current_prim_groups (set_current_prim_groups control_node names)
  = if decide (names = []) then None else Some (Py.sorted names).
Proof.
  intros Hv. unfold get_current_prim_groups, set_current_prim_groups. simpl.
  case_decide as Hj.
  - apply join_valid_empty, sorted_nil_inv in Hj; [|by apply sorted_Forall].
    by rewrite decide_True.
  - case_decide as Hn; [by subst|].
    rewrite split_join; [done| |by apply valid_name_free, sorted_Forall].
    by intros ?%sorted_nil_inv.
Qed.

Lemma set_get_current_prim_groups_witness :
  get_current_prim_groups
    (set_current_prim_groups example.control_node ["wheel"; "body"])
  = Some ["body"; "wheel"].
Proof.
  assert (Hv : Forall valid_name ["wheel"; "body"]) by (repeat constructor; done).
  exact (set_get_current_prim_groups example.control_node ["wheel"; "body"] Hv).
Defined.

Lemma current_names_add (c : control_parms) (names : list string) (n : string) :
  Forall valid_name names → prim_groups c = Py.join " " (Py.sorted names) → valid_name n →
  current_names (add_to_current_prim_groups c n)
  = Py.sorted (if decide (n ∈ names) then names else n :: names).
Proof.
  intros Hv Hpg Hn. case_decide as Hin.
  - rewrite add_to_current_prim_groups_present.
    + by apply current_names_serialized.
    + by exists names.
    + rewrite (current_names_serialized c names) by done. by apply sorted_elem_of.
  - rewrite (current_names_serialized _ (Py.sorted names ++ [n])).
    + apply sorted_perm. rewrite <- Permutation_cons_append.
      constructor. unfold Py.sorted. apply merge_sort_Permutation.
    + apply Forall_app. split; [by apply sorted_Forall|by constructor].
    + by apply tracks_add.
Qed.

Lemma current_names_remove (c : control_parms) (names : list string) (n : string) :
  Forall valid_name names → NoDup names → prim_groups c = Py.join " " (Py.sorted names) →
  current_names (remove_from_current_prim_groups c n)
  = Py.sorted (filter (λ x, x ≠ n) names).
Proof.
  intros Hv Hnd Hpg. destruct (decide (n ∈ names)) as [Hin|Hin].
  - rewrite (current_names_serialized _ (Py.remove n (Py.sorted names))).
    + apply sorted_perm. rewrite remove_filter_perm by by apply sorted_NoDup.
      apply filter_Permutation. unfold Py.sorted. apply merge_sort_Permutation.
    + by apply remove_Forall, sorted_Forall.
    + by apply tracks_remove.
  - rewrite remove_from_current_prim_groups_absent.
    + rewrite filter_ne_absent by done. by apply current_names_serialized.
    + rewrite (current_names_serialized c names) by done. by rewrite sorted_elem_of.
Qed.

(** X6: on a list the tool has written, adding and removing are insertion
    into and deletion from a set of names: the list read back after adding
    [n] holds [n] and the old names, the list read back after removing [n]
    holds the old names but [n], each name once and in ascending order. *)
Theorem current_prim_groups_set_operations (control_node : control_parms)
    (names : list string) (n : string) :
  Forall valid_name names → NoDup names →
  prim_groups control_node = Py.join " " (Py.sorted names) → valid_name n →
  let added := default [] (get_current_prim_groups (add_to_current_prim_groups control_node n)) in
  let removed :=
    default [] (get_current_prim_groups (remove_from_current_prim_groups control_node n)) in
  (∀ x, x ∈ added ↔ x = n ∨ x ∈ names)
  ∧ (∀ x, x ∈ removed ↔ x ∈ names ∧ x ≠ n)
  ∧ NoDup added ∧ NoDup removed
  ∧ Sorted String.le added ∧ Sorted String.le removed.
Proof.
  intros Hv Hnd Hpg Hn added removed.
  assert (Ha : added = Py.sorted (if decide (n ∈ names) then names else n :: names))
    by by apply current_names_add.
  assert (Hr : removed = Py.sorted (filter (λ x, x ≠ n) names))
    by by apply current_names_remove.
  rewrite Ha, Hr. split_and!.
  - intros x. rewrite sorted_elem_of. case_decide; set_solver.
  - intros x. by rewrite sorted_elem_of, list_elem_of_filter, (comm and).
  - apply sorted_NoDup. case_decide; [done|]. by constructor.
  - by apply sorted_NoDup, NoDup_filter.
  - apply Sorted_merge_sort, _.
  - apply Sorted_merge_sort, _.
Qed.

Lemma current_prim_groups_set_operations_witness :
  let c := ControlParms "/obj" "" "" "" "" "body wheel" ∅ false in
  "door" ∈ default [] (get_current_prim_groups (add_to_current_prim_groups c "door"))
  ∧ "wheel" ∉ default [] (get_current_prim_groups (remove_from_current_prim_groups c "wheel")).
Proof.
  intros c.
  assert (Hv : Forall valid_name ["wheel"; "body"]) by (repeat constructor; done).
  assert (Hnd : NoDup ["wheel"; "body"]) by compute_done.
  assert (Hpg : prim_groups c = Py.join " " (Py.sorted ["wheel"; "body"])) by reflexivity.
  assert (Hn1 : valid_name "door") by done.
  assert (Hn2 : valid_name "wheel") by done.
  split.
  - apply (current_prim_groups_set_operations c ["wheel"; "body"] "door" Hv Hnd Hpg Hn1).
    by left.
  - intros H.
    apply (current_prim_groups_set_operations c ["wheel"; "body"] "wheel" Hv Hnd Hpg Hn2) in H.
    by destruct H as [_ H].
Defined.

(** X7: adding a name and removing it again, or removing a name and adding
    it again, gives back the control node as it was, on a list the tool has
    written. *)
Theorem current_prim_groups_round_trip (control_node : control_parms)
    (names : list string) (n : string) :
  Forall valid_name names → NoDup names →
  prim_groups control_node = Py.join " " (Py.sorted names) → valid_name n →
  (n ∉ names →
     remove_from_current_prim_groups (add_to_current_prim_groups control_node n) n
     = control_node)
  ∧ (n ∈ names →
       add_to_current_prim_groups (remove_from_current_prim_groups control_node n) n
       = control_node).
Proof.
  intros Hv Hnd Hpg Hn. split; intros Hin.
  - set (c' := add_to_current_prim_groups control_node n).
    assert (Hpg' : prim_groups c' = Py.join " " (Py.sorted (Py.sorted names ++ [n])))
      by by apply tracks_add.
    assert (Hv' : Forall valid_name (Py.sorted names ++ [n])).
    { apply Forall_app. split; [by apply sorted_Forall|by constructor]. }
    rewrite remove_sets_prim_groups.
    rewrite (tracks_remove c' _ n Hv' Hpg') by set_solver.
    unfold c'. rewrite add_sets_prim_groups, set_prim_groups_twice.
    transitivity (set_prim_groups (prim_groups control_node) control_node);
      [|apply set_prim_groups_id].
    rewrite Hpg. f_equal. f_equal. apply sorted_perm.
    apply (Permutation_cons_inv (a := n)).
    etrans; [apply remove_cons_perm; rewrite sorted_elem_of; set_solver|].
    unfold Py.sorted. rewrite !merge_sort_Permutation.
    by rewrite <- Permutation_cons_append.
  - set (c' := remove_from_current_prim_groups control_node n).
    assert (Hpg' : prim_groups c' = Py.join " " (Py.sorted (Py.remove n (Py.sorted names))))
      by by apply tracks_remove.
    assert (Hv' : Forall valid_name (Py.remove n (Py.sorted names)))
      by by apply remove_Forall, sorted_Forall.
    rewrite add_sets_prim_groups.
    rewrite (tracks_add c' _ n Hv' Hpg').
    2:{ rewrite remove_elem_of by by apply sorted_NoDup. naive_solver. }
    unfold c'. rewrite remove_sets_prim_groups, set_prim_groups_twice.
    transitivity (set_prim_groups (prim_groups control_node) control_node);
      [|apply set_prim_groups_id].
    rewrite Hpg. f_equal. f_equal. apply sorted_perm.
    rewrite <- Permutation_cons_append.
    etrans; [|apply (merge_sort_Permutation String.le)].
    etrans; [|apply (remove_cons_perm n); by rewrite sorted_elem_of].
    constructor. unfold Py.sorted. by rewrite !merge_sort_Permutation.
Qed.

Lemma current_prim_groups_round_trip_witness :
  let c := ControlParms "/obj" "" "" "" "" "body wheel" ∅ false in
  remove_from_current_prim_groups (add_to_current_prim_groups c "door") "door" = c
  ∧ add_to_current_prim_groups (remove_from_current_prim_groups c "body") "body" = c.
Proof.
  intros c.
  assert (Hv : Forall valid_name ["wheel"; "body"]) by (repeat constructor; done).
  assert (Hnd : NoDup ["wheel"; "body"]) by compute_done.
  assert (Hpg : prim_groups c = Py.join " " (Py.sorted ["wheel"; "body"])) by reflexivity.
  assert (Hn1 : valid_name "door") by done.
  assert (Hn2 : valid_name "body") by done.
  split.
  - apply (current_prim_groups_round_trip c ["wheel"; "body"] "door" Hv Hnd Hpg Hn1).
    compute_done.
  - apply (current_prim_groups_round_trip c ["wheel"; "body"] "body" Hv Hnd Hpg Hn2).
    compute_done.
Defined.

(** ** Aggregators: which reference goes, and adding one back *)

(** The instance [remove_from_multiparm] removes, given where the first
    reference holding the value stands. *)
Lemma remove_from_multiparm_at (multi_parm : list merge_entry) (value : string)
    (k : nat) (e : merge_entry) :
  multi_parm !! k = Some e → Py.is_infix value (me_objpath e) = true →
  (∀ j e', j < k → multi_parm !! j = Some e' →
     Py.is_infix value (me_objpath e') = false) →
  remove_from_multiparm multi_parm "objpath" value
  = take ((k + 1) / 4) multi_parm ++ drop (S ((k + 1) / 4)) multi_parm.
Proof.
  intros Hk He Hbefore. rewrite remove_from_multiparm_unfold.
  assert (Hf : list_find (λ e, Py.is_infix value (me_objpath e) = true) multi_parm
               = Some (k, e)).
  { apply list_find_Some. split_and!; [done..|].
    intros j y Hj Hlt. by rewrite (Hbefore j y Hlt Hj). }
  by rewrite Hf.
Qed.

(** X8: which reference [remove_from_multiparm] removes.  With the reference
    asked for at place k of the aggregator, counted from 0, and its path
    part of no earlier reference, the instance at place (k + 1) / 4 is the
    one removed: the index of the instance, which is the number k + 1 in the
    name of its parameter, is divided by 4.  So the reference asked for goes
    only when it is the first, and then the others stay in their order; from
    the second place on an earlier reference is removed and the one asked
    for stays, one place down. *)
Theorem remove_from_multiparm_index (multi_parm : list merge_entry) (value : string)
    (k : nat) (e : merge_entry) :
  multi_parm !! k = Some e → me_objpath e = value →
  (∀ j e', j < k → multi_parm !! j = Some e' →
     Py.is_infix value (me_objpath e') = false) →
  let result := remove_from_multiparm multi_parm "objpath" value in
  result = take ((k + 1) / 4) multi_parm ++ drop (S ((k + 1) / 4)) multi_parm
  ∧ (k = 0 → result = drop 1 multi_parm)
  ∧ (0 < k → (k + 1) / 4 < k ∧ result !! (k - 1) = Some e).
Proof.
  intros Hk He Hbefore result.
  assert (Hres : result = take ((k + 1) / 4) multi_parm ++ drop (S ((k + 1) / 4)) multi_parm).
  { apply (remove_from_multiparm_at multi_parm value k e); [done| |done].
    rewrite He. apply is_infix_refl. }
  split_and!; [done| |].
  - intros ->. by rewrite Hres.
  - intros Hpos. pose proof (removed_index_lt k Hpos) as Hlt.
    pose proof (lookup_lt_Some _ _ _ Hk) as Hlen.
    split; [done|].
    rewrite Hres, lookup_app_r by (rewrite length_take; lia).
    rewrite length_take, lookup_drop, <- Hk. f_equal. lia.
Qed.

Lemma remove_from_multiparm_index_witness :
  let multi_parm := [ MergeEntry true "/obj/body_cage" "" false;
                      MergeEntry true "/obj/door_cage" "" false;
                      MergeEntry true "/obj/wheel_cage" "" false ] in
  let result := remove_from_multiparm multi_parm "objpath" "/obj/door_cage" in
  result = [ MergeEntry true "/obj/door_cage" "" false;
             MergeEntry true "/obj/wheel_cage" "" false ]
  ∧ result !! 0 = Some (MergeEntry true "/obj/door_cage" "" false).
Proof.
  intros multi_parm result.
  assert (Hk : multi_parm !! 1 = Some (MergeEntry true "/obj/door_cage" "" false))
    by reflexivity.
  assert (Hbefore : ∀ j e', j < 1 → multi_parm !! j = Some e' →
            Py.is_infix "/obj/door_cage" (me_objpath e') = false).
  { intros j e' Hj He'. destruct j as [|j]; [|lia].
    injection He' as <-. reflexivity. }
  destruct (remove_from_multiparm_index multi_parm "/obj/door_cage" 1 _ Hk eq_refl Hbefore)
    as (Hres & _ & Hstays).
  split; [exact Hres|]. apply Hstays. lia.
Defined.

Lemma add_reference_append (multi_parm : list merge_entry) (path : string) :
  set_objpath (length multi_parm + 1) path (set_numobj (length multi_parm + 1) multi_parm)
  = multi_parm ++ [MergeEntry true path "" false].
Proof.
  unfold set_objpath, set_numobj.
  rewrite take_ge by lia.
  replace (length multi_parm + 1 - length multi_parm)%nat with 1%nat by lia.
  replace (length multi_parm + 1 - 1)%nat with (length multi_parm + 0)%nat by lia.
  simpl. by rewrite alter_app_r.
Qed.

(** X9: the way the update adds a reference to an aggregator (one more
    instance, its path set) puts it last, and asking for its removal
    afterwards gives back the aggregator only when that was empty.  On an
    aggregator of n references, n at least 1 and none holding the path, the
    reference just added stays, last, and the old reference at place
    (n + 1) / 4 is the one removed. *)
Theorem add_remove_reference (multi_parm : list merge_entry) (path : string) :
  Forall (λ e, Py.is_infix path (me_objpath e) = false) multi_parm →
  let n := length multi_parm in
  let numobj := (n + 1)%nat in
  let added := set_objpath numobj path (set_numobj numobj multi_parm) in
  let result := remove_from_multiparm added "objpath" path in
  added = multi_parm ++ [MergeEntry true path "" false]
  ∧ (multi_parm = [] → result = [])
  ∧ (multi_parm ≠ [] →
       result = take ((n + 1) / 4) multi_parm ++ drop (S ((n + 1) / 4)) multi_parm
                ++ [MergeEntry true path "" false]).
Proof.
  intros Hfree n numobj added result.
  assert (Ha : added = multi_parm ++ [MergeEntry true path "" false])
    by apply add_reference_append.
  assert (Hres : result = take ((n + 1) / 4) added ++ drop (S ((n + 1) / 4)) added).
  { apply (remove_from_multiparm_at added path n (MergeEntry true path "" false)).
    - rewrite Ha. apply list_lookup_middle. done.
    - apply is_infix_refl.
    - intros j e' Hj He'. rewrite Ha, lookup_app_l in He' by done.
      rewrite Forall_forall in Hfree. apply Hfree. by eapply list_elem_of_lookup_2. }
  split_and!; [done| |].
  - intros Hnil. rewrite Hres, Ha. unfold n. rewrite Hnil. reflexivity.
  - intros Hne.
    assert (Hpos : 0 < n) by (unfold n; destruct multi_parm; [done|simpl; lia]).
    pose proof (removed_index_lt n Hpos) as Hlt.
    rewrite Hres, Ha.
    rewrite take_app_le by (fold n; lia).
    rewrite drop_app_le by (fold n; lia).
    reflexivity.
Qed.

Lemma add_remove_reference_witness :
  let multi_parm := [MergeEntry true "/obj/body_cage" "" false] in
  remove_from_multiparm
    (set_objpath 2 "/obj/door_cage" (set_numobj 2 multi_parm)) "objpath" "/obj/door_cage"
  = [MergeEntry true "/obj/door_cage" "" false].
Proof.
  intros multi_parm.
  assert (H : Forall (λ e, Py.is_infix "/obj/door_cage" (me_objpath e) = false) multi_parm)
    by (repeat constructor).
  assert (Hne : multi_parm ≠ []) by discriminate.
  exact (proj2 (proj2 (add_remove_reference multi_parm "/obj/door_cage" H)) Hne).
Defined.

(** ** The correspondence transform: equal point counts, attributes, groups *)

Lemma pattern_matches_all (name : string) : pattern_matches "*" name = true.
Proof.
  unfold pattern_matches. change (Py.split " " "*") with ["*"].
  cbn [existsb]. rewrite (bool_decide_eq_true_2 ("*" = "*")) by done.
  by rewrite (bool_decide_eq_false_2 ("*" = "^" +:+ name)) by done.
Qed.

Lemma pattern_matches_point_attribs (name : string) :
  pattern_matches "* ^P ^N" name = false ↔ name = "P" ∨ name = "N".
Proof.
  unfold pattern_matches.
  change (Py.split " " "* ^P ^N") with ["*"; "^P"; "^N"].
  cbn [existsb]. rewrite (bool_decide_eq_true_2 ("*" = "*")) by done.
  rewrite (bool_decide_eq_false_2 ("*" = "^" +:+ name)) by done.
  cbn [orb andb]. rewrite orb_false_r, negb_false_iff, orb_true_iff, !bool_decide_eq_true.
  change ("^" +:+ name) with (String "^" name).
  split; (intros [H|H]; [left|right]); congruence.
Qed.

Lemma pattern_matches_vertex_attribs (name : string) :
  pattern_matches "* ^N ^uv" name = false ↔ name = "N" ∨ name = "uv".
Proof.
  unfold pattern_matches.
  change (Py.split " " "* ^N ^uv") with ["*"; "^N"; "^uv"].
  cbn [existsb]. rewrite (bool_decide_eq_true_2 ("*" = "*")) by done.
  rewrite (bool_decide_eq_false_2 ("*" = "^" +:+ name)) by done.
  cbn [orb andb]. rewrite orb_false_r, negb_false_iff, orb_true_iff, !bool_decide_eq_true.
  change ("^" +:+ name) with (String "^" name).
  split; (intros [H|H]; [left|right]); congruence.
Qed.

Lemma delete_matching_all (names : list string) : delete_matching "*" names = [].
Proof.
  unfold delete_matching. induction names as [|n names IH]; [done|].
  rewrite filter_cons_False; [done|]. by rewrite pattern_matches_all.
Qed.

Lemma elem_of_add_name (x n : string) (l : list string) :
  x ∈ add_name n l ↔ x = n ∨ x ∈ l.
Proof. unfold add_name. case_decide; set_solver. Qed.

Lemma elem_of_foldl_add_name (x : string) (l acc : list string) :
  x ∈ foldl (λ acc g, add_name g acc) acc l ↔ x ∈ acc ∨ x ∈ l.
Proof.
  revert acc. induction l as [|g l IH]; intros acc; simpl; [set_solver|].
  rewrite IH, elem_of_add_name. set_solver.
Qed.

(** X10: with as many points in the position donor as in the topology donor
    the transform is exact: the mesh it yields has, point for point, the
    positions of the position donor, on the primitives of the topology
    donor. *)
Theorem correspond_same_point_count (positionDonor topologyDonor : mesh) :
  length (points positionDonor) = length (points topologyDonor) →
  ∃ r, correspond positionDonor topologyDonor = Some r
    ∧ points r = points positionDonor
    ∧ prims r = prims topologyDonor.
Proof.
  intros Hlen. eexists. split; [apply correspond_unfold|]. split; [|done]. simpl.
  apply list_eq. intros i. rewrite list_lookup_imap. unfold pointattrib_P.
  destruct (points positionDonor !! i) as [p|] eqn:Hp.
  - apply lookup_lt_Some in Hp as Hi. rewrite Hlen in Hi.
    by apply lookup_lt_is_Some in Hi as [q ->].
  - apply lookup_ge_None in Hp. rewrite Hlen in Hp.
    by rewrite (lookup_ge_None_2 _ _ Hp).
Qed.

Lemma correspond_same_point_count_witness :
  let p := Vector3 (QArith_base.Qmake 2 1) (QArith_base.Qmake 3 1) (QArith_base.Qmake 5 1) in
  let q := Vector3 (QArith_base.Qmake 1 1) (QArith_base.Qmake 1 1) (QArith_base.Qmake 1 1) in
  let positionDonor := Mesh [p; q] [] [] [] [] [[0; 1]] [] in
  let topologyDonor := Mesh [q; q] [] [] [] [] [[1; 0]] [] in
  ∃ r, correspond positionDonor topologyDonor = Some r ∧ points r = [p; q].
Proof.
  intros p q positionDonor topologyDonor.
  destruct (correspond_same_point_count positionDonor topologyDonor eq_refl)
    as (r & Hr & Hp & _).
  exists r. split; [exact Hr|exact Hp].
Defined.

(** X11: what the transform lets through besides positions and primitives.
    Of the topology donor's attributes only [P] and [N] on points and [N]
    and [uv] on vertices remain, with a vertex normal always there, and no
    primitive or detail attribute; of its groups none remains: the groups
    of the result are those of the position donor. *)
Theorem correspond_attributes_and_groups (positionDonor topologyDonor : mesh) :
  ∃ r, correspond positionDonor topologyDonor = Some r
    ∧ (∀ a, a ∈ point_attribs r ↔ a ∈ point_attribs topologyDonor ∧ (a = "P" ∨ a = "N"))
    ∧ (∀ a, a ∈ vertex_attribs r ↔ a = "N" ∨ (a = "uv" ∧ a ∈ vertex_attribs topologyDonor))
    ∧ prim_attribs r = [] ∧ detail_attribs r = []
    ∧ (∀ g, g ∈ groups r ↔ g ∈ groups positionDonor).
Proof.
  eexists. split; [apply correspond_unfold|]. simpl. split_and!.
  - intros a. unfold delete_matching.
    by rewrite list_elem_of_filter, pattern_matches_point_attribs, (comm and).
  - intros a. unfold delete_matching.
    rewrite elem_of_add_name, list_elem_of_filter, pattern_matches_vertex_attribs.
    naive_solver.
  - apply delete_matching_all.
  - apply delete_matching_all.
  - intros g. rewrite elem_of_foldl_add_name, delete_matching_all, list_elem_of_filter.
    rewrite pattern_matches_all. set_solver.
Qed.

(** ** create_network builds the network *)

Lemma same_surroundings_refl (s : scene) : same_surroundings s s.
Proof. by repeat split. Qed.

Lemma same_surroundings_trans (s1 s2 s3 : scene) :
  same_surroundings s1 s2 → same_surroundings s2 s3 → same_surroundings s1 s3.
Proof.
  unfold same_surroundings. intros H1 H2. destruct_and!.
  split_and!; congruence.
Qed.

Lemma create_bundle_ok (loc c : string) (geo2 : geometry) (s : scene) (m1 : source_network) :
  network_location (control s) = loc →
  retopo_source s = Some m1 → c ∈ geo2 →
  (∀ r, bake_groups s !! group_path loc c r = None) →
  ∃ s', create_bundle geo2 c s = Ok tt s'
    ∧ prim_groups (control s') = prim_groups (add_to_current_prim_groups (control s) c)
    ∧ (∀ n, n ≠ c → folders (control s') !! n = folders (control s) !! n)
    ∧ (∀ p, (∀ r, p ≠ group_path loc c r) → bake_groups s' !! p = bake_groups s !! p)
    ∧ built s' c (Py.sorted (sn_geo m1))
    ∧ same_surroundings s s'.
Proof.
  intros Hloc Hs1 Hc2 Hnone.
  pose proof (Hnone Retopo) as Hn1.
  pose proof (Hnone Reference) as Hn2.
  pose proof (Hnone Cage) as Hn3.
  unfold create_bundle, create_retopo_group, create_reference_group, create_cage_group,
    set_display_flag, set_input.
  unfold_steps.
  repeat (progress (scene_simpl;
    rewrite ?Hs1, ?(findPrimGroup_in _ _ Hc2), ?Hloc,
      ?create_object_eq, ?lookup_insert_eq, ?folders_add, ?network_location_add;
    rewrite ?lookup_alter_ne, ?lookup_insert_ne by (by apply group_path_role_ne);
    rewrite ?Hn1, ?Hn2, ?Hn3)).
  eexists. split; [reflexivity|].
  unfold built, same_surroundings.
  split_and!; scene_simpl; rewrite ?add_set_folders; scene_simpl;
    rewrite ?network_location_add, ?folders_add, ?Hloc; scene_simpl; try done.
  - intros n Hn. by rewrite !lookup_insert_ne.
  - intros p Hp.
    repeat (first [ rewrite lookup_alter_ne by (by apply not_eq_sym)
                  | rewrite lookup_insert_ne by (by apply not_eq_sym) ]).
    done.
  - rewrite !lookup_alter_ne, lookup_insert_ne, lookup_alter_ne, lookup_insert_ne,
      lookup_alter_eq, lookup_insert_eq by (by apply group_path_role_ne). done.
  - rewrite lookup_alter_ne, lookup_alter_eq, lookup_alter_ne, lookup_insert_ne,
      lookup_alter_eq, lookup_insert_eq by (by apply group_path_role_ne). done.
  - rewrite lookup_alter_eq, lookup_alter_ne, lookup_alter_eq, lookup_insert_eq
      by (by apply group_path_role_ne). done.
  - by rewrite lookup_insert_eq.
Qed.

(** The creation loop, from a scene with none of the groups it makes. *)
Lemma creation_loop (loc : string) (geo2 : geometry) (m1 : source_network)
    (rest : list string) :
  ∀ (s : scene) (cur : list string),
  network_location (control s) = loc →
  tracks s cur →
  retopo_source s = Some m1 →
  NoDup rest → Forall valid_name rest →
  (∀ x, x ∈ rest → x ∉ cur ∧ x ∈ geo2) →
  (∀ n r, is_Some (bake_groups s !! group_path loc n r) ↔ n ∈ cur) →
  ∃ s' cur',
    for_each rest (create_bundle geo2) s = Ok tt s'
    ∧ tracks s' cur'
    ∧ (∀ x, x ∈ cur' ↔ x ∈ cur ∨ x ∈ rest)
    ∧ (∀ n r, is_Some (bake_groups s' !! group_path loc n r) ↔ n ∈ cur')
    ∧ (∀ n, n ∈ rest → built s' n (Py.sorted (sn_geo m1)))
    ∧ (∀ n, n ∉ rest → folders (control s') !! n = folders (control s) !! n)
    ∧ (∀ p, (∀ n r, n ∈ rest → p ≠ group_path loc n r) →
         bake_groups s' !! p = bake_groups s !! p)
    ∧ same_surroundings s s'.
Proof.
  induction rest as [|x rest IH]; intros s cur Hloc Htr Hs1 Hnd Hval Hnew Hnodes.
  - exists s, cur.
    split_and!;
      first [ done | apply same_surroundings_refl | intros x; set_solver
            | intros n Hn; by apply elem_of_nil in Hn ].
  - apply NoDup_cons in Hnd as [Hx Hnd].
    apply Forall_cons in Hval as [Hxv Hval].
    destruct (Hnew x) as (Hxc & Hx2); [by left|].
    destruct Htr as (Hv & Hcnd & Hpg).
    destruct (create_bundle_ok loc x geo2 s m1) as (s1 & Hrun1 & A1 & A2 & A3 & A4 & A5);
      try done.
    { intros r. apply eq_None_not_Some. by rewrite Hnodes. }
    pose proof A5 as (_ & _ & _ & As1 & _ & _ & _ & Aloc & _).
    unfold for_each in *. cbn [fold_m]. unfold mbind at 1, M_bind at 1. rewrite Hrun1.
    set (cur1 := Py.sorted cur ++ [x]).
    assert (Hcur1 : ∀ n, n ∈ cur1 ↔ n ∈ cur ∨ n = x).
    { intros n. unfold cur1. rewrite elem_of_app, sorted_elem_of, list_elem_of_singleton.
      done. }
    destruct (IH s1 cur1) as (s' & cur' & Hrun & H2 & H3 & H4 & H5 & H6 & H7 & H8);
      clear IH; try done.
    + congruence.
    + split_and!.
      * apply Forall_app. split; [by apply sorted_Forall|by constructor].
      * apply NoDup_app. split_and!; [by apply sorted_NoDup| |apply NoDup_singleton].
        intros y Hy ->%list_elem_of_singleton. by rewrite sorted_elem_of in Hy.
      * rewrite A1. by apply tracks_add.
    + congruence.
    + intros y Hy. destruct (Hnew y) as (Hyc & Hy2); [by right|].
      split; [|done]. rewrite Hcur1. intros [?| ->]; done.
    + intros n r. rewrite Hcur1. destruct (decide (n = x)) as [->|Hne].
      * split; [by right|]. intros _.
        destruct A4 as (B1 & B2 & B3 & _). rewrite Aloc, Hloc in B1, B2, B3.
        destruct r; by eexists.
      * rewrite A3 by (intros r'; by apply group_path_ne).
        rewrite Hnodes. naive_solver.
    + pose proof H8 as (_ & _ & _ & _ & _ & _ & _ & Hloc' & _).
      exists s', cur'. split_and!; try done.
      * intros y. rewrite H3, Hcur1, elem_of_cons. naive_solver.
      * intros n [->|Hn]%elem_of_cons; [|by apply H5].
        destruct A4 as (B1 & B2 & B3 & B4). unfold built.
        rewrite Hloc', Aloc, Hloc. rewrite Aloc, Hloc in B1, B2, B3.
        rewrite !H7, H6 by (first [done | intros n r Hn; by apply group_path_ne, not_eq_sym;
                                           intros ->]).
        done.
      * intros n [Hne Hn]%not_elem_of_cons. rewrite (H6 n Hn). by apply A2.
      * intros p Hp. rewrite H7 by (intros n r Hn; apply Hp; by right).
        apply A3. intros r. apply Hp. by left.
      * by apply same_surroundings_trans with s1.
Qed.

Lemma import_path_exists (s s' : scene) (path : string) (geo : geometry) :
  disk s' = disk s → operators s' = operators s →
  import_geometry s path = Some geo → path_exists s' path = true.
Proof.
  unfold import_geometry, path_exists, hou_node. intros -> -> H.
  destruct (Py.startswith "op:/" path).
  - rewrite H. by rewrite (bool_decide_eq_true_2 (is_Some (Some geo))) by eauto.
  - rewrite H. apply bool_decide_eq_true. eauto.
Qed.

Lemma create_source_network_ok (k : source_id) (s : scene) :
  get_source k s = None →
  create_source_network k s
  = Ok tt (set_source k
      (Some (SourceNetwork (source_path_of k (control s))
               (default [] (import_geometry s (source_path_of k (control s))))
               "default.bgeo" []
               (is_path_fbx (retopo_source_path (control s)))
               (is_path_fbx (retopo_source_path (control s))))) s).
Proof. intros H. unfold create_source_network. by rewrite H. Qed.

Lemma create_output_group_ok (r : role) (s : scene) (m1 : source_network) :
  retopo_source s = Some m1 → get_output r s = None →
  create_output_group r s
  = Ok tt (set_output r
      (Some (output_entries (network_location (control s)) (Py.sorted (sn_geo m1)) r)) s).
Proof.
  intros H1 H2. unfold create_output_group. unfold_steps. by rewrite H1, H2.
Qed.

Lemma create_network_loaded (s : scene) (geo1 geo2 : geometry) :
  retopo_source s = None → reference_source s = None →
  import_geometry s (retopo_source_path (control s)) = Some geo1 →
  import_geometry s (reference_source_path (control s)) = Some geo2 →
  create_network s
  = (let verdict := primitive_groups_match geo1 geo2 in
     display_messages verdict.2;;
     if negb verdict.1
     then modify (set_source RetopoSource None);;
          modify (set_source ReferenceSource None);;
          raise SystemExit
     else for_each (Py.sorted geo1) (create_bundle geo2);;
          create_output_group Retopo;;
          create_output_group Reference;;
          create_output_group Cage;;
          modify_control (set_network_exists true)) (loaded s geo1 geo2).
Proof.
  intros Hs1 Hs2 Hg1 Hg2.
  set (p1 := retopo_source_path (control s)) in *.
  set (p2 := reference_source_path (control s)) in *.
  set (s1 := set_control (set_materials_parms "/mat/cage" "/mat/reference" (control s))
               (set_materials ({["/mat/reference"]} ∪ ({["/mat/cage"]} ∪ materials s)) s)).
  set (fbx := is_path_fbx p1).
  set (m1 := SourceNetwork p1 geo1 "default.bgeo" [] fbx fbx).
  set (m2 := SourceNetwork p2 geo2 "default.bgeo" [] fbx fbx).
  set (s2 := set_source RetopoSource (Some m1) s1).
  assert (He1 : path_exists s1 p1 = true) by by eapply (import_path_exists s).
  assert (He2 : path_exists s1 p2 = true) by by eapply (import_path_exists s).
  assert (Hc2 : create_source_network RetopoSource s1 = Ok tt s2).
  { rewrite create_source_network_ok by done. unfold s2, m1, fbx. cbn.
    fold p1. by rewrite (import_geometry_ext s s1), Hg1. }
  assert (Hc3 : create_source_network ReferenceSource s2 = Ok tt (loaded s geo1 geo2)).
  { rewrite create_source_network_ok by done. unfold loaded. cbn.
    fold p1 p2. by rewrite (import_geometry_ext s s2), Hg2. }
  unfold create_network. unfold mbind at 1, M_bind at 1. rewrite create_material_eq.
  unfold mbind at 1, M_bind at 1. rewrite create_material_eq.
  unfold mbind at 1, M_bind at 1. unfold modify_control at 1, modify at 1.
  unfold mbind at 1, M_bind at 1. unfold get at 1.
  scene_simpl.
  change ("/mat/" +:+ "cage") with "/mat/cage".
  change ("/mat/" +:+ "reference") with "/mat/reference".
  change (set_materials ({["/mat/reference"]} ∪ ({["/mat/cage"]} ∪ materials s))
            (set_materials ({["/mat/cage"]} ∪ materials s) s))
    with (set_materials ({["/mat/reference"]} ∪ ({["/mat/cage"]} ∪ materials s)) s).
  fold s1.
  change (retopo_source_path (set_materials_parms _ _ (control s))) with p1.
  change (reference_source_path (set_materials_parms _ _ (control s))) with p2.
  rewrite He1, He2. cbn [negb].
  unfold mbind at 1, M_bind at 1. rewrite Hc2.
  unfold mbind at 1, M_bind at 1. rewrite Hc3.
  reflexivity.
Qed.
(** X12: from a session without a network, whose two source paths load
    meshes with the same non-empty set of partition names, [create_network]
    succeeds and leaves a network for exactly those names: for each name
    the retopo, reference and cage objects, wired retopo to reference to
    cage, with only the cage displayed and the parameters at their
    defaults; the names on the control node; and three aggregators that
    list the objects of their role in ascending order of the names. *)
Theorem create_network_builds (s : scene) (geo1 geo2 : geometry) :
  retopo_source s = None → reference_source s = None →
  (∀ r, get_output r s = None) →
  prim_groups (control s) = "" →
  (∀ n r, bake_groups s !! group_path (network_location (control s)) n r = None) →
  import_geometry s (retopo_source_path (control s)) = Some geo1 →
  import_geometry s (reference_source_path (control s)) = Some geo2 →
  well_formed_geometry geo1 → well_formed_geometry geo2 → Forall valid_name geo1 →
  geo1 ≠ [] → (∀ x, x ∈ geo1 ↔ x ∈ geo2) →
  ∃ s', create_network s = Ok tt s'
    ∧ consistent s' geo1
    ∧ (∀ n, n ∈ geo1 → built s' n (Py.sorted geo1))
    ∧ (∀ r, get_output r s'
            = Some (output_entries (network_location (control s)) (Py.sorted geo1) r))
    ∧ network_exists (control s') = true
    ∧ messages s' = messages s.
Proof.
  intros Hs1 Hs2 Hout Hpg Hnone Hg1 Hg2 Hwf1 Hwf2 Hv1 Hne1 Hsame.
  assert (Hok : primitive_groups_match geo1 geo2 = (true, [])).
  { rewrite primitive_groups_match_report.
    rewrite (proj2 (primitive_groups_match_true geo1 geo2)); [done|].
    split; [done|]. by apply sorted_eq_iff. }
  rewrite (create_network_loaded s geo1 geo2) by done.
  cbv zeta. rewrite Hok. cbn [fst snd negb].
  set (loc := network_location (control s)) in *.
  set (s3 := loaded s geo1 geo2).
  set (s4 := set_messages (messages s3 ++ []) s3).
  set (m1 := SourceNetwork (retopo_source_path (control s)) geo1 "default.bgeo" []
               (is_path_fbx (retopo_source_path (control s)))
               (is_path_fbx (retopo_source_path (control s)))).
  destruct (creation_loop loc geo2 m1 (Py.sorted geo1) s4 [])
    as (s5 & cur & Hrun & Htr & Hcur & Hnodes & Hbuilt & Hfold & Hgroups & Hsame5).
  { done. }
  { split_and!; [constructor|constructor|]. unfold s4, s3, loaded. cbn. by rewrite Hpg. }
  { done. }
  { by apply sorted_NoDup. }
  { by apply sorted_Forall. }
  { intros x Hx. rewrite sorted_elem_of in Hx. split;
      [apply not_elem_of_nil|by apply (proj1 (Hsame x))]. }
  { intros n r. unfold s4, s3, loaded. scene_simpl. fold loc. rewrite Hnone.
    split; [by intros [? ?]|by intros ?%elem_of_nil]. }
  destruct Hsame5 as (Hd5 & Ho5 & Hm5 & Hr5 & Hf5 & Hout5 & Hmsg5 & Hloc5 & Hp15 & Hp25
                        & Hcm5 & Hrm5 & Hne5).
  set (s6 := set_output Retopo (Some (output_entries loc (Py.sorted geo1) Retopo)) s5).
  set (s7 := set_output Reference (Some (output_entries loc (Py.sorted geo1) Reference)) s6).
  set (s8 := set_output Cage (Some (output_entries loc (Py.sorted geo1) Cage)) s7).
  set (s9 := set_control (set_network_exists true (control s8)) s8).
  assert (Ho1 : retopo_output s5 = None) by apply (eq_trans (Hout5 Retopo) (Hout Retopo)).
  assert (Ho2 : reference_output s5 = None)
    by apply (eq_trans (Hout5 Reference) (Hout Reference)).
  assert (Ho3 : cage_output s5 = None) by apply (eq_trans (Hout5 Cage) (Hout Cage)).
  assert (Hc6 : create_output_group Retopo s5 = Ok tt s6).
  { rewrite (create_output_group_ok _ _ m1); [by rewrite Hloc5|by rewrite Hr5|done]. }
  assert (Hc7 : create_output_group Reference s6 = Ok tt s7).
  { rewrite (create_output_group_ok _ _ m1);
      unfold s6; scene_simpl; [by rewrite Hloc5|by rewrite Hr5|done]. }
  assert (Hc8 : create_output_group Cage s7 = Ok tt s8).
  { rewrite (create_output_group_ok _ _ m1);
      unfold s7, s6; scene_simpl; [by rewrite Hloc5|by rewrite Hr5|done]. }
  exists s9. split.
  { unfold mbind at 1, M_bind at 1. unfold display_messages at 1, modify at 1. fold s4.
    unfold mbind at 1, M_bind at 1. rewrite Hrun.
    unfold mbind at 1, M_bind at 1. rewrite Hc6.
    unfold mbind at 1, M_bind at 1. rewrite Hc7.
    unfold mbind at 1, M_bind at 1. rewrite Hc8. reflexivity. }
  assert (Hcur' : ∀ x, x ∈ cur ↔ x ∈ geo1).
  { intros x. rewrite Hcur, sorted_elem_of. set_solver. }
  destruct Htr as (Tv & Tnd & Tpg).
  split_and!.
  - unfold consistent, s9, s8, s7, s6, set_network_exists. scene_simpl.
    split_and!; try done.
    + rewrite Tpg. f_equal. by apply sorted_eq_iff.
    + intros n r. cbn. rewrite Hloc5. unfold s4, s3, loaded. cbn. fold loc.
      by rewrite Hnodes, Hcur'.
    + intros n Hn. cbn. destruct (Hbuilt n) as (_ & _ & _ & ->); [by apply sorted_elem_of|].
      done.
    + cbn. rewrite Hr5. by eexists.
    + cbn. rewrite Hf5. by eexists.
    + intros []; by eexists.
  - intros n Hn. apply sorted_elem_of in Hn. apply Hbuilt in Hn. exact Hn.
  - by intros [].
  - done.
  - unfold s9, s8, s7, s6. scene_simpl. rewrite Hmsg5. unfold s4, s3, loaded. scene_simpl.
    apply app_nil_r.
Qed.

Lemma create_network_builds_witness :
  ∃ s', create_network (example.fresh ["wheel"; "body"] ["body"; "wheel"]) = Ok tt s'
    ∧ prim_groups (control s') = "body wheel"
    ∧ cage_output s' = Some [ MergeEntry true "/obj/body_cage" "" false;
                              MergeEntry true "/obj/wheel_cage" "" false ].
Proof.
  set (s := example.fresh ["wheel"; "body"] ["body"; "wheel"]).
  assert (H1 : retopo_source s = None) by reflexivity.
  assert (H2 : reference_source s = None) by reflexivity.
  assert (H3 : ∀ r, get_output r s = None) by (by intros []).
  assert (H4 : prim_groups (control s) = "") by reflexivity.
  assert (H5 : ∀ n r, bake_groups s !! group_path (network_location (control s)) n r = None)
    by (intros n r; apply lookup_empty).
  assert (H6 : import_geometry s (retopo_source_path (control s)) = Some ["wheel"; "body"])
    by (vm_compute; reflexivity).
  assert (H7 : import_geometry s (reference_source_path (control s)) = Some ["body"; "wheel"])
    by (vm_compute; reflexivity).
  assert (H8 : well_formed_geometry ["wheel"; "body"])
    by (unfold well_formed_geometry; compute_done).
  assert (H9 : well_formed_geometry ["body"; "wheel"])
    by (unfold well_formed_geometry; compute_done).
  assert (H10 : Forall valid_name ["wheel"; "body"]) by (repeat constructor; done).
  assert (H11 : ["wheel"; "body"] ≠ []) by discriminate.
  assert (H12 : ∀ x, x ∈ ["wheel"; "body"] ↔ x ∈ ["body"; "wheel"]).
  { intros x. rewrite !elem_of_cons. tauto. }
  destruct (create_network_builds s ["wheel"; "body"] ["body"; "wheel"]
              H1 H2 H3 H4 H5 H6 H7 H8 H9 H10 H11 H12)
    as (s' & Hrun & (_ & _ & Hpg & _) & _ & Hout & _).
  exists s'. split; [exact Hrun|]. split; [exact Hpg|]. exact (Hout Cage).
Defined.

(** X13: when both source paths load but the partitions of the two meshes
    do not pass validation, [create_network] shows the validator's message,
    takes the two source networks it has just made away again and exits:
    no bake group and no aggregator is created.  What stays are the two
    materials and their paths on the control node. *)
Theorem create_network_rejected (s : scene) (geo1 geo2 : geometry) :
  retopo_source s = None → reference_source s = None →
  import_geometry s (retopo_source_path (control s)) = Some geo1 →
  import_geometry s (reference_source_path (control s)) = Some geo2 →
  (primitive_groups_match geo1 geo2).1 = false →
  ∃ s', create_network s = Raise SystemExit s'
    ∧ retopo_source s' = None ∧ reference_source s' = None
    ∧ bake_groups s' = bake_groups s
    ∧ (∀ r, get_output r s' = get_output r s)
    ∧ control s' = set_materials_parms "/mat/cage" "/mat/reference" (control s)
    ∧ materials s' = {["/mat/cage"; "/mat/reference"]} ∪ materials s
    ∧ disk s' = disk s ∧ operators s' = operators s
    ∧ messages s' = messages s ++ (primitive_groups_match geo1 geo2).2.
Proof.
  intros Hs1 Hs2 Hg1 Hg2 Hfail.
  rewrite (create_network_loaded s geo1 geo2) by done.
  cbv zeta. rewrite Hfail. cbn [negb].
  eexists. split; [reflexivity|]. cbn.
  split_and!; first [done | by intros [] | set_solver].
Qed.

Lemma create_network_rejected_witness :
  ∃ s', create_network (example.fresh ["wheel"; "body"] ["body"; "door"]) = Raise SystemExit s'
    ∧ retopo_source s' = None
    ∧ messages s' = [error_no_match].
Proof.
  set (s := example.fresh ["wheel"; "body"] ["body"; "door"]).
  destruct (create_network_rejected s ["wheel"; "body"] ["body"; "door"]
              eq_refl eq_refl eq_refl eq_refl eq_refl)
    as (s' & Hrun & H1 & _ & _ & _ & _ & _ & _ & _ & Hmsg).
  exists s'. split; [exact Hrun|]. split; [exact H1|exact Hmsg].
Defined.
(** ** The display buttons *)

Lemma refresh_buttons_loop (names : list string) (s : scene) (l : list string) :
  ∀ ptg : gmap string group_folder,
  (∀ n, n ∈ l → is_Some (ptg !! n)) →
  ∃ ptg', fold_m (λ ptg prim_group_name,
                    folder ← deref (ptg !! prim_group_name);
                    mret (<[prim_group_name := with_button_names names folder]> ptg))
            l ptg s = Ok ptg' s
    ∧ ∀ k, ptg' !! k = if decide (k ∈ l) then with_button_names names <$> ptg !! k
                       else ptg !! k.
Proof.
  induction l as [|x l IH]; intros ptg Hl.
  - exists ptg. split; [done|]. intros k. by rewrite decide_False by apply not_elem_of_nil.
  - destruct (Hl x) as [fo Hx]; [by left|].
    cbn [fold_m]. unfold_steps. rewrite Hx. cbn.
    destruct (IH (<[x := with_button_names names fo]> ptg)) as (ptg' & Hrun & Hres).
    + intros n Hn. rewrite lookup_insert_is_Some.
      destruct (decide (x = n)); [by left|]. right. split; [done|]. apply Hl. by right.
    + exists ptg'. split; [exact Hrun|]. intros k. rewrite Hres.
      destruct (decide (k = x)) as [->|Hne].
      * rewrite lookup_insert_eq, Hx, (decide_True (P := x ∈ x :: l)) by by left.
        by case_decide.
      * rewrite lookup_insert_ne by done.
        destruct (decide (k ∈ l)).
        -- by rewrite decide_True by by right.
        -- rewrite decide_False; [done|]. by intros [?|?]%elem_of_cons.
Qed.

Lemma refresh_buttons_missing (names : list string) (s : scene) (l : list string) :
  ∀ ptg : gmap string group_folder,
  ¬ (∀ n, n ∈ l → is_Some (ptg !! n)) →
  fold_m (λ ptg prim_group_name,
            folder ← deref (ptg !! prim_group_name);
            mret (<[prim_group_name := with_button_names names folder]> ptg))
    l ptg s = Raise AttributeError s.
Proof.
  induction l as [|x l IH]; intros ptg Hl.
  - destruct Hl. by intros n ?%elem_of_nil.
  - cbn [fold_m]. unfold_steps.
    destruct (ptg !! x) as [fo|] eqn:Hx; [|done]. cbn.
    rewrite IH; [done|].
    intros Hall. apply Hl. intros n [->|Hn]%elem_of_cons; [by rewrite Hx|].
    specialize (Hall n Hn). rewrite lookup_insert_is_Some in Hall.
    destruct Hall as [<-|[_ ?]]; [by rewrite Hx|done].
Qed.

Lemma update_display_buttons_run (s : scene) (m1 : source_network) :
  retopo_source s = Some m1 →
  update_display_buttons s
  = match fold_m (λ ptg prim_group_name,
                    folder ← deref (ptg !! prim_group_name);
                    mret (<[prim_group_name
                            := with_button_names (Py.sorted (sn_geo m1)) folder]> ptg))
            (sn_geo m1) (folders (control s)) s with
    | Ok ptg s' => Ok tt (set_control (set_folders ptg (control s')) s')
    | Raise e s' => Raise e s'
    end.
Proof.
  intros Hs1. unfold update_display_buttons. unfold mbind at 1, M_bind at 1. cbn [get].
  unfold mbind at 1, M_bind at 1. rewrite Hs1. cbn [deref]. unfold mret at 1, M_ret at 1.
  reflexivity.
Qed.

Lemma update_display_buttons_spec (s : scene) (m1 : source_network) :
  retopo_source s = Some m1 →
  (∀ n, n ∈ sn_geo m1 → is_Some (folders (control s) !! n)) →
  ∃ ptg, update_display_buttons s = Ok tt (set_control (set_folders ptg (control s)) s)
    ∧ (∀ k, k ∈ sn_geo m1 →
         ptg !! k = with_button_names (Py.sorted (sn_geo m1)) <$> folders (control s) !! k)
    ∧ (∀ k, k ∉ sn_geo m1 → ptg !! k = folders (control s) !! k).
Proof.
  intros Hs1 Hfo.
  destruct (refresh_buttons_loop (Py.sorted (sn_geo m1)) s (sn_geo m1) (folders (control s)) Hfo)
    as (ptg & Hrun & Hres).
  exists ptg. rewrite (update_display_buttons_run s m1 Hs1), Hrun.
  split; [done|]. split; intros k Hk; rewrite Hres.
  - by rewrite decide_True.
  - by rewrite decide_False.
Qed.

(** X14: refreshing the display buttons is all or nothing.  When every
    group of the live retopo mesh has its folder on the control node, the
    buttons of each of them are made to address the groups of that mesh, in
    ascending order, and nothing else on the control node changes; when a
    group has no folder, the refresh raises and the control node is as it
    was. *)
Theorem update_display_buttons_refreshes (s : scene) (m1 : source_network) :
  retopo_source s = Some m1 →
  ((∀ n, n ∈ sn_geo m1 → is_Some (folders (control s) !! n)) →
     ∃ s', update_display_buttons s = Ok tt s'
       ∧ (∀ k f, k ∈ sn_geo m1 → folders (control s) !! k = Some f →
            folders (control s') !! k
            = Some (GroupFolder (gf_parms f) (gf_reference_callback f) (gf_cage_callback f)
                      (Py.sorted (sn_geo m1))))
       ∧ (∀ k, k ∉ sn_geo m1 → folders (control s') !! k = folders (control s) !! k)
       ∧ prim_groups (control s') = prim_groups (control s)
       ∧ bake_groups s' = bake_groups s
       ∧ messages s' = messages s)
  ∧ (¬ (∀ n, n ∈ sn_geo m1 → is_Some (folders (control s) !! n)) →
       update_display_buttons s = Raise AttributeError s).
Proof.
  intros Hs1. split; intros Hfo.
  - destruct (update_display_buttons_spec s m1 Hs1 Hfo) as (ptg & Hrun & Hin & Hout).
    eexists. split; [exact Hrun|]. scene_simpl. split_and!; try done.
    intros k f Hk Hf. by rewrite Hin, Hf.
  - rewrite (update_display_buttons_run s m1 Hs1).
    by rewrite refresh_buttons_missing.
Qed.

Lemma update_display_buttons_refreshes_witness :
  ∃ s', update_display_buttons example.network = Ok tt s'
    ∧ bake_groups s' = bake_groups example.network.
Proof.
  destruct (retopo_source example.network) as [m1|] eqn:Hs1;
    [|vm_compute in Hs1; discriminate].
  assert (Hgeo : sn_geo m1 = ["wheel"; "body"]).
  { assert (H : sn_geo <$> retopo_source example.network = Some ["wheel"; "body"])
      by (vm_compute; reflexivity).
    rewrite Hs1 in H. by injection H. }
  assert (Hfo : ∀ n, n ∈ sn_geo m1 → is_Some (folders (control example.network) !! n)).
  { rewrite Hgeo. intros n Hn.
    apply elem_of_cons in Hn as [->|Hn]; [vm_compute; eexists; reflexivity|].
    apply elem_of_cons in Hn as [->|Hn]; [vm_compute; eexists; reflexivity|].
    apply elem_of_nil in Hn. destruct Hn. }
  destruct (update_display_buttons_refreshes example.network m1 Hs1) as [H _].
  destruct (H Hfo) as (s' & Hrun & _ & _ & _ & Hbg & _).
  exists s'. split; [exact Hrun|exact Hbg].
Defined.
(** ** update_network: a source that cannot be read *)

(** X15: when the file at the retopo path, or the one at the reference
    path, cannot be read, [update_network] stops at cooking the temporary
    file node with [OperationFailed]: nothing is shown, and the live meshes
    and the network are as they were. *)
Theorem update_network_unreadable (s : scene) :
  is_Some (retopo_source s) → is_Some (reference_source s) →
  import_geometry s (retopo_source_path (control s)) = None
  ∨ import_geometry s (reference_source_path (control s)) = None →
  ∃ s', update_network s = Raise OperationFailed s'
    ∧ live s' = live s
    ∧ messages s' = messages s.
Proof.
  intros [n1 H1] [n2 H2] Hnone.
  destruct (import_geometry s (retopo_source_path (control s))) as [geo1|] eqn:Hg1.
  - destruct Hnone as [?|Hg2]; [done|].
    run_update ltac:(rewrite ?H1, ?H2, ?Hg1, ?Hg2).
    eexists. split; [reflexivity|]. split; [|done].
    unfold live. cbn. by rewrite H1, H2.
  - run_update ltac:(rewrite ?H1, ?H2, ?Hg1).
    eexists. split; [reflexivity|]. split; [|done].
    unfold live. cbn. by rewrite H1, H2.
Qed.

Lemma update_network_unreadable_witness :
  let s := set_control
             (ControlParms "/obj" "/geo/missing.bgeo" "/geo/reference.bgeo"
                "/mat/cage" "/mat/reference" "body wheel" ∅ true)
             example.network in
  ∃ s', update_network s = Raise OperationFailed s' ∧ messages s' = messages s.
Proof.
  intros s.
  assert (H1 : is_Some (retopo_source s)) by (vm_compute; eexists; reflexivity).
  assert (H2 : is_Some (reference_source s)) by (vm_compute; eexists; reflexivity).
  assert (H3 : import_geometry s (retopo_source_path (control s)) = None
               ∨ import_geometry s (reference_source_path (control s)) = None)
    by (left; vm_compute; reflexivity).
  destruct (update_network_unreadable s H1 H2 H3) as (s' & Hrun & _ & Hmsg).
  exists s'. split; [exact Hrun|exact Hmsg].
Defined.
(** ** Display of the bake groups *)

Lemma display_bundle_ok (loc x : string) (a b c : bool) (s : scene) :
  network_location (control s) = loc → complete s x →
  ∃ s',
    (display_node (group_path loc x Retopo) a;;
     display_node (group_path loc x Reference) b;;
     display_node (group_path loc x Cage) c;;
     set_display_toggle x Retopo a;;
     set_display_toggle x Reference b;;
     set_display_toggle x Cage c) s = Ok tt s'
    ∧ (∀ r, bake_groups s' !! group_path loc x r
            = with_display (shown a b c r) <$> bake_groups s !! group_path loc x r)
    ∧ (∀ p, (∀ r, p ≠ group_path loc x r) → bake_groups s' !! p = bake_groups s !! p)
    ∧ folders (control s') !! x = with_toggles a b c <$> folders (control s) !! x
    ∧ (∀ n, n ≠ x → folders (control s') !! n = folders (control s) !! n)
    ∧ prim_groups (control s') = prim_groups (control s)
    ∧ same_surroundings s s'.
Proof.
  intros Hloc [Hnodes [f Hf]]. rewrite Hloc in Hnodes.
  destruct (Hnodes Retopo) as [g1 Hg1], (Hnodes Reference) as [g2 Hg2],
    (Hnodes Cage) as [g3 Hg3].
  unfold display_node, set_display_toggle, set_display_flag. unfold_steps.
  repeat (progress (scene_simpl;
    rewrite ?Hf, ?Hg1, ?lookup_insert_eq;
    rewrite ?lookup_alter_ne by (by apply group_path_role_ne);
    rewrite ?Hg2, ?Hg3)).
  eexists. split; [reflexivity|].
  unfold same_surroundings. scene_simpl. split_and!; try done.
  - intros []; cbn [shown].
    + rewrite !lookup_alter_ne, lookup_alter_eq by (by apply group_path_role_ne). done.
    + rewrite lookup_alter_ne, lookup_alter_eq, lookup_alter_ne
        by (by apply group_path_role_ne). done.
    + rewrite lookup_alter_eq, !lookup_alter_ne by (by apply group_path_role_ne). done.
  - intros p Hp. by rewrite !lookup_alter_ne by (by apply not_eq_sym).
  - by rewrite lookup_insert_eq.
  - intros n Hn. by rewrite !lookup_insert_ne.
Qed.
Lemma with_display_idem (v : bool) (g : option bake_group) :
  with_display v <$> (with_display v <$> g) = with_display v <$> g.
Proof. by destruct g. Qed.

Lemma with_toggles_idem (a b c : bool) (f : option group_folder) :
  with_toggles a b c <$> (with_toggles a b c <$> f) = with_toggles a b c <$> f.
Proof. by destruct f. Qed.

Lemma display_loop (loc : string) (a b c : bool) (l : list string) :
  ∀ s : scene,
  network_location (control s) = loc → (∀ n, n ∈ l → complete s n) →
  ∃ s',
    for_each l
      (λ prim_group_name,
         display_node (group_path loc prim_group_name Retopo) a;;
         display_node (group_path loc prim_group_name Reference) b;;
         display_node (group_path loc prim_group_name Cage) c;;
         set_display_toggle prim_group_name Retopo a;;
         set_display_toggle prim_group_name Reference b;;
         set_display_toggle prim_group_name Cage c) s = Ok tt s'
    ∧ (∀ n r, bake_groups s' !! group_path loc n r
              = if decide (n ∈ l)
                then with_display (shown a b c r) <$> bake_groups s !! group_path loc n r
                else bake_groups s !! group_path loc n r)
    ∧ (∀ p, (∀ n r, n ∈ l → p ≠ group_path loc n r) →
         bake_groups s' !! p = bake_groups s !! p)
    ∧ (∀ n, folders (control s') !! n
            = if decide (n ∈ l) then with_toggles a b c <$> folders (control s) !! n
              else folders (control s) !! n)
    ∧ prim_groups (control s') = prim_groups (control s)
    ∧ same_surroundings s s'.
Proof.
  induction l as [|x l IH]; intros s Hloc Hall.
  - exists s. split_and!; first [done | apply same_surroundings_refl].
  - destruct (display_bundle_ok loc x a b c s Hloc) as (s1 & Hrun1 & B1 & B2 & B3 & B4 & B5 & B6).
    { apply Hall. by left. }
    pose proof B6 as (_ & _ & _ & _ & _ & _ & _ & Hloc1 & _).
    assert (Hgroups1 : ∀ n r, bake_groups s1 !! group_path loc n r
              = if decide (n = x)
                then with_display (shown a b c r) <$> bake_groups s !! group_path loc n r
                else bake_groups s !! group_path loc n r).
    { intros n r. case_decide as Hn; [subst n; apply B1|].
      apply B2. intros r'. by apply group_path_ne. }
    assert (Hfolders1 : ∀ n, folders (control s1) !! n
              = if decide (n = x) then with_toggles a b c <$> folders (control s) !! n
                else folders (control s) !! n).
    { intros n. case_decide as Hn; [by subst n|by apply B4]. }
    destruct (IH s1) as (s' & Hrun & H1 & H2 & H3 & H4 & H5); clear IH.
    + congruence.
    + intros n Hn. destruct (Hall n) as [Hnodes Hfo]; [by right|]. split.
      * intros r. rewrite Hloc1, Hloc, Hgroups1. rewrite Hloc in Hnodes.
        case_decide; [apply fmap_is_Some|]; apply Hnodes.
      * rewrite Hfolders1. case_decide; [apply fmap_is_Some|]; apply Hfo.
    + exists s'. split_and!.
      * unfold for_each in *. cbn [fold_m]. unfold mbind at 1, M_bind at 1.
        by rewrite Hrun1.
      * intros n r. rewrite H1, Hgroups1.
        destruct (decide (n ∈ l)), (decide (n = x)) as [->|];
          rewrite ?with_display_idem;
          first [ by rewrite decide_True by (by left)
                | by rewrite decide_True by (by right)
                | rewrite decide_False; [done|]; by intros [?|?]%elem_of_cons ].
      * intros p Hp. rewrite H2 by (intros n r Hn; apply Hp; by right).
        apply B2. intros r. apply Hp. by left.
      * intros n. rewrite H3, Hfolders1.
        destruct (decide (n ∈ l)), (decide (n = x)) as [->|];
          rewrite ?with_toggles_idem;
          first [ by rewrite decide_True by (by left)
                | by rewrite decide_True by (by right)
                | rewrite decide_False; [done|]; by intros [?|?]%elem_of_cons ].
      * congruence.
      * by apply same_surroundings_trans with s1.
Qed.
Lemma set_group_display_run (names : list string) (a b c : bool) (s : scene) :
  set_group_display names a b c s
  = for_each names
      (λ prim_group_name,
         display_node (group_path (network_location (control s)) prim_group_name Retopo) a;;
         display_node (group_path (network_location (control s)) prim_group_name Reference) b;;
         display_node (group_path (network_location (control s)) prim_group_name Cage) c;;
         set_display_toggle prim_group_name Retopo a;;
         set_display_toggle prim_group_name Reference b;;
         set_display_toggle prim_group_name Cage c) s.
Proof. reflexivity. Qed.

Lemma set_group_display_ok (names : list string) (a b c : bool) (s : scene) :
  (∀ n, n ∈ names → complete s n) →
  ∃ s', set_group_display names a b c s = Ok tt s'
    ∧ network_location (control s') = network_location (control s)
    ∧ (∀ n r, bake_groups s' !! group_path (network_location (control s)) n r
              = if decide (n ∈ names)
                then with_display (shown a b c r)
                       <$> bake_groups s !! group_path (network_location (control s)) n r
                else bake_groups s !! group_path (network_location (control s)) n r)
    ∧ (∀ n, folders (control s') !! n
            = if decide (n ∈ names) then with_toggles a b c <$> folders (control s) !! n
              else folders (control s) !! n)
    ∧ prim_groups (control s') = prim_groups (control s)
    ∧ same_surroundings s s'.
Proof.
  intros Hall. rewrite set_group_display_run.
  destruct (display_loop (network_location (control s)) a b c names s eq_refl Hall)
    as (s' & Hrun & H1 & H2 & H3 & H4 & H5).
  exists s'. split_and!; try done. by destruct H5 as (_ & _ & _ & _ & _ & _ & _ & ? & _).
Qed.

Lemma display_toggle_with_toggles (a b c : bool) (r : role) (f : group_folder) :
  display_toggle r (gf_parms (with_toggles a b c f)) = shown a b c r.
Proof. by destruct r. Qed.

(** X16: [set_group_display], given partitions whose three objects and
    folder are all there, sets the display flag of each object of each of
    them as asked and the three display toggles of the partition to the
    same values, so that toggles and flags agree; the objects and folders of
    the other partitions, the wiring, the edit regions and the remaining
    parameters are as they were. *)
Theorem set_group_display_shows (s : scene) (prim_group_names : list string)
    (show_retopo show_reference show_cage : bool) :
  (∀ n, n ∈ prim_group_names → complete s n) →
  let loc := network_location (control s) in
  ∃ s', set_group_display prim_group_names show_retopo show_reference show_cage s = Ok tt s'
    ∧ (∀ n r g, n ∈ prim_group_names → bake_groups s !! group_path loc n r = Some g →
         bake_groups s' !! group_path loc n r
         = Some (BakeGroup (bg_role g) (shown show_retopo show_reference show_cage r)
                   (bg_input g) (bg_edit g)))
    ∧ (∀ n f, n ∈ prim_group_names → folders (control s) !! n = Some f →
         folders (control s') !! n
         = Some (GroupFolder
                   (GroupParms (gp_iterations (gf_parms f)) (gp_translate (gf_parms f))
                      (gp_peak_dist (gf_parms f)) show_retopo show_reference show_cage)
                   (gf_reference_callback f) (gf_cage_callback f) (gf_button_names f)))
    ∧ (∀ n, n ∈ prim_group_names → display_in_sync s' n)
    ∧ (∀ n r, n ∉ prim_group_names →
         bake_groups s' !! group_path loc n r = bake_groups s !! group_path loc n r)
    ∧ (∀ n, n ∉ prim_group_names → folders (control s') !! n = folders (control s) !! n)
    ∧ prim_groups (control s') = prim_groups (control s)
    ∧ (∀ r, get_output r s' = get_output r s).
Proof.
  intros Hall loc.
  destruct (set_group_display_ok prim_group_names show_retopo show_reference show_cage s Hall)
    as (s' & Hrun & Hloc & Hg & Hf & Hpg & Hsame).
  fold loc in Hg. exists s'. split_and!; try done.
  - intros n r g Hn Hs. by rewrite Hg, decide_True, Hs.
  - intros n f Hn Hs. by rewrite Hf, decide_True, Hs.
  - intros n Hn r. rewrite Hloc. fold loc. rewrite Hg, Hf, !decide_True by done.
    destruct (Hall n Hn) as [Hnodes [f Hfo]]. destruct (Hnodes r) as [g Hgr].
    fold loc in Hgr. rewrite Hgr, Hfo. cbn. by destruct r.
  - intros n r Hn. by rewrite Hg, decide_False.
  - intros n Hn. by rewrite Hf, decide_False.
  - by destruct Hsame as (_ & _ & _ & _ & _ & ? & _).
Qed.

Lemma example_network_complete (n : string) :
  n ∈ ["wheel"; "body"] → complete example.network n.
Proof.
  intros Hn. split.
  - intros r.
    apply elem_of_cons in Hn as [->|Hn];
      [destruct r; vm_compute; eexists; reflexivity|].
    apply elem_of_cons in Hn as [->|Hn];
      [destruct r; vm_compute; eexists; reflexivity|].
    apply elem_of_nil in Hn. destruct Hn.
  - apply elem_of_cons in Hn as [->|Hn]; [vm_compute; eexists; reflexivity|].
    apply elem_of_cons in Hn as [->|Hn]; [vm_compute; eexists; reflexivity|].
    apply elem_of_nil in Hn. destruct Hn.
Qed.

Lemma set_group_display_shows_witness :
  ∃ s', set_group_display ["wheel"; "body"] false true true example.network = Ok tt s'
    ∧ display_in_sync s' "body".
Proof.
  destruct (set_group_display_shows example.network ["wheel"; "body"] false true true
              example_network_complete)
    as (s' & Hrun & _ & _ & Hsync & _).
  exists s'. split; [exact Hrun|]. apply Hsync. apply elem_of_cons. right.
  apply elem_of_cons. by left.
Defined.
Lemma display_bundle_raises (loc x : string) (a b c : bool) (s : scene) :
  network_location (control s) = loc → ¬ complete s x →
  ∃ s',
    (display_node (group_path loc x Retopo) a;;
     display_node (group_path loc x Reference) b;;
     display_node (group_path loc x Cage) c;;
     set_display_toggle x Retopo a;;
     set_display_toggle x Reference b;;
     set_display_toggle x Cage c) s = Raise AttributeError s'.
Proof.
  intros Hloc Hnot. unfold display_node, set_display_toggle, set_display_flag. unfold_steps.
  scene_simpl.
  destruct (bake_groups s !! group_path loc x Retopo) as [g1|] eqn:Hg1;
    [|by eexists].
  scene_simpl. rewrite lookup_alter_ne by (by apply group_path_role_ne).
  destruct (bake_groups s !! group_path loc x Reference) as [g2|] eqn:Hg2;
    [|by eexists].
  scene_simpl. rewrite !lookup_alter_ne by (by apply group_path_role_ne).
  destruct (bake_groups s !! group_path loc x Cage) as [g3|] eqn:Hg3;
    [|by eexists].
  scene_simpl.
  destruct (folders (control s) !! x) as [f|] eqn:Hf; [|by eexists].
  destruct Hnot. split; [|by rewrite Hf]. rewrite Hloc. intros []; by eexists.
Qed.

Lemma complete_after_display (s s' : scene) (l : list string) (a b c : bool) (n : string) :
  network_location (control s') = network_location (control s) →
  (∀ n r, bake_groups s' !! group_path (network_location (control s)) n r
          = if decide (n ∈ l)
            then with_display (shown a b c r)
                   <$> bake_groups s !! group_path (network_location (control s)) n r
            else bake_groups s !! group_path (network_location (control s)) n r) →
  (∀ n, folders (control s') !! n
        = if decide (n ∈ l) then with_toggles a b c <$> folders (control s) !! n
          else folders (control s) !! n) →
  complete s' n ↔ complete s n.
Proof.
  intros Hloc Hg Hf. unfold complete. rewrite Hloc, Hf.
  assert (H : ∀ r, is_Some (bake_groups s' !! group_path (network_location (control s)) n r)
                   ↔ is_Some (bake_groups s !! group_path (network_location (control s)) n r)).
  { intros r. rewrite Hg. case_decide; [apply fmap_is_Some|done]. }
  split; intros [H1 H2]; (split; [intros r; by apply H|]);
    revert H2; case_decide; by rewrite ?fmap_is_Some.
Qed.

Lemma complete_or_not (s : scene) (x : string) : complete s x ∨ ¬ complete s x.
Proof.
  unfold complete.
  destruct (bake_groups s !! group_path (network_location (control s)) x Retopo) eqn:H1;
    [|right; intros [H _]; specialize (H Retopo); rewrite H1 in H; by destruct H].
  destruct (bake_groups s !! group_path (network_location (control s)) x Reference) eqn:H2;
    [|right; intros [H _]; specialize (H Reference); rewrite H2 in H; by destruct H].
  destruct (bake_groups s !! group_path (network_location (control s)) x Cage) eqn:H3;
    [|right; intros [H _]; specialize (H Cage); rewrite H3 in H; by destruct H].
  destruct (folders (control s) !! x) eqn:H4;
    [|right; intros [_ H]; by destruct H].
  left. split; [|by eexists]. intros []; by eexists.
Qed.

(** X17: a list of names that holds a partition whose objects or folder
    are not all there, as the list in a button that was not refreshed after
    the partition went, makes [set_group_display] raise
    [AttributeError]. *)
Theorem set_group_display_stale (s : scene) (prim_group_names : list string)
    (show_retopo show_reference show_cage : bool) :
  (∃ n, n ∈ prim_group_names ∧ ¬ complete s n) →
  ∃ s', set_group_display prim_group_names show_retopo show_reference show_cage s
        = Raise AttributeError s'.
Proof.
  rewrite set_group_display_run.
  set (loc := network_location (control s)).
  assert (Hloc : network_location (control s) = loc) by done.
  clearbody loc. revert s Hloc.
  induction prim_group_names as [|x l IH]; intros s Hloc (n & Hn & Hnot).
  - by apply elem_of_nil in Hn.
  - unfold for_each in *. cbn [fold_m]. unfold mbind at 1, M_bind at 1.
    destruct (complete_or_not s x) as [Hx|Hx].
    + destruct (display_bundle_ok loc x show_retopo show_reference show_cage s Hloc Hx)
        as (s1 & -> & B1 & B2 & B3 & B4 & B5 & B6).
      pose proof B6 as (_ & _ & _ & _ & _ & _ & _ & Hloc1 & _).
      apply IH; [congruence|]. exists n. split.
      * apply elem_of_cons in Hn as [->|Hn]; [done|done].
      * intros Hc. apply Hnot.
        apply (complete_after_display s s1 [x] show_retopo show_reference show_cage n);
          [done| | |done].
        -- intros k r. rewrite Hloc. case_decide as Hk.
           ++ apply list_elem_of_singleton in Hk as ->. apply B1.
           ++ apply B2. intros r'. apply group_path_ne. set_solver.
        -- intros k. case_decide as Hk.
           ++ by apply list_elem_of_singleton in Hk as ->.
           ++ apply B4. set_solver.
    + destruct (display_bundle_raises loc x show_retopo show_reference show_cage s Hloc Hx)
        as (s' & ->).
      by eexists.
Qed.

Lemma set_group_display_stale_witness :
  ∃ s', set_group_display ["body"; "wheel"] false false false example.corrupted
        = Raise AttributeError s'.
Proof.
  apply set_group_display_stale. exists "body". split; [compute_done|].
  intros [H _]. specialize (H Reference). vm_compute in H. by destruct H as [? ?].
Defined.
Lemma toggle_obj_display_ok (node n : string) (r : role) (s : scene)
    (g : bake_group) (f : group_folder) :
  bake_groups s !! node = Some g → folders (control s) !! n = Some f →
  toggle_obj_display node n r s
  = Ok tt (set_control
             (set_folders
                (<[n := with_parms (with_display_toggle r (negb (bg_display g)) (gf_parms f)) f]>
                   (folders (control s))) (control s))
             (set_bake_groups
                (alter (with_display (negb (bg_display g))) node (bake_groups s)) s)).
Proof.
  intros Hg Hf. unfold toggle_obj_display, set_display_toggle, set_display_flag.
  unfold_steps. rewrite Hg. scene_simpl. destruct (bg_display g); scene_simpl; by rewrite Hf.
Qed.

(** X18: [toggle_obj_display] on an object of a partition flips its display
    flag and sets the display toggle of its role to the new flag, so that
    the two agree afterwards whatever they were; nothing else changes.
    Called a second time it gives back the objects as they were, and also
    the control node when toggle and flag agreed at the start. *)
Theorem toggle_obj_display_flips (s : scene) (n : string) (r : role)
    (g : bake_group) (f : group_folder) :
  let node := group_path (network_location (control s)) n r in
  bake_groups s !! node = Some g → folders (control s) !! n = Some f →
  ∃ s', toggle_obj_display node n r s = Ok tt s'
    ∧ bake_groups s' !! node
      = Some (BakeGroup (bg_role g) (negb (bg_display g)) (bg_input g) (bg_edit g))
    ∧ display_toggle r <$> (gf_parms <$> folders (control s') !! n)
      = Some (negb (bg_display g))
    ∧ (∀ p, p ≠ node → bake_groups s' !! p = bake_groups s !! p)
    ∧ (∀ k, k ≠ n → folders (control s') !! k = folders (control s) !! k)
    ∧ (∀ r', r' ≠ r →
         display_toggle r' <$> (gf_parms <$> folders (control s') !! n)
         = Some (display_toggle r' (gf_parms f)))
    ∧ prim_groups (control s') = prim_groups (control s)
    ∧ ∃ s'', toggle_obj_display node n r s' = Ok tt s''
        ∧ bake_groups s'' = bake_groups s
        ∧ (display_toggle r (gf_parms f) = bg_display g → s'' = s).
Proof.
  intros node Hg Hf.
  eexists. split; [by apply toggle_obj_display_ok|]. scene_simpl.
  split_and!; try done.
  - by rewrite lookup_alter_eq, Hg.
  - rewrite lookup_insert_eq. cbn. by destruct r.
  - intros p Hp. by rewrite lookup_alter_ne.
  - intros k Hk. by rewrite lookup_insert_ne.
  - intros r' Hr. rewrite lookup_insert_eq. cbn. by destruct r, r'.
  - eexists. split.
    { apply toggle_obj_display_ok; scene_simpl;
        [by rewrite lookup_alter_eq, Hg|by rewrite lookup_insert_eq]. }
    scene_simpl. cbn [bg_display with_display gf_parms with_parms].
    rewrite negb_involutive.
    assert (Hbg : alter (with_display (bg_display g)) node
                    (alter (with_display (negb (bg_display g))) node (bake_groups s))
                  = bake_groups s).
    { apply map_eq. intros p. destruct (decide (p = node)) as [->|Hp].
      - rewrite !lookup_alter_eq, Hg. by destruct g.
      - by rewrite !lookup_alter_ne. }
    split; [exact Hbg|]. intros Hsync.
    rewrite Hbg, insert_insert_eq.
    replace (with_parms _ _) with f.
    + rewrite insert_id by done. destruct s as [? ? c ? ? ? ? ? ? ? ?]. cbn.
      by destruct c.
    + rewrite <- Hsync. destruct f as [[] ? ? ?]. by destruct r.
Qed.

Lemma toggle_obj_display_flips_witness :
  ∃ s', toggle_obj_display "/obj/body_cage" "body" Cage example.network = Ok tt s'
    ∧ bg_display <$> bake_groups s' !! "/obj/body_cage" = Some false.
Proof.
  destruct (bake_groups example.network !! "/obj/body_cage") as [g|] eqn:Hg;
    [|vm_compute in Hg; discriminate].
  destruct (folders (control example.network) !! "body") as [f|] eqn:Hf;
    [|vm_compute in Hf; discriminate].
  assert (Hd : bg_display g = true).
  { assert (H : bg_display <$> bake_groups example.network !! "/obj/body_cage" = Some true)
      by (vm_compute; reflexivity).
    rewrite Hg in H. by injection H. }
  assert (Hloc : group_path (network_location (control example.network)) "body" Cage
                 = "/obj/body_cage") by (vm_compute; reflexivity).
  pose proof (toggle_obj_display_flips example.network "body" Cage g f) as H.
  cbv zeta in H. rewrite Hloc in H.
  destruct (H Hg Hf) as (s' & Hrun & Hnode & _).
  exists s'. split; [exact Hrun|]. rewrite Hnode. cbn. by rewrite Hd.
Defined.
Lemma isolated_self (k : string) (r : role) :
  bool_decide (k = k ∧ r ≠ Retopo) = shown false true true r.
Proof.
  destruct r; cbn; [apply bool_decide_eq_false_2|apply bool_decide_eq_true_2..];
    naive_solver.
Qed.

Lemma isolated_other (n k : string) (r : role) :
  n ≠ k → bool_decide (n = k ∧ r ≠ Retopo) = false.
Proof. intros H. apply bool_decide_eq_false_2. naive_solver. Qed.

(** X19: the isolate button of a partition, when all the partitions its
    callback addresses and the partition itself are complete, leaves the
    reference and the cage of that partition displayed and every other
    object it addresses hidden, with the display toggles in agreement. *)
Theorem isolate_button (s : scene) (k : string) (f : group_folder) :
  folders (control s) !! k = Some f →
  (∀ n, n ∈ gf_button_names f → complete s n) → complete s k →
  let loc := network_location (control s) in
  ∃ s', isolate (gf_button_names f) k s = Ok tt s'
    ∧ (∀ n r, n ∈ gf_button_names f ∨ n = k →
         bg_display <$> bake_groups s' !! group_path loc n r
         = Some (bool_decide (n = k ∧ r ≠ Retopo)))
    ∧ (∀ n, n ∈ gf_button_names f ∨ n = k → display_in_sync s' n)
    ∧ prim_groups (control s') = prim_groups (control s)
    ∧ (∀ r, get_output r s' = get_output r s).
Proof.
  intros Hf Hall Hk loc. set (names := gf_button_names f) in *.
  destruct (set_group_display_ok names false false false s Hall)
    as (s1 & Hrun1 & Hloc1 & Hg1 & Hf1 & Hpg1 & Hsame1).
  fold loc in Hg1, Hloc1.
  assert (Hk1 : ∀ n, n ∈ [k] → complete s1 n).
  { intros n ->%list_elem_of_singleton.
    by apply (complete_after_display s s1 names false false false k). }
  destruct (set_group_display_ok [k] false true true s1 Hk1)
    as (s2 & Hrun2 & Hloc2 & Hg2 & Hf2 & Hpg2 & Hsame2).
  rewrite Hloc1 in Hg2, Hloc2.
  assert (Hdisp : ∀ n r, n ∈ names ∨ n = k →
            bg_display <$> bake_groups s2 !! group_path loc n r
            = Some (bool_decide (n = k ∧ r ≠ Retopo))).
  { intros n r Hn. rewrite Hg2, Hg1.
    assert (Hc : complete s n) by (destruct Hn as [?| ->]; [by apply Hall|done]).
    destruct Hc as [Hnodes _]. destruct (Hnodes r) as [g Hg]. fold loc in Hg. rewrite Hg.
    destruct (decide (n = k)) as [->|Hne].
    - rewrite (decide_True (P := k ∈ [k])) by (by apply list_elem_of_singleton).
      rewrite isolated_self. by case_decide.
    - rewrite (decide_False (P := n ∈ [k])) by (by intros ?%list_elem_of_singleton).
      rewrite isolated_other by done.
      destruct Hn as [Hn|?]; [|done]. rewrite decide_True by done. by destruct r. }
  exists s2. split_and!.
  - unfold isolate. unfold mbind, M_bind. by rewrite Hrun1.
  - done.
  - intros n Hn r. rewrite Hloc2. fold loc. rewrite Hdisp by done.
    rewrite Hf2, Hf1.
    assert (Hc : complete s n) by (destruct Hn as [?| ->]; [by apply Hall|done]).
    destruct Hc as [_ [fn Hfn]]. rewrite Hfn.
    destruct (decide (n = k)) as [->|Hne].
    + rewrite (decide_True (P := k ∈ [k])) by (by apply list_elem_of_singleton).
      rewrite isolated_self. case_decide; by destruct r.
    + rewrite (decide_False (P := n ∈ [k])) by (by intros ?%list_elem_of_singleton).
      rewrite isolated_other by done.
      destruct Hn as [Hn|?]; [|done]. rewrite decide_True by done. by destruct r.
  - congruence.
  - destruct Hsame1 as (_ & _ & _ & _ & _ & H1 & _).
    destruct Hsame2 as (_ & _ & _ & _ & _ & H2 & _).
    intros r. by rewrite H2, H1.
Qed.
Lemma isolate_button_witness :
  ∃ s', isolate ["body"; "wheel"] "wheel" example.network = Ok tt s'
    ∧ bg_display <$> bake_groups s' !! group_path "/obj" "body" Cage = Some false
    ∧ bg_display <$> bake_groups s' !! group_path "/obj" "wheel" Cage = Some true.
Proof.
  destruct (folders (control example.network) !! "wheel") as [f|] eqn:Hf;
    [|vm_compute in Hf; discriminate Hf].
  assert (Hnames : gf_button_names f = ["body"; "wheel"]).
  { assert (H : gf_button_names <$> folders (control example.network) !! "wheel"
                = Some ["body"; "wheel"]) by (vm_compute; reflexivity).
    rewrite Hf in H. injection H as H. exact H. }
  assert (Hall : ∀ n, n ∈ gf_button_names f → complete example.network n).
  { rewrite Hnames. intros n Hn. apply example_network_complete.
    apply elem_of_cons in Hn as [->|Hn]; [apply list_elem_of_further, list_elem_of_here|].
    apply elem_of_cons in Hn as [->|Hn]; [apply list_elem_of_here|].
    apply elem_of_nil in Hn. destruct Hn. }
  assert (Hk : complete example.network "wheel")
    by (apply example_network_complete, list_elem_of_here).
  assert (Hloc : network_location (control example.network) = "/obj")
    by (vm_compute; reflexivity).
  pose proof (isolate_button example.network "wheel" f Hf Hall Hk) as H.
  cbv zeta in H.
  rewrite Hnames, Hloc in H.
  destruct H as (s' & Hrun & Hdisp & _).
  exists s'. 
  split; [exact Hrun|]. 
  split.
  - rewrite (Hdisp "body" Cage); [reflexivity|].
    left. apply list_elem_of_here.
  - rewrite (Hdisp "wheel" Cage); [reflexivity|]. right. reflexivity.
Defined.
(** ** Resetting a cage *)

Lemma find_prim_group_findPrimGroup (prim_group_name : string) (geo : geometry) :
  find_prim_group prim_group_name geo = findPrimGroup geo prim_group_name.
Proof.
  unfold findPrimGroup. induction geo as [|g geo IH]; [done|]. cbn [find_prim_group].
  destruct (decide (g = prim_group_name)) as [->|Hg].
  - by rewrite decide_True by by left.
  - rewrite IH. repeat case_decide; try done.
    + exfalso. set_solver.
    + exfalso. set_solver.
Qed.

Lemma reset_cage_run (n : string) (s : scene) (g : bake_group) (m : source_network)
    (f : group_folder) :
  let loc := network_location (control s) in
  bake_groups s !! group_path loc n Cage = Some g →
  retopo_source s = Some m → n ∈ sn_geo m →
  folders (control s) !! n = Some f →
  ∃ s', reset_cage n s = Ok tt s'
    ∧ bake_groups s'
      = <[group_path loc n Cage :=
            BakeGroup Cage (gp_cage_display (gf_parms f))
              ((λ _, group_path loc n Reference) <$> bake_groups s !! group_path loc n Reference)
              []]>
          (destroyed (group_path loc n Cage) (bake_groups s))
    ∧ control s'
      = set_folders
          (<[n := GroupFolder
                    (GroupParms (gp_iterations (gf_parms f)) origin zero
                       (gp_retopo_display (gf_parms f)) (gp_reference_display (gf_parms f))
                       (gp_cage_display (gf_parms f)))
                    (gf_reference_callback f) true (gf_button_names f)]>
             (folders (control s)))
          (add_to_current_prim_groups (control s) n)
    ∧ same_surroundings s s'.
Proof.
  intros loc Hg Hm Hn Hf.
  unfold reset_cage, create_cage_group, set_group_parm, set_display_flag.
  unfold_steps. fold loc.
  rewrite destroy_eq, Hg. scene_simpl. rewrite Hm. scene_simpl.
  rewrite find_prim_group_findPrimGroup, (findPrimGroup_in _ _ Hn). scene_simpl.
  fold loc. rewrite create_object_eq. scene_simpl. rewrite destroyed_lookup_eq.
  scene_simpl. rewrite Hf. scene_simpl.
  repeat (progress (scene_simpl; rewrite ?folders_add, ?lookup_insert_eq)).
  eexists. split; [reflexivity|]. scene_simpl.
  split_and!.
  - apply map_eq. intros p. destruct (decide (p = group_path loc n Cage)) as [->|Hp].
    + by rewrite !lookup_alter_eq, !lookup_insert_eq.
    + by rewrite !lookup_alter_ne, !lookup_insert_ne.
  - unfold set_folders. scene_simpl. f_equal. by rewrite !insert_insert_eq.
  - unfold same_surroundings. scene_simpl. rewrite ?network_location_add. split_and!; done.
Qed.

(** X20: [reset_cage] on a partition whose cage object and folder are there
    and which is still a group of the live retopo mesh puts a new cage
    object in the place of the old one: nothing of what the user authored in
    it remains, it is displayed as its toggle says and wired to the
    reference object of the partition, where there is one; the translation
    and the peak distance of the partition are back to zero, its other
    parameters, the other folders, the other objects (but for an input
    taken from the old cage) and the aggregators are as they were, and so is
    the list of names when it holds the partition. *)
Theorem reset_cage_rebuilds (s : scene) (n : string) (g : bake_group)
    (m : source_network) (f : group_folder) :
  let loc := network_location (control s) in
  bake_groups s !! group_path loc n Cage = Some g →
  retopo_source s = Some m → n ∈ sn_geo m →
  folders (control s) !! n = Some f →
  ∃ s', reset_cage n s = Ok tt s'
    ∧ bake_groups s' !! group_path loc n Cage
      = Some (BakeGroup Cage (gp_cage_display (gf_parms f))
                (if decide (is_Some (bake_groups s !! group_path loc n Reference))
                 then Some (group_path loc n Reference) else None) [])
    ∧ (∀ p, p ≠ group_path loc n Cage →
         bake_groups s' !! p = disconnect (group_path loc n Cage) <$> bake_groups s !! p)
    ∧ folders (control s') !! n
      = Some (GroupFolder
                (GroupParms (gp_iterations (gf_parms f)) origin zero
                   (gp_retopo_display (gf_parms f)) (gp_reference_display (gf_parms f))
                   (gp_cage_display (gf_parms f)))
                (gf_reference_callback f) true (gf_button_names f))
    ∧ (∀ k, k ≠ n → folders (control s') !! k = folders (control s) !! k)
    ∧ (serialized (prim_groups (control s)) →
       n ∈ default [] (get_current_prim_groups (control s)) →
       prim_groups (control s') = prim_groups (control s))
    ∧ (∀ r, get_output r s' = get_output r s)
    ∧ retopo_source s' = retopo_source s ∧ reference_source s' = reference_source s.
Proof.
  intros loc Hg Hm Hn Hf.
  destruct (reset_cage_run n s g m f Hg Hm Hn Hf) as (s' & Hrun & Hbg & Hc & Hsame).
  fold loc in Hbg. exists s'. split; [exact Hrun|]. rewrite Hbg, Hc. scene_simpl.
  split_and!.
  - rewrite lookup_insert_eq. do 2 f_equal.
    destruct (bake_groups s !! group_path loc n Reference); [by rewrite decide_True|].
    rewrite decide_False; [done|]. by intros [? ?].
  - intros p Hp. rewrite lookup_insert_ne by done. by apply destroyed_lookup_ne.
  - by rewrite lookup_insert_eq.
  - intros k Hk. by rewrite lookup_insert_ne.
  - intros Hser Hin. by rewrite add_to_current_prim_groups_present.
  - by destruct Hsame as (_ & _ & _ & _ & _ & ? & _).
  - by destruct Hsame as (_ & _ & _ & ? & _).
  - by destruct Hsame as (_ & _ & _ & _ & ? & _).
Qed.

Lemma reset_cage_rebuilds_witness :
  ∃ s', reset_cage "body" example.edited = Ok tt s'
    ∧ bg_edit <$> bake_groups example.edited !! group_path "/obj" "body" Cage
      = Some ["edit: move point 3"]
    ∧ bg_edit <$> bake_groups s' !! group_path "/obj" "body" Cage = Some [].
Proof.
  assert (Hloc : network_location (control example.edited) = "/obj")
    by (vm_compute; reflexivity).
  destruct (bake_groups example.edited !! group_path "/obj" "body" Cage) as [g|] eqn:Hg;
    [|vm_compute in Hg; discriminate Hg].
  destruct (retopo_source example.edited) as [m|] eqn:Hm;
    [|vm_compute in Hm; discriminate Hm].
  destruct (folders (control example.edited) !! "body") as [f|] eqn:Hf;
    [|vm_compute in Hf; discriminate Hf].
  assert (Hgeo : sn_geo m = ["wheel"; "body"]).
  { assert (H : sn_geo <$> retopo_source example.edited = Some ["wheel"; "body"])
      by (vm_compute; reflexivity).
    rewrite Hm in H. injection H as H. exact H. }
  assert (Hedit : bg_edit g = ["edit: move point 3"]).
  { assert (H : bg_edit <$> bake_groups example.edited !! group_path "/obj" "body" Cage
                = Some ["edit: move point 3"]) by (vm_compute; reflexivity).
    rewrite Hg in H. injection H as H. exact H. }
  assert (Hn : "body" ∈ sn_geo m).
  { rewrite Hgeo. apply list_elem_of_further, list_elem_of_here. }
  pose proof (reset_cage_rebuilds example.edited "body" g m f) as H.
  cbv zeta in H. rewrite Hloc in H.
  destruct (H Hg Hm Hn Hf) as (s' & Hrun & Hcage & _).
  exists s'. split; [exact Hrun|]. split.
  - cbn. f_equal. exact Hedit.
  - rewrite Hcage. reflexivity.
Defined.

(** X21: [reset_cage] is not all or nothing.  When the partition is no
    longer a group of the live retopo mesh, or the retopo source network is
    gone, the cage object has been destroyed by the time this is found out:
    [reset_cage] raises [AttributeError] and leaves the partition without
    its cage, the control node as it was. *)
Theorem reset_cage_loses_cage (s : scene) (n : string) (g : bake_group) :
  let loc := network_location (control s) in
  bake_groups s !! group_path loc n Cage = Some g →
  n ∉ default [] (sn_geo <$> retopo_source s) →
  ∃ s', reset_cage n s = Raise AttributeError s'
    ∧ bake_groups s' !! group_path loc n Cage = None
    ∧ control s' = control s.
Proof.
  intros loc Hg Hn.
  unfold reset_cage, create_cage_group. unfold_steps. fold loc.
  rewrite destroy_eq, Hg. scene_simpl.
  destruct (retopo_source s) as [m|]; scene_simpl.
  - rewrite find_prim_group_findPrimGroup. unfold findPrimGroup.
    rewrite decide_False by done. scene_simpl.
    eexists. split; [reflexivity|]. scene_simpl. split; [apply destroyed_lookup_eq|done].
  - eexists. split; [reflexivity|]. scene_simpl. split; [apply destroyed_lookup_eq|done].
Qed.

Lemma reset_cage_loses_cage_witness :
  let s := set_source RetopoSource
             (Some (SourceNetwork "/geo/retopo.bgeo" ["wheel"] "default.bgeo" [] false false))
             example.network in
  ∃ s', reset_cage "body" s = Raise AttributeError s'
    ∧ bake_groups s' !! group_path "/obj" "body" Cage = None.
Proof.
  intros s.
  assert (Hloc : network_location (control s) = "/obj") by (vm_compute; reflexivity).
  destruct (bake_groups s !! group_path "/obj" "body" Cage) as [g|] eqn:Hg;
    [|vm_compute in Hg; discriminate Hg].
  assert (Hn : "body" ∉ default [] (sn_geo <$> retopo_source s)).
  { intros Hin. cbn in Hin. apply elem_of_cons in Hin as [Hin|Hin]; [discriminate Hin|].
    apply elem_of_nil in Hin. destruct Hin. }
  pose proof (reset_cage_loses_cage s "body" g) as H.
  cbv zeta in H. rewrite Hloc in H.
  destruct (H Hg Hn) as (s' & Hrun & Hcage & _).
  exists s'. split; [exact Hrun|exact Hcage].
Defined.
(** ** Re-creating the edit node of a cage *)

Lemma input_of_app {N} `{EqDecision N} (w1 w2 : wiring N) (n : N) (i : nat) :
  input_of (w1 ++ w2) n i
  = match input_of w2 n i with
    | Some later => Some later
    | None => input_of w1 n i
    end.
Proof.
  induction w1 as [|[[n' i'] src] w1 IH]; simpl.
  - by destruct (input_of w2 n i).
  - rewrite IH. by destruct (input_of w2 n i).
Qed.

(** X22: re-creating the edit node restores the cage chain.  On a chain
    that is wired as [create_cage_group] wires it but for the edit node,
    which is gone, and for the first input of the xform node that followed
    it, the two connections [edit_cage] makes give back, input for input,
    the wiring [create_cage_group] made. *)
Theorem edit_cage_restores_chain (w : wiring cage_sops.node) :
  (∀ i, input_of w cage_sops.edit i = None) →
  (∀ n i, n ≠ cage_sops.edit → (n, i) ≠ (cage_sops.xform, 0%nat) →
     input_of w n i = input_of cage_sops.connections n i) →
  ∀ n i, input_of (edit_cage_connections w) n i = input_of cage_sops.connections n i.
Proof.
  intros Hedit Hrest n i. unfold edit_cage_connections. rewrite input_of_app.
  destruct (decide (n = cage_sops.edit)) as [->|Hn].
  - rewrite Hedit. by destruct i as [|[|i]].
  - destruct (decide ((n, i) = (cage_sops.xform, 0%nat))) as [[= -> ->]|Hni]; [done|].
    rewrite <- (Hrest n i) by done.
    destruct n; try done; destruct i as [|i]; done.
Qed.

Lemma edit_cage_restores_chain_witness :
  input_of (without_edit cage_sops.connections) cage_sops.xform 0 = None
  ∧ input_of (edit_cage_connections (without_edit cage_sops.connections)) cage_sops.xform 0
    = Some (FromNode cage_sops.edit).
Proof.
  assert (H1 : ∀ i, input_of (without_edit cage_sops.connections) cage_sops.edit i = None).
  { intros [|[|i]]; reflexivity. }
  assert (H2 : ∀ n i, n ≠ cage_sops.edit → (n, i) ≠ (cage_sops.xform, 0%nat) →
            input_of (without_edit cage_sops.connections) n i
            = input_of cage_sops.connections n i).
  { intros n i Hn Hni.
    destruct n; try (by destruct Hn); destruct i as [|[|i]]; try reflexivity.
    by destruct Hni. }
  split; [reflexivity|].
  rewrite (edit_cage_restores_chain _ H1 H2 cage_sops.xform 0). reflexivity.
Defined.
(** ** update_network when the partitions have not changed *)

Lemma sorted_difference_self (l : list string) : Py.sorted_difference l l = [].
Proof.
  destruct (Py.sorted_difference l l) as [|x k] eqn:H; [done|].
  assert (Hx : x ∈ Py.sorted_difference l l) by (rewrite H; left).
  apply sorted_difference_elem_of in Hx as [? ?]. done.
Qed.

(** X23: updating when the new meshes have the partitions the network
    already has changes no bake group, no aggregator, no parameter value
    and not the list of names, and shows nothing: the live file nodes are
    reloaded and the callbacks of the display buttons rewritten, that is
    all. *)
Theorem update_network_unchanged (s : scene) (names : list string) (geo1 geo2 : geometry) :
  consistent s names → names ≠ [] →
  import_geometry s (retopo_source_path (control s)) = Some geo1 →
  import_geometry s (reference_source_path (control s)) = Some geo2 →
  well_formed_geometry geo1 → well_formed_geometry geo2 →
  (∀ x, x ∈ names ↔ x ∈ geo1) → (∀ x, x ∈ geo1 ↔ x ∈ geo2) →
  ∃ s', update_network s = Ok tt s'
    ∧ bake_groups s' = bake_groups s
    ∧ (∀ r, get_output r s' = get_output r s)
    ∧ prim_groups (control s') = prim_groups (control s)
    ∧ (∀ k, same_folder (folders (control s') !! k) (folders (control s) !! k))
    ∧ (∀ k, gf_parms <$> folders (control s') !! k = gf_parms <$> folders (control s) !! k)
    ∧ messages s' = messages s.
Proof.
  intros Hcons Hne Hg1 Hg2 Hwf1 Hwf2 Hnames Hsame.
  pose proof Hcons as (Hv & Hnd & Hpg & Hnodes & Hfo & [n1 Hs1] & [n2 Hs2] & Hout).
  assert (Hsorted : Py.sorted names = Py.sorted geo1) by by apply sorted_eq_iff.
  assert (Hne1 : geo1 ≠ []).
  { intros ->. destruct names as [|x names]; [done|].
    by apply (not_elem_of_nil x), Hnames; left. }
  assert (Hok : (primitive_groups_match geo1 geo2).1 = true).
  { apply primitive_groups_match_true. split; [done|]. by apply sorted_eq_iff. }
  rewrite (update_network_validated s n1 n2 geo1 geo2) by done.
  assert (Hold : Py.split " " (prim_groups (control s)) = Py.sorted geo1).
  { rewrite Hpg, Hsorted. apply split_join.
    - by intros ?%sorted_nil_inv.
    - rewrite <- Hsorted. by apply valid_name_free, sorted_Forall. }
  rewrite Hold. unfold reconcile. rewrite sorted_difference_self.
  set (v := validated s n1 n2 geo1 geo2).
  set (m1 := with_file (retopo_source_path (control s))
               (with_temp_switch (is_path_fbx (retopo_source_path (control s)))
                  (with_temp_geo geo1 (with_temp_file (retopo_source_path (control s)) n1)))).
  set (m2 := with_file (reference_source_path (control s))
               (with_temp_switch (is_path_fbx (reference_source_path (control s)))
                  (with_temp_geo geo2 (with_temp_file (reference_source_path (control s)) n2)))).
  set (s2 := set_control (set_folders (folders (control v)) (control v)) v).
  set (s3 := set_source RetopoSource (Some (with_geo geo1 m1)) s2).
  set (s4 := set_source ReferenceSource (Some (with_geo geo2 m2)) s3).
  assert (Hr3 : press_reload RetopoSource s2 = Ok tt s3).
  { apply press_reload_ok; [done|]. exact Hg1. }
  assert (Hr4 : press_reload ReferenceSource s3 = Ok tt s4).
  { apply press_reload_ok; [done|]. exact Hg2. }
  destruct (update_display_buttons_spec s4 (with_geo geo1 m1)) as (ptg & Hrun & Hin & Hnin).
  { done. }
  { intros n Hn. apply Hfo. apply Hnames. exact Hn. }
  eexists. split.
  { unfold mbind at 1, M_bind at 1. unfold get at 1.
    unfold for_each. cbn [fold_m].
    unfold mbind at 1, M_bind at 1. unfold mret at 1, M_ret at 1.
    unfold mbind at 1, M_bind at 1. unfold modify_control at 1, modify at 1. fold s2.
    unfold mbind at 1, M_bind at 1. rewrite Hr3.
    unfold mbind at 1, M_bind at 1. rewrite Hr4.
    unfold mbind at 1, M_bind at 1. unfold mret at 1, M_ret at 1.
    exact Hrun. }
  scene_simpl. split_and!; try done.
  - intros k. destruct (decide (k ∈ geo1)) as [Hk|Hk].
    + rewrite (Hin k Hk). cbn. unfold same_folder. by destruct (folders (control s) !! k).
    + by rewrite (Hnin k Hk).
  - intros k. destruct (decide (k ∈ geo1)) as [Hk|Hk].
    + rewrite (Hin k Hk). cbn. by destruct (folders (control s) !! k).
    + by rewrite (Hnin k Hk).
Qed.

Lemma update_network_unchanged_witness :
  let s := example.with_files ["body"; "wheel"] ["wheel"; "body"] example.network in
  ∃ s', update_network s = Ok tt s' ∧ bake_groups s' = bake_groups s.
Proof.
  intros s.
  assert (Hcons : consistent s ["wheel"; "body"])
    by exact (example_network_consistent ["body"; "wheel"] ["wheel"; "body"]).
  assert (Hne : ["wheel"; "body"] ≠ []) by discriminate.
  assert (Hg1 : import_geometry s (retopo_source_path (control s)) = Some ["body"; "wheel"])
    by (vm_compute; reflexivity).
  assert (Hg2 : import_geometry s (reference_source_path (control s)) = Some ["wheel"; "body"])
    by (vm_compute; reflexivity).
  assert (Hwf1 : well_formed_geometry ["body"; "wheel"])
    by (unfold well_formed_geometry; compute_done).
  assert (Hwf2 : well_formed_geometry ["wheel"; "body"])
    by (unfold well_formed_geometry; compute_done).
  assert (Hn : ∀ x, x ∈ ["wheel"; "body"] ↔ x ∈ ["body"; "wheel"]).
  { intros x. rewrite !elem_of_cons. tauto. }
  assert (Hsame : ∀ x, x ∈ ["body"; "wheel"] ↔ x ∈ ["wheel"; "body"]).
  { intros x. rewrite !elem_of_cons. tauto. }
  destruct (update_network_unchanged s ["wheel"; "body"] ["body"; "wheel"] ["wheel"; "body"]
              Hcons Hne Hg1 Hg2 Hwf1 Hwf2 Hn Hsame) as (s' & Hrun & Hbg & _).
  exists s'.
  split; [exact Hrun|exact Hbg].
Defined.
(** ** The aggregators through an update *)

Lemma remove_bundle_outputs (loc : string) (ptg ptg1 : gmap string group_folder)
    (x : string) (s s1 : scene) :
  remove_bundle loc ptg x s = Ok ptg1 s1 →
  ∀ r, get_output r s1
       = (λ o, remove_from_multiparm o "objpath" (group_path loc x r)) <$> get_output r s.
Proof.
  unfold remove_bundle. unfold_steps. scene_simpl.
  destruct (retopo_output s) as [o1|] eqn:Ho1; [|done]. scene_simpl.
  destruct (reference_output s) as [o2|] eqn:Ho2; [|done]. scene_simpl.
  destruct (cage_output s) as [o3|] eqn:Ho3; [|done]. scene_simpl.
  rewrite destroy_eq. scene_simpl.
  destruct (bake_groups s !! group_path loc x Retopo) as [g1|]; [|done]. scene_simpl.
  rewrite destroy_eq. scene_simpl.
  destruct (destroyed _ _ !! group_path loc x Reference) as [g2|]; [|done]. scene_simpl.
  rewrite destroy_eq. scene_simpl.
  destruct (destroyed _ _ !! group_path loc x Cage) as [g3|]; [|done]. scene_simpl.
  destruct (ptg !! x) as [fo|]; [|done].
  intros [= <- <-]. intros []; scene_simpl; by rewrite ?Ho1, ?Ho2, ?Ho3.
Qed.

(** Steps that write bake groups and the control node only keep whatever
    does not depend on these. *)
Section group_steps.

Variable I : scene → Prop.
Hypothesis I_bake_groups : ∀ s m, I s → I (set_bake_groups m s).
Hypothesis I_control : ∀ s c, I s → I (set_control c s).

Lemma steps_modify_control (f : control_parms → control_parms) :
  preserves I (modify_control f).
Proof. apply preserves_modify. intros s. apply I_control. Qed.

Lemma steps_set_display_flag p v : preserves I (set_display_flag p v).
Proof. apply preserves_modify. intros s. apply I_bake_groups. Qed.

Lemma steps_set_input p q : preserves I (set_input p q).
Proof. apply preserves_modify. intros s. apply I_bake_groups. Qed.

Lemma steps_create_object p r : preserves I (create_object p r).
Proof.
  intros s Hs. unfold create_object. destruct (bake_groups s !! p); [done|].
  by apply I_bake_groups.
Qed.

Lemma steps_destroy p : preserves I (destroy p).
Proof.
  intros s Hs. unfold destroy. destruct (bake_groups s !! p); [|done].
  by apply I_bake_groups.
Qed.

Lemma steps_create_retopo_group pg : preserves I (create_retopo_group pg).
Proof.
  unfold create_retopo_group.
  apply preserves_deref_bind. intros a _.
  apply preserves_get_bind. intros s1 _. cbv zeta.
  apply preserves_bind; [apply steps_create_object|]. intros _.
  apply preserves_deref_bind. intros n _.
  apply preserves_bind; [apply steps_modify_control|]. intros _.
  apply preserves_get_bind. intros s2 _.
  apply preserves_deref_bind. intros fo _.
  apply preserves_bind; [apply steps_set_display_flag|]. intros _.
  apply preserves_ret.
Qed.

Lemma steps_create_reference_group pg : preserves I (create_reference_group pg).
Proof.
  unfold create_reference_group.
  apply preserves_deref_bind. intros a _.
  apply preserves_get_bind. intros s1 _. cbv zeta.
  apply preserves_bind; [apply steps_create_object|]. intros _.
  apply preserves_deref_bind. intros fo _.
  apply preserves_bind; [apply steps_set_display_flag|]. intros _.
  apply preserves_bind; [apply steps_modify_control|]. intros _.
  apply preserves_ret.
Qed.

Lemma steps_create_cage_group pg : preserves I (create_cage_group pg).
Proof.
  unfold create_cage_group.
  apply preserves_deref_bind. intros a _.
  apply preserves_get_bind. intros s1 _. cbv zeta.
  apply preserves_bind; [apply steps_create_object|]. intros _.
  apply preserves_deref_bind. intros fo _.
  apply preserves_bind; [apply steps_set_display_flag|]. intros _.
  apply preserves_bind; [apply steps_modify_control|]. intros _.
  apply preserves_bind; [apply steps_modify_control|]. intros _.
  apply preserves_ret.
Qed.

Lemma steps_update_display_buttons : preserves I update_display_buttons.
Proof.
  unfold update_display_buttons.
  apply preserves_get_bind. intros s1 _.
  apply preserves_deref_bind. intros n _. cbv zeta.
  apply preserves_bind; [|intros ?; apply steps_modify_control].
  apply preserves_fold_m. intros ptg x _.
  apply preserves_deref_bind. intros fo _. apply preserves_ret.
Qed.

(** The two loop bodies of an update, for what does not depend on the
    aggregators either. *)
Hypothesis I_output : ∀ s r v, I s → I (set_output r v s).

Lemma steps_remove_bundle loc ptg x : preserves I (remove_bundle loc ptg x).
Proof.
  unfold remove_bundle.
  assert (Hdrop : ∀ r,
    preserves I
      (s ← get; object_merge ← deref (get_output r s);
       modify (set_output r (Some
         (remove_from_multiparm object_merge "objpath" (group_path loc x r)))))).
  { intros r. apply preserves_get_bind. intros s1 _.
    apply preserves_deref_bind. intros om _.
    apply preserves_modify. intros s. apply I_output. }
  cbv zeta.
  apply preserves_bind; [apply Hdrop|]. intros _.
  apply preserves_bind; [apply Hdrop|]. intros _.
  apply preserves_bind; [apply Hdrop|]. intros _.
  apply preserves_bind; [apply steps_destroy|]. intros _.
  apply preserves_bind; [apply steps_destroy|]. intros _.
  apply preserves_bind; [apply steps_destroy|]. intros _.
  apply preserves_bind; [apply steps_modify_control|]. intros _.
  destruct (ptg !! x); [apply preserves_ret|apply preserves_raise].
Qed.

Lemma steps_add_bundle loc c : preserves I (add_bundle loc c).
Proof.
  unfold add_bundle.
  assert (Hadd : ∀ r,
    preserves I
      (s ← get; object_merge ← deref (get_output r s);
       let numobj := (length object_merge + 1)%nat in
       modify (set_output r (Some
         (set_objpath numobj (group_path loc c r) (set_numobj numobj object_merge)))))).
  { intros r. apply preserves_get_bind. intros s1 _.
    apply preserves_deref_bind. intros om _.
    apply preserves_modify. intros s. apply I_output. }
  cbv zeta.
  apply preserves_get_bind. intros s1 _.
  apply preserves_deref_bind. intros n1 _.
  apply preserves_bind; [apply steps_create_retopo_group|]. intros p1.
  apply preserves_deref_bind. intros n2 _.
  apply preserves_bind; [apply steps_create_reference_group|]. intros p2.
  apply preserves_bind; [apply steps_create_cage_group|]. intros p3.
  apply preserves_bind; [apply steps_set_input|]. intros _.
  apply preserves_bind; [apply steps_set_input|]. intros _.
  apply preserves_bind; [apply Hadd|]. intros _.
  apply preserves_bind; [apply Hadd|]. intros _.
  apply preserves_bind; [apply Hadd|]. intros _.
  apply steps_modify_control.
Qed.

End group_steps.

Lemma outputs_bake_groups o s m : outputs_are o s → outputs_are o (set_bake_groups m s).
Proof. intros Hs r. rewrite <- (Hs r). by destruct r. Qed.

Lemma outputs_control o s c : outputs_are o s → outputs_are o (set_control c s).
Proof. intros Hs r. rewrite <- (Hs r). by destruct r. Qed.

Lemma outputs_modify_control o (f : control_parms → control_parms) :
  preserves (outputs_are o) (modify_control f).
Proof. apply steps_modify_control, outputs_control. Qed.

Lemma outputs_set_input o p q : preserves (outputs_are o) (set_input p q).
Proof. apply steps_set_input, outputs_bake_groups. Qed.

Lemma outputs_create_retopo_group o pg : preserves (outputs_are o) (create_retopo_group pg).
Proof. apply steps_create_retopo_group; [apply outputs_bake_groups|apply outputs_control]. Qed.

Lemma outputs_create_reference_group o pg :
  preserves (outputs_are o) (create_reference_group pg).
Proof.
  apply steps_create_reference_group; [apply outputs_bake_groups|apply outputs_control].
Qed.

Lemma outputs_create_cage_group o pg : preserves (outputs_are o) (create_cage_group pg).
Proof. apply steps_create_cage_group; [apply outputs_bake_groups|apply outputs_control]. Qed.

Lemma outputs_add_reference (o : role → option (list merge_entry)) (r : role)
    (path : string) :
  spec (outputs_are o)
    (s ← get; object_merge ← deref (get_output r s);
     let numobj := (length object_merge + 1)%nat in
     modify (set_output r (Some (set_objpath numobj path (set_numobj numobj object_merge)))))
    (λ _, outputs_are
            (λ r', if decide (r' = r)
                   then (λ om, om ++ [MergeEntry true path "" false]) <$> o r'
                   else o r'))
    (λ _ _, True).
Proof.
  intros s Hs. unfold_steps. rewrite (Hs r).
  destruct (o r) as [om|] eqn:Ho; [|done]. simpl.
  rewrite add_reference_append.
  intros r'. case_decide as Hr.
  - subst r'. rewrite Ho. by destruct r.
  - rewrite <- (Hs r'). by destruct r, r'.
Qed.

Lemma spec_any {A} (I : scene → Prop) (m : M A) :
  preserves I m → spec I m (λ _, I) (λ _ _, True).
Proof. intros H. eapply spec_weaken; [exact H|done..]. Qed.

Lemma add_bundle_outputs_spec (o : role → option (list merge_entry)) (loc c : string) :
  spec (outputs_are o) (add_bundle loc c)
    (λ _, outputs_are
            (λ r, (λ om, om ++ [MergeEntry true (group_path loc c r) "" false]) <$> o r))
    (λ _ _, True).
Proof.
  unfold add_bundle.
  apply spec_get_seq. intros s1 _.
  apply spec_deref_bind; [|done]. intros n1 _.
  eapply spec_bind; [apply spec_any, outputs_create_retopo_group|]. intros p1.
  apply spec_deref_bind; [|done]. intros n2 _.
  eapply spec_bind; [apply spec_any, outputs_create_reference_group|]. intros p2.
  eapply spec_bind; [apply spec_any, outputs_create_cage_group|]. intros p3.
  eapply spec_bind; [apply spec_any, outputs_set_input|]. intros ?.
  eapply spec_bind; [apply spec_any, outputs_set_input|]. intros ?.
  eapply spec_bind; [apply outputs_add_reference|]. intros ?.
  eapply spec_bind; [apply outputs_add_reference|]. intros ?.
  eapply spec_bind; [apply outputs_add_reference|]. intros ?.
  eapply spec_weaken.
  - apply (outputs_modify_control
             (λ r, (λ om, om ++ [MergeEntry true (group_path loc c r) "" false]) <$> o r)).
  - intros s Hs r. rewrite (Hs r). by destruct r.
  - intros ? s Hs. exact Hs.
  - done.
Qed.

(** What a successful [add_bundle] does to the three aggregators. *)
Lemma add_bundle_outputs (loc c : string) (s s1 : scene) :
  add_bundle loc c s = Ok tt s1 →
  ∀ r, get_output r s1
       = (λ o, o ++ [MergeEntry true (group_path loc c r) "" false]) <$> get_output r s.
Proof.
  intros Hrun.
  pose proof (add_bundle_outputs_spec (λ r, get_output r s) loc c s) as H.
  rewrite Hrun in H. apply H. by intros r.
Qed.
Lemma remove_bundle_outputs_spec (o : role → option (list merge_entry)) (loc : string)
    (ptg : gmap string group_folder) (x : string) :
  spec (outputs_are o) (remove_bundle loc ptg x)
    (λ _, outputs_are
            (λ r, (λ om, remove_from_multiparm om "objpath" (group_path loc x r)) <$> o r))
    (λ _ _, True).
Proof.
  intros s Hs. destruct (remove_bundle loc ptg x s) as [ptg1 s1|] eqn:Hrun; [|done].
  intros r. rewrite (remove_bundle_outputs _ _ _ _ _ _ Hrun r), (Hs r). reflexivity.
Qed.

Lemma removal_outputs (loc : string) (l : list string) :
  ∀ (o : role → option (list merge_entry)) (ptg : gmap string group_folder),
  spec (outputs_are o) (fold_m (remove_bundle loc) l ptg)
    (λ _, outputs_are (λ r, drop_references loc r l <$> o r)) (λ _ _, True).
Proof.
  induction l as [|x l IH]; intros o ptg.
  - apply spec_ret. intros s Hs r. rewrite (Hs r). by destruct (o r).
  - cbn [fold_m]. eapply spec_bind; [apply remove_bundle_outputs_spec|].
    intros ptg1. eapply spec_weaken; [apply IH|done| |done].
      intros ? s Hs r. rewrite (Hs r). by destruct (o r).
Qed.

Lemma addition_outputs (loc : string) (l : list string) :
  ∀ (o : role → option (list merge_entry)) (u : unit),
  spec (outputs_are o) (fold_m (λ _ x, add_bundle loc x) l u)
    (λ _, outputs_are (λ r, (λ om, om ++ new_references loc r l) <$> o r)) (λ _ _, True).
Proof.
  induction l as [|x l IH]; intros o u.
  - apply spec_ret. intros s Hs r. rewrite (Hs r).
    destruct (o r); simpl; [|done]. by rewrite app_nil_r.
  - cbn [fold_m]. eapply spec_bind; [apply add_bundle_outputs_spec|].
    intros u1. eapply spec_weaken; [apply IH|done| |done].
    intros ? s Hs r. rewrite (Hs r). destruct (o r); simpl; [|done].
    unfold new_references. by rewrite <- app_assoc.
Qed.

Lemma outputs_press_reload o k : preserves (outputs_are o) (press_reload k).
Proof.
  intros s Hs. unfold press_reload. destruct (get_source k s); [|done].
  intros r. rewrite <- (Hs r). by destruct r, k.
Qed.

Lemma outputs_update_display_buttons o : preserves (outputs_are o) update_display_buttons.
Proof. apply steps_update_display_buttons, outputs_control. Qed.

(** What a reconciliation that goes through does to the aggregators. *)
Lemma reconcile_outputs (loc : string) (old new : list string) (s s1 : scene) :
  reconcile loc old new s = Ok tt s1 →
  ∀ r, get_output r s1
       = (λ om, drop_references loc r (Py.sorted_difference old new) om
                ++ new_references loc r (Py.sorted_difference new old))
         <$> get_output r s.
Proof.
  intros Hrun.
  assert (H : spec (outputs_are (λ r, get_output r s)) (reconcile loc old new)
                (λ _, outputs_are
                   (λ r, (λ om, drop_references loc r (Py.sorted_difference old new) om
                                ++ new_references loc r (Py.sorted_difference new old))
                         <$> get_output r s))
                (λ _ _, True)).
  { unfold reconcile.
    apply spec_get_seq. intros s0 _. cbv zeta.
    eapply spec_bind; [apply removal_outputs|]. intros ptg.
    eapply spec_bind; [apply spec_any, outputs_modify_control|]. intros ?.
    eapply spec_bind; [apply spec_any, outputs_press_reload|]. intros ?.
    eapply spec_bind; [apply spec_any, outputs_press_reload|]. intros ?.
    eapply spec_bind; [apply addition_outputs|]. intros ?.
    eapply spec_weaken.
    - apply (outputs_update_display_buttons
               (λ r, (λ om, drop_references loc r (Py.sorted_difference old new) om
                            ++ new_references loc r (Py.sorted_difference new old))
                     <$> get_output r s)).
    - intros s' Hs r. rewrite (Hs r). by destruct (get_output r s).
    - intros ? s' Hs. exact Hs.
    - done. }
  specialize (H s). rewrite Hrun in H. apply H. by intros r.
Qed.


(** ** The display buttons through an update *)

Lemma update_display_buttons_names (s s' : scene) (m1 : source_network) :
  retopo_source s = Some m1 →
  update_display_buttons s = Ok tt s' →
  ∀ k, k ∈ sn_geo m1 →
    ∃ f, folders (control s') !! k = Some f ∧ gf_button_names f = Py.sorted (sn_geo m1).
Proof.
  intros Hs1 Hrun.
  destruct (decide (Forall (λ n, is_Some (folders (control s) !! n)) (sn_geo m1)))
    as [Hfo|Hfo]; rewrite Forall_forall in Hfo.
  - destruct (update_display_buttons_spec s m1 Hs1 Hfo) as (ptg & Hrun' & Hin & _).
    rewrite Hrun' in Hrun. injection Hrun as <-.
    intros k Hk. destruct (Hfo k Hk) as [f Hf].
    exists (with_button_names (Py.sorted (sn_geo m1)) f). split; [|done].
    cbn. by rewrite Hin, Hf.
  - rewrite (update_display_buttons_run s m1 Hs1) in Hrun.
    by rewrite refresh_buttons_missing in Hrun.
Qed.

(** A reconciliation that goes through ends with the buttons of every
    partition of the reloaded retopo mesh addressing the partitions of that
    mesh. *)
Lemma reconcile_buttons (loc : string) (old new : list string) (s s' : scene)
    (m1 : source_network) (geo1 : geometry) :
  retopo_source s = Some m1 → import_geometry s (sn_file m1) = Some geo1 →
  reconcile loc old new s = Ok tt s' →
  ∀ k, k ∈ geo1 →
    ∃ f, folders (control s') !! k = Some f ∧ gf_button_names f = Py.sorted geo1.
Proof.
  intros Hs1 Hg1 Hrun.
  set (I0 := λ s : scene, retopo_source s = Some m1
                          ∧ import_geometry s (sn_file m1) = Some geo1).
  set (I1 := λ s : scene, retopo_source s = Some (with_geo geo1 m1)).
  assert (H : spec I0 (reconcile loc old new)
                (λ _ s', ∀ k, k ∈ geo1 →
                   ∃ f, folders (control s') !! k = Some f
                        ∧ gf_button_names f = Py.sorted geo1)
                (λ _ _, True)).
  { unfold reconcile.
    apply spec_get_seq. intros s0 _. cbv zeta.
    eapply spec_bind.
    { apply spec_any, preserves_fold_m. intros ptg x _.
      by apply steps_remove_bundle. }
    intros ptg.
    eapply spec_bind; [by apply spec_any, steps_modify_control|]. intros ?.
    eapply (spec_bind _ _ _ (λ _, I1)).
    { intros s1 [Hm Hg]. unfold press_reload. cbn [get_source]. rewrite Hm, Hg. done. }
    intros ?.
    eapply (spec_bind _ _ _ (λ _, I1)).
    { intros s1 Hm. unfold press_reload. destruct (get_source ReferenceSource s1); done. }
    intros ?.
    eapply (spec_bind _ _ _ (λ _, I1)).
    { apply spec_any, preserves_for_each. intros x _. by apply steps_add_bundle. }
    intros ?.
    intros s1 Hm. destruct (update_display_buttons s1) as [[] s2|] eqn:Hrun2; [|done].
    apply (update_display_buttons_names s1 s2 _ Hm Hrun2). }
  specialize (H s). rewrite Hrun in H. by apply H.
Qed.

(** X25: an update that changes the partitions leaves every isolate button
    up to date.  Each partition of the new meshes has its folder, the
    buttons of the folder address exactly the partitions of the new meshes,
    in ascending order, and all the partitions they address have their
    three objects and their folder. *)
Theorem update_network_buttons (s : scene) (names : list string) (geo1 geo2 : geometry) :
  consistent s names → names ≠ [] →
  import_geometry s (retopo_source_path (control s)) = Some geo1 →
  import_geometry s (reference_source_path (control s)) = Some geo2 →
  well_formed_geometry geo1 → well_formed_geometry geo2 → Forall valid_name geo1 →
  geo1 ≠ [] → (∀ x, x ∈ geo1 ↔ x ∈ geo2) →
  ∃ s', update_network s = Ok tt s'
    ∧ ∀ k, k ∈ geo1 →
        ∃ f, folders (control s') !! k = Some f
             ∧ gf_button_names f = Py.sorted geo1
             ∧ ∀ n, n ∈ gf_button_names f → complete s' n.
Proof.
  intros Hcons Hne Hg1 Hg2 Hwf1 Hwf2 Hv1 Hne1 Hsame.
  pose proof Hcons as (Hv & Hnd & Hpg & _ & _ & [n1 Hs1] & [n2 Hs2] & _).
  assert (Hok : (primitive_groups_match geo1 geo2).1 = true).
  { apply primitive_groups_match_true. split; [done|]. by apply sorted_eq_iff. }
  rewrite (update_network_validated s n1 n2 geo1 geo2) by done.
  assert (Hold : Py.split " " (prim_groups (control s)) = Py.sorted names).
  { rewrite Hpg. apply split_join.
    - by intros ?%sorted_nil_inv.
    - by apply valid_name_free, sorted_Forall. }
  rewrite Hold.
  set (m1 := with_file (retopo_source_path (control s))
               (with_temp_switch (is_path_fbx (retopo_source_path (control s)))
                  (with_temp_geo geo1 (with_temp_file (retopo_source_path (control s)) n1)))).
  set (m2 := with_file (reference_source_path (control s))
               (with_temp_switch (is_path_fbx (reference_source_path (control s)))
                  (with_temp_geo geo2
                     (with_temp_file (reference_source_path (control s)) n2)))).
  change (network_location (control s))
    with (network_location (control (validated s n1 n2 geo1 geo2))).
  destruct (reconcile_converges (validated s n1 n2 geo1 geo2) names geo1 geo2 m1 m2)
    as (s' & Hrun & Hcons' & _); try done.
  { by apply consistent_validated. }
  exists s'. split; [done|].
  intros k Hk.
  assert (Hm1 : retopo_source (validated s n1 n2 geo1 geo2) = Some m1) by done.
  destruct (reconcile_buttons _ _ _ _ s' m1 geo1 Hm1 Hg1 Hrun k Hk) as (f & Hf & Hb).
  exists f. split_and!; [done..|].
  intros n Hn. rewrite Hb, sorted_elem_of in Hn.
  destruct Hcons' as (_ & _ & _ & Hnodes & Hfo & _).
  split; [|by apply Hfo].
  intros r. by apply Hnodes.
Qed.
Lemma update_network_buttons_witness :
  let s := example.with_files ["body"; "door"] ["door"; "body"] example.network in
  ∃ s' f, update_network s = Ok tt s'
    ∧ folders (control s') !! "door" = Some f
    ∧ gf_button_names f = ["body"; "door"].
Proof.
  intros s.
  assert (Hcons : consistent s ["wheel"; "body"])
    by exact (example_network_consistent ["body"; "door"] ["door"; "body"]).
  assert (Hne : ["wheel"; "body"] ≠ []) by discriminate.
  assert (Hg1 : import_geometry s (retopo_source_path (control s)) = Some ["body"; "door"])
    by (vm_compute; reflexivity).
  assert (Hg2 : import_geometry s (reference_source_path (control s)) = Some ["door"; "body"])
    by (vm_compute; reflexivity).
  assert (Hwf1 : well_formed_geometry ["body"; "door"])
    by (unfold well_formed_geometry; compute_done).
  assert (Hwf2 : well_formed_geometry ["door"; "body"])
    by (unfold well_formed_geometry; compute_done).
  assert (Hv1 : Forall valid_name ["body"; "door"]).
  { repeat constructor; compute_done. }
  assert (Hne1 : ["body"; "door"] ≠ []) by discriminate.
  assert (Hsame : ∀ x, x ∈ ["body"; "door"] ↔ x ∈ ["door"; "body"]).
  { intros x. rewrite !elem_of_cons. tauto. }
  assert (Hsorted : Py.sorted ["body"; "door"] = ["body"; "door"])
    by (vm_compute; reflexivity).
  destruct (update_network_buttons s ["wheel"; "body"] ["body"; "door"] ["door"; "body"]
              Hcons Hne Hg1 Hg2 Hwf1 Hwf2 Hv1 Hne1 Hsame) as (s' & Hrun & Hall).
  destruct (Hall "door") as (f & Hf & Hb & _).
  { apply list_elem_of_further, list_elem_of_here. }
  exists s', f.
  split; [exact Hrun|]. split; [exact Hf|].
  rewrite <- Hsorted. exact Hb.
Defined.
Lemma remove_from_multiparm_sublist (multi_parm : list merge_entry) (value : string) :
  remove_from_multiparm multi_parm "objpath" value `sublist_of` multi_parm.
Proof.
  rewrite remove_from_multiparm_unfold.
  destruct (list_find _ multi_parm) as [[k e]|]; [|done].
  set (i := (k + 1) / 4).
  rewrite <- (take_drop i multi_parm) at 3.
  apply sublist_app; [done|].
  replace (S i) with (i + 1)%nat by lia. rewrite <- drop_drop. apply sublist_drop.
Qed.

Lemma remove_from_multiparm_length (multi_parm : list merge_entry) (value : string) :
  length multi_parm - 1 ≤ length (remove_from_multiparm multi_parm "objpath" value).
Proof.
  rewrite remove_from_multiparm_unfold.
  destruct (list_find _ multi_parm) as [[k e]|]; [|lia].
  rewrite length_app, length_take, length_drop. lia.
Qed.

Lemma drop_references_sublist (loc : string) (r : role) (names : list string) :
  ∀ o, drop_references loc r names o `sublist_of` o.
Proof.
  induction names as [|x names IH]; intros o; [done|].
  unfold drop_references. cbn [foldl].
  etrans; [apply IH|apply remove_from_multiparm_sublist].
Qed.

Lemma drop_references_length (loc : string) (r : role) (names : list string) :
  ∀ o, length o - length names ≤ length (drop_references loc r names o).
Proof.
  induction names as [|x names IH]; intros o; [simpl; lia|].
  unfold drop_references. cbn [foldl length].
  pose proof (IH (remove_from_multiparm o "objpath" (group_path loc x r))) as H1.
  pose proof (remove_from_multiparm_length o (group_path loc x r)) as H2.
  unfold drop_references in H1. lia.
Qed.

Lemma NoDup_group_paths (loc : string) (r : role) (l : list string) :
  NoDup l → NoDup ((λ x, group_path loc x r) <$> l).
Proof.
  induction 1 as [|x l Hx Hl IH]; [constructor|].
  rewrite fmap_cons. constructor; [|done].
  intros (y & Hy & Hin)%list_elem_of_fmap.
  apply group_path_inj in Hy as [-> _]. done.
Qed.

Lemma elem_of_group_paths (loc : string) (r : role) (l : list string) (x : string) :
  group_path loc x r ∈ (λ x, group_path loc x r) <$> l ↔ x ∈ l.
Proof.
  split.
  - intros (y & Hy & Hin)%list_elem_of_fmap. by apply group_path_inj in Hy as [-> _].
  - intros Hx. by apply (list_elem_of_fmap_2 (λ x, group_path loc x r)).
Qed.

Lemma objpath_new_references (loc : string) (r : role) (l : list string) :
  me_objpath <$> new_references loc r l = (λ x, group_path loc x r) <$> l.
Proof. unfold new_references. rewrite <- list_fmap_compose. done. Qed.

Lemma get_output_validated (s : scene) (n1 n2 : source_network) (geo1 geo2 : geometry)
    (r : role) :
  get_output r (validated s n1 n2 geo1 geo2) = get_output r s.
Proof. by destruct r. Qed.

(** The update on a consistent network, with its aggregators. *)
Lemma update_network_run (s : scene) (names : list string) (geo1 geo2 : geometry) :
  consistent s names → names ≠ [] →
  import_geometry s (retopo_source_path (control s)) = Some geo1 →
  import_geometry s (reference_source_path (control s)) = Some geo2 →
  well_formed_geometry geo1 → well_formed_geometry geo2 → Forall valid_name geo1 →
  geo1 ≠ [] → (∀ x, x ∈ geo1 ↔ x ∈ geo2) →
  ∃ s', update_network s = Ok tt s'
    ∧ consistent s' geo1
    ∧ network_location (control s') = network_location (control s)
    ∧ ∀ r, get_output r s'
           = (λ om, drop_references (network_location (control s)) r
                      (Py.sorted_difference (Py.sorted names) (Py.sorted geo1)) om
                    ++ new_references (network_location (control s)) r
                         (Py.sorted_difference (Py.sorted geo1) (Py.sorted names)))
             <$> get_output r s.
Proof.
  intros Hcons Hne Hg1 Hg2 Hwf1 Hwf2 Hv1 Hne1 Hsame.
  pose proof Hcons as (Hv & Hnd & Hpg & _ & _ & [n1 Hs1] & [n2 Hs2] & _).
  assert (Hok : (primitive_groups_match geo1 geo2).1 = true).
  { apply primitive_groups_match_true. split; [done|]. by apply sorted_eq_iff. }
  rewrite (update_network_validated s n1 n2 geo1 geo2) by done.
  assert (Hold : Py.split " " (prim_groups (control s)) = Py.sorted names).
  { rewrite Hpg. apply split_join.
    - by intros ?%sorted_nil_inv.
    - by apply valid_name_free, sorted_Forall. }
  rewrite Hold.
  set (loc := network_location (control s)).
  destruct (reconcile_converges (validated s n1 n2 geo1 geo2) names geo1 geo2
              (with_file (retopo_source_path (control s))
                 (with_temp_switch (is_path_fbx (retopo_source_path (control s)))
                    (with_temp_geo geo1 (with_temp_file (retopo_source_path (control s)) n1))))
              (with_file (reference_source_path (control s))
                 (with_temp_switch (is_path_fbx (reference_source_path (control s)))
                    (with_temp_geo geo2
                       (with_temp_file (reference_source_path (control s)) n2)))))
    as (s' & Hrun & Hcons' & _); try done.
  { by apply consistent_validated. }
  change (network_location (control (validated s n1 n2 geo1 geo2))) with loc in Hrun.
  exists s'. split_and!; [done..| |].
  - assert (Hfresh : ¬ valid_name "") by (by intros []).
    assert (Hn : "" ∉ names).
    { intros Hin. rewrite Forall_forall in Hv. by apply Hfresh, Hv. }
    assert (Hg : "" ∉ geo1).
    { intros Hin. rewrite Forall_forall in Hv1. by apply Hfresh, Hv1. }
    assert (Hwired : wired_within (validated s n1 n2 geo1 geo2) "").
    { intros r g p Hgr _. destruct Hcons as (_ & _ & _ & Hnodes & _).
      exfalso. apply Hn, (Hnodes "" r). by eexists. }
    pose proof (preserves_final _ _ (validated s n1 n2 geo1 geo2)
                  (frame_reconcile (validated s n1 n2 geo1 geo2) "" Hwired
                     (Py.sorted names) (Py.sorted geo1)
                     ltac:(rewrite sorted_difference_elem_of, sorted_elem_of; tauto)
                     ltac:(rewrite sorted_difference_elem_of, sorted_elem_of; tauto))
                  (untouched_refl _ _)) as (Hloc & _).
    change (network_location (control (validated s n1 n2 geo1 geo2))) with loc in Hloc.
    by rewrite Hrun in Hloc.
  - intros r. rewrite (reconcile_outputs _ _ _ _ _ Hrun r), get_output_validated. done.
Qed.
(** X24: what an update makes of an aggregator.  On a network for a
    non-empty old set and new meshes that pass validation, the aggregator of
    a role ends as [remove_from_multiparm] leaves it, asked in ascending
    order of names for the reference of each group that goes, followed by
    the references of the new groups in ascending order of their names.  The
    old references that remain keep their order, and at most one of them is
    removed for each name that goes. *)
Theorem update_network_outputs (s : scene) (names : list string) (geo1 geo2 : geometry)
    (r : role) (o : list merge_entry) :
  let loc := network_location (control s) in
  let going := Py.sorted_difference (Py.sorted names) (Py.sorted geo1) in
  let coming := Py.sorted_difference (Py.sorted geo1) (Py.sorted names) in
  consistent s names → names ≠ [] →
  import_geometry s (retopo_source_path (control s)) = Some geo1 →
  import_geometry s (reference_source_path (control s)) = Some geo2 →
  well_formed_geometry geo1 → well_formed_geometry geo2 → Forall valid_name geo1 →
  geo1 ≠ [] → (∀ x, x ∈ geo1 ↔ x ∈ geo2) →
  get_output r s = Some o →
  ∃ s', update_network s = Ok tt s'
    ∧ get_output r s' = Some (drop_references loc r going o ++ new_references loc r coming)
    ∧ drop_references loc r going o `sublist_of` o
    ∧ length o - length going ≤ length (drop_references loc r going o).
Proof.
  intros loc going coming Hcons Hne Hg1 Hg2 Hwf1 Hwf2 Hv1 Hne1 Hsame Ho.
  destruct (update_network_run s names geo1 geo2) as (s' & Hrun & _ & _ & Hout); try done.
  exists s'. split_and!.
  - done.
  - by rewrite Hout, Ho.
  - apply drop_references_sublist.
  - apply drop_references_length.
Qed.

Lemma update_network_outputs_witness :
  let s := example.with_files ["body"; "door"] ["door"; "body"] example.network in
  ∃ s', update_network s = Ok tt s'
    ∧ get_output Cage s' = Some [MergeEntry true "/obj/wheel_cage" "" false;
                                 MergeEntry true "/obj/door_cage" "" false].
Proof.
  intros s.
  assert (Hcons : consistent s ["wheel"; "body"])
    by exact (example_network_consistent ["body"; "door"] ["door"; "body"]).
  assert (Hne : ["wheel"; "body"] ≠ []) by discriminate.
  assert (Hg1 : import_geometry s (retopo_source_path (control s)) = Some ["body"; "door"])
    by (vm_compute; reflexivity).
  assert (Hg2 : import_geometry s (reference_source_path (control s)) = Some ["door"; "body"])
    by (vm_compute; reflexivity).
  assert (Ho : get_output Cage s
               = Some [MergeEntry true "/obj/body_cage" "" false;
                       MergeEntry true "/obj/wheel_cage" "" false])
    by (vm_compute; reflexivity).
  assert (Hwf1 : well_formed_geometry ["body"; "door"])
    by (unfold well_formed_geometry; compute_done).
  assert (Hwf2 : well_formed_geometry ["door"; "body"])
    by (unfold well_formed_geometry; compute_done).
  assert (Hv1 : Forall valid_name ["body"; "door"]).
  { repeat constructor; compute_done. }
  assert (Hne1 : ["body"; "door"] ≠ []) by discriminate.
  assert (Hsame : ∀ x, x ∈ ["body"; "door"] ↔ x ∈ ["door"; "body"]).
  { intros x. rewrite !elem_of_cons. tauto. }
  assert (Hloc : network_location (control s) = "/obj") by (vm_compute; reflexivity).
  destruct (update_network_outputs s ["wheel"; "body"] ["body"; "door"] ["door"; "body"]
              Cage _ Hcons Hne Hg1 Hg2 Hwf1 Hwf2 Hv1 Hne1 Hsame Ho)
    as (s' & Hrun & Hout & _).
  exists s'. split; [exact Hrun|].
  rewrite Hloc in Hout.
  assert (Hval : drop_references "/obj" Cage
                   (Py.sorted_difference (Py.sorted ["wheel"; "body"])
                      (Py.sorted ["body"; "door"]))
                   [MergeEntry true "/obj/body_cage" "" false;
                    MergeEntry true "/obj/wheel_cage" "" false]
                 ++ new_references "/obj" Cage
                      (Py.sorted_difference (Py.sorted ["body"; "door"])
                         (Py.sorted ["wheel"; "body"]))
                 = [MergeEntry true "/obj/wheel_cage" "" false;
                    MergeEntry true "/obj/door_cage" "" false])
    by (vm_compute; reflexivity).
  rewrite Hval in Hout. exact Hout.
Defined.
Lemma singleton_list {A} (l : list A) (x : A) :
  NoDup l → (∀ y, y ∈ l ↔ y = x) → l = [x].
Proof.
  intros Hnd Hl. destruct l as [|y l].
  - exfalso. by apply (not_elem_of_nil x), Hl.
  - assert (y = x) as -> by (apply Hl; left).
    destruct l as [|z l]; [done|].
    apply NoDup_cons in Hnd as [Hx _].
    assert (z = x) as -> by (apply Hl; right; left).
    exfalso. apply Hx. left.
Qed.

(** X27: an update can leave an aggregator pointing at a group it has
    destroyed.  On a network whose aggregator lists the groups in ascending
    order of names, as [create_network] fills it, when the one partition
    that goes stands at place k of that order, k at least 1, and its path is
    part of no earlier path: the update succeeds and destroys the group, its
    reference stays in the aggregator, and the reference of the partition at
    place (k + 1) / 4, whose group stays, is the one taken out. *)
Theorem update_network_stale_reference (s : scene) (names : list string)
    (geo1 geo2 : geometry) (r : role) (x : string) (k : nat) :
  let loc := network_location (control s) in
  consistent s names → names ≠ [] →
  import_geometry s (retopo_source_path (control s)) = Some geo1 →
  import_geometry s (reference_source_path (control s)) = Some geo2 →
  well_formed_geometry geo1 → well_formed_geometry geo2 → Forall valid_name geo1 →
  geo1 ≠ [] → (∀ x, x ∈ geo1 ↔ x ∈ geo2) →
  get_output r s = Some (output_entries loc (Py.sorted names) r) →
  (∀ y, y ∈ names → y ∉ geo1 → y = x) → x ∉ geo1 →
  Py.sorted names !! k = Some x → 0 < k →
  (∀ j y, j < k → Py.sorted names !! j = Some y →
     Py.is_infix (group_path loc x r) (group_path loc y r) = false) →
  ∃ s' o' lost, update_network s = Ok tt s'
    ∧ get_output r s' = Some o'
    ∧ bake_groups s' !! group_path loc x r = None
    ∧ MergeEntry true (group_path loc x r) "" false ∈ o'
    ∧ Py.sorted names !! ((k + 1) / 4) = Some lost
    ∧ is_Some (bake_groups s' !! group_path loc lost r)
    ∧ MergeEntry true (group_path loc lost r) "" false ∉ o'.
Proof.
  intros loc Hcons Hne Hg1 Hg2 Hwf1 Hwf2 Hv1 Hne1 Hsame Ho Honly Hx Hk Hpos Hbefore.
  destruct (update_network_run s names geo1 geo2)
    as (s' & Hrun & Hcons' & Hloc & Hout); try done.
  fold loc in Hloc, Hout.
  specialize (Hout r). rewrite Ho in Hout. cbn [fmap option_fmap option_map] in Hout.
  set (sn := Py.sorted names) in *.
  set (f := λ n, MergeEntry true (group_path loc n r) "" false).
  set (o := output_entries loc sn r) in *.
  set (A := Py.sorted_difference (Py.sorted geo1) sn) in *.
  set (i := (k + 1) / 4).
  pose proof (removed_index_lt k Hpos) as Hi. fold i in Hi.
  pose proof (lookup_lt_Some _ _ _ Hk) as Hlen.
  assert (Hf : Inj (=) (=) f).
  { intros a b Hab. injection Hab as Hab. by apply group_path_inj in Hab as [? _]. }
  assert (Hndn : NoDup sn) by apply sorted_NoDup, Hcons.
  assert (Hxn : x ∈ names).
  { apply (sorted_elem_of x names). by eapply list_elem_of_lookup_2. }
  assert (Hgoing : Py.sorted_difference sn (Py.sorted geo1) = [x]).
  { apply singleton_list; [apply sorted_difference_NoDup|].
    intros y. unfold sn. rewrite sorted_difference_elem_of, !sorted_elem_of.
    split; [intros [? ?]; by apply Honly|by intros ->]. }
  assert (Hdrop : drop_references loc r [x] o = take i o ++ drop (S i) o).
  { unfold drop_references. cbn [foldl].
    apply (remove_from_multiparm_at o _ k (f x)).
    - unfold o, output_entries. by apply list_lookup_fmap_Some_2.
    - apply is_infix_refl.
    - intros j e' Hj He'. unfold o, output_entries in He'.
      apply list_lookup_fmap_Some_1 in He' as (y & -> & Hy). by apply (Hbefore j y). }
  rewrite Hgoing, Hdrop in Hout.
  destruct (lookup_lt_is_Some_2 sn i) as [lost Hlost]; [lia|].
  assert (Hlostn : lost ∈ names).
  { apply (sorted_elem_of lost names). by eapply list_elem_of_lookup_2. }
  assert (Hlostx : lost ≠ x).
  { intros ->. pose proof (NoDup_lookup sn i k x Hndn Hlost Hk). lia. }
  assert (Hlostg : lost ∈ geo1).
  { destruct (decide (lost ∈ geo1)) as [|Hno]; [done|]. by destruct (Hlostx (Honly _ Hlostn Hno)). }
  destruct Hcons' as (_ & _ & _ & Hnodes' & _). rewrite Hloc in Hnodes'.
  exists s', ((take i o ++ drop (S i) o) ++ new_references loc r A), lost.
  split_and!; [done|exact Hout| | |done| |].
  - apply eq_None_not_Some. by rewrite Hnodes'.
  - apply elem_of_app. left. apply elem_of_app. right.
    apply list_elem_of_lookup. exists (k - S i). rewrite lookup_drop.
    replace (S i + (k - S i)) with k by lia.
    exact (list_lookup_fmap_Some_2 f sn k x Hk).
  - by apply Hnodes'.
  - rewrite !elem_of_app. intros [[Hin|Hin]|Hin].
    + apply elem_of_take in Hin as (j & Hj & Hlt).
      apply list_lookup_fmap_Some_1 in Hj as (y & Hy%Hf & Hj). subst y.
      pose proof (NoDup_lookup sn i j lost Hndn Hlost Hj). lia.
    + apply list_elem_of_lookup in Hin as [j Hj]. rewrite lookup_drop in Hj.
      apply list_lookup_fmap_Some_1 in Hj as (y & Hy%Hf & Hj). subst y.
      pose proof (NoDup_lookup sn i _ lost Hndn Hlost Hj). lia.
    + apply list_elem_of_fmap in Hin as (y & Hy%Hf & Hin). subst y.
      unfold A, sn in Hin. rewrite sorted_difference_elem_of, !sorted_elem_of in Hin.
      by destruct Hin.
Qed.
Lemma update_network_stale_reference_witness :
  let s := example.with_files ["body"; "door"] ["door"; "body"] example.network in
  ∃ s' o', update_network s = Ok tt s'
    ∧ get_output Cage s' = Some o'
    ∧ bake_groups s' !! "/obj/wheel_cage" = None
    ∧ MergeEntry true "/obj/wheel_cage" "" false ∈ o'
    ∧ is_Some (bake_groups s' !! "/obj/body_cage")
    ∧ MergeEntry true "/obj/body_cage" "" false ∉ o'.
Proof.
  intros s.
  assert (Hcons : consistent s ["wheel"; "body"])
    by exact (example_network_consistent ["body"; "door"] ["door"; "body"]).
  assert (Hne : ["wheel"; "body"] ≠ []) by discriminate.
  assert (Hloc : network_location (control s) = "/obj") by (vm_compute; reflexivity).
  assert (Hg1 : import_geometry s (retopo_source_path (control s)) = Some ["body"; "door"])
    by (vm_compute; reflexivity).
  assert (Hg2 : import_geometry s (reference_source_path (control s)) = Some ["door"; "body"])
    by (vm_compute; reflexivity).
  assert (Ho : get_output Cage s
               = Some (output_entries (network_location (control s))
                         (Py.sorted ["wheel"; "body"]) Cage))
    by (vm_compute; reflexivity).
  assert (Hwf1 : well_formed_geometry ["body"; "door"])
    by (unfold well_formed_geometry; compute_done).
  assert (Hwf2 : well_formed_geometry ["door"; "body"])
    by (unfold well_formed_geometry; compute_done).
  assert (Hv1 : Forall valid_name ["body"; "door"]).
  { repeat constructor; compute_done. }
  assert (Hne1 : ["body"; "door"] ≠ []) by discriminate.
  assert (Hsame : ∀ x, x ∈ ["body"; "door"] ↔ x ∈ ["door"; "body"]).
  { intros x. rewrite !elem_of_cons. tauto. }
  assert (Honly : ∀ y, y ∈ ["wheel"; "body"] → y ∉ ["body"; "door"] → y = "wheel").
  { clear. intros y Hy Hno. apply elem_of_cons in Hy as [->|Hy]; [reflexivity|].
    exfalso. apply Hno. apply elem_of_cons in Hy as [->|Hy]; [apply list_elem_of_here|].
    by apply elem_of_nil in Hy. }
  assert (Hx : "wheel" ∉ ["body"; "door"]) by compute_done.
  assert (Hk : Py.sorted ["wheel"; "body"] !! 1 = Some "wheel") by (vm_compute; reflexivity).
  assert (Hpos : 0 < 1) by lia.
  assert (Hbefore : ∀ j y, j < 1 → Py.sorted ["wheel"; "body"] !! j = Some y →
            Py.is_infix (group_path (network_location (control s)) "wheel" Cage)
              (group_path (network_location (control s)) y Cage) = false).
  { rewrite Hloc. clear. intros j y Hj Hy. destruct j as [|j]; [|lia].
    vm_compute in Hy. injection Hy as <-. vm_compute. reflexivity. }
  destruct (update_network_stale_reference s ["wheel"; "body"] ["body"; "door"]
              ["door"; "body"] Cage "wheel" 1
              Hcons Hne Hg1 Hg2 Hwf1 Hwf2 Hv1 Hne1 Hsame Ho Honly Hx Hk Hpos Hbefore)
    as (s' & o' & lost & Hrun & Hout & Hgone & Hstale & Hlost & Hlive & Hmiss).
  vm_compute in Hlost. injection Hlost as <-.
  rewrite Hloc in Hgone, Hstale, Hlive, Hmiss.
  exists s', o'.
  split; [exact Hrun|]. split; [exact Hout|]. split; [exact Hgone|].
  split; [exact Hstale|]. split; [exact Hlive|exact Hmiss].
Defined.
